(** * IMAT slot monitor: a shallow embedding of [main.py]

    The development follows the layout of the Python class
    [IMATSlotMonitor]:

    - [Py]: the few Python string built-ins the program relies on
      ([in], [lower], [upper], [title], [startswith], [split]/[join]);
    - [Soup]: the part of the BeautifulSoup tree API the program calls
      ([find], [find_all], [find_parent], [select], [get_text], [.string]);
    - [Extractor]: [extract_status_from_element], [detect_city_status],
      [analyze_slot_status], [check_for_changes];
    - [Session]: the HTTP session state machine ([login_to_system],
      [select_country], [navigate_to_slot_page], [initialize_session],
      [maintain_session], [get_page_content]) over a small state and
      exception monad, with the site as a script of replies and a trace
      of what the program did;
    - [Loop]: the body of the loop of [run_monitor] and its iteration;
    - [Spec], [Examples]: the vocabulary of the statements and the
      concrete pages, sites and monitor states they are run on;
    - [ChangeDetectorFacts], [ExtractorFacts], [SessionFacts],
      [LoopFacts]: the properties;
    - [UrlFacts], [FormFacts], [ExtractorMore], [SessionMore],
      [LoopMore]: further properties of link resolution, form data and
      headers, extraction, the paths of a fetch and the loop.

    Strings are Python [str] with the case mapping of ASCII (see
    [Py.is_ascii]); status values are the strings the program uses
    (['red'], ['yellow'], ['green'], ['unknown']); snapshots are finite
    maps from city names to status strings.  A page is markup together
    with the tree the parser builds from it; which markup [html.parser]
    accepts is a parameter ([accepts]) of the definitions that make the
    unguarded parser call of [analyze_slot_status] explicit. *)

From Stdlib Require Import String Ascii ZArith List Bool Lia.
From stdpp Require Import base gmap strings list.
Import ListNotations.

Local Open Scope string_scope.
Local Open Scope list_scope.

(* ===================================================================== *)
(** ** Python string built-ins *)
(* ===================================================================== *)

Module Py.

Definition is_upper (c : ascii) : bool :=
  let n := nat_of_ascii c in (65 <=? n)%nat && (n <=? 90)%nat.

Definition is_lower (c : ascii) : bool :=
  let n := nat_of_ascii c in (97 <=? n)%nat && (n <=? 122)%nat.

Definition is_alpha (c : ascii) : bool := is_upper c || is_lower c.

Definition lower_char (c : ascii) : ascii :=
  if is_upper c then ascii_of_nat (nat_of_ascii c + 32) else c.

Definition upper_char (c : ascii) : ascii :=
  if is_lower c then ascii_of_nat (nat_of_ascii c - 32) else c.

(** The strings on which the case mappings below are those of Python:
    [str.lower], [str.upper] and [str.title] map characters outside
    ASCII by the Unicode tables (['\u0130'.lower()] is ['i'] followed
    by a combining dot, ['\u00df'.upper()] is ['SS']), which is not
    modelled: here such characters are left as they are. *)
Definition is_ascii (s : string) : bool :=
  forallb (fun c => (nat_of_ascii c <? 128)%nat) (list_ascii_of_string s).

(** [s.lower()] *)
Fixpoint lower (s : string) : string :=
  match s with
  | EmptyString => EmptyString
  | String c r => String (lower_char c) (lower r)
  end.

(** [s.upper()] *)
Fixpoint upper (s : string) : string :=
  match s with
  | EmptyString => EmptyString
  | String c r => String (upper_char c) (upper r)
  end.

(** [s.title()]: a cased character is upper-cased when the previous
    character is uncased, lower-cased otherwise. *)
Fixpoint title_from (prev_cased : bool) (s : string) : string :=
  match s with
  | EmptyString => EmptyString
  | String c r =>
      String (if prev_cased then lower_char c else upper_char c)
             (title_from (is_alpha c) r)
  end.

Definition title (s : string) : string := title_from false s.

(** [s.startswith(p)] *)
Fixpoint startswith (p s : string) : bool :=
  match p, s with
  | EmptyString, _ => true
  | String a p', String b s' => Ascii.eqb a b && startswith p' s'
  | String _ _, EmptyString => false
  end.

(** [sub in s] on strings *)
Fixpoint contains (sub s : string) : bool :=
  startswith sub s ||
  match s with
  | EmptyString => false
  | String _ r => contains sub r
  end.

(** [bool(s)] for a string *)
Definition truthy (s : string) : bool :=
  match s with EmptyString => false | _ => true end.

(** [s.split(sep)] for a one-character separator *)
Fixpoint split_acc (sep : ascii) (cur : string) (s : string) : list string :=
  match s with
  | EmptyString => [cur]
  | String c r =>
      if Ascii.eqb c sep then cur :: split_acc sep EmptyString r
      else split_acc sep (cur +:+ String c EmptyString) r
  end.

Definition split (sep : ascii) (s : string) : list string :=
  split_acc sep EmptyString s.

(** [sep.join(l)] *)
Fixpoint join (sep : string) (l : list string) : string :=
  match l with
  | [] => EmptyString
  | [x] => x
  | x :: r => x +:+ sep +:+ join sep r
  end.

(** [re.compile(kw, re.I).search(s)] for a keyword [kw] made of
    letters and spaces only, as every pattern of the program is. *)
Definition search_ignorecase (kw s : string) : bool :=
  contains (lower kw) (lower s).

(** [x or y] on an optional string: [None] and [''] are falsy. *)
Definition or_else (x : option string) (y : string) : string :=
  match x with
  | Some s => if truthy s then s else y
  | None => y
  end.

End Py.

(* ===================================================================== *)
(** ** The BeautifulSoup tree *)
(* ===================================================================== *)

Module Soup.

(** An attribute value is a string, or a list of strings for the
    multi-valued attributes ([class], [rel], ...). *)
Inductive attr_value :=
| AStr (s : string)
| AList (l : list string).

(** A node of the parsed tree: a [NavigableString] or a [Tag] with its
    attribute dictionary (in source order) and its contents. *)
#[warnings="-register-all"]
Inductive node :=
| NavigableString (s : string)
| Tag (name : string) (attrs : list (string * attr_value)) (contents : list node).

Definition soup := list node.

Definition tag_name (n : node) : string :=
  match n with Tag nm _ _ => nm | NavigableString _ => "" end.

Definition tag_attrs (n : node) : list (string * attr_value) :=
  match n with Tag _ a _ => a | NavigableString _ => [] end.

Definition tag_contents (n : node) : list node :=
  match n with Tag _ _ c => c | NavigableString _ => [] end.

(** [tag.get(key)] *)
Fixpoint attr_get (key : string) (attrs : list (string * attr_value)) : option attr_value :=
  match attrs with
  | [] => None
  | (k, v) :: r => if String.eqb k key then Some v else attr_get key r
  end.

Definition get (n : node) (key : string) : option attr_value :=
  attr_get key (tag_attrs n).

(** [tag.get(key)] for a single-valued attribute; a list value is
    reported as its space-joined text (what the tree matchers compare
    against). *)
Definition attr_text (v : attr_value) : string :=
  match v with AStr s => s | AList l => Py.join " " l end.

Definition get_str (n : node) (key : string) : option string :=
  attr_text <$> get n key.

(** All tags below a list of nodes, in document order, each with the
    chain of its ancestors (nearest first). *)
Fixpoint tags_under (anc : list node) (n : node) : list (node * list node) :=
  match n with
  | NavigableString _ => []
  | Tag _ _ cs =>
      (n, anc) ::
      (fix go (l : list node) : list (node * list node) :=
         match l with
         | [] => []
         | c :: r => tags_under (n :: anc) c ++ go r
         end) cs
  end.

Fixpoint tags_of_list (anc : list node) (l : list node) : list (node * list node) :=
  match l with
  | [] => []
  | c :: r => tags_under anc c ++ tags_of_list anc r
  end.

(** [soup.descendants] restricted to tags *)
Definition descendants (l : list node) : list node :=
  fst <$> tags_of_list [] l.

(** The text of a tag as the selector engine reads it for
    [:contains(...)]: the concatenation of all strings below the tag,
    whatever tag holds them. *)
Fixpoint node_text (n : node) : string :=
  match n with
  | NavigableString s => s
  | Tag _ _ cs =>
      (fix go (l : list node) : string :=
         match l with
         | [] => EmptyString
         | c :: r => node_text c +:+ go r
         end) cs
  end.

(** The tags whose strings the tree builder stores in a class of their
    own ([Script], [Stylesheet], [TemplateString], [RubyTextString],
    [RubyParenthesisString]): a string below one of them is not text
    for [get_text]. *)
Definition string_containers : list string :=
  ["rt"; "rp"; "style"; "script"; "template"].

Definition is_string_container (name : string) : bool :=
  existsb (String.eqb name) string_containers.

(** The strings below a node that [get_text] collects *)
Fixpoint visible_text (n : node) : string :=
  match n with
  | NavigableString s => s
  | Tag name _ cs =>
      if is_string_container name then EmptyString
      else
        (fix go (l : list node) : string :=
           match l with
           | [] => EmptyString
           | c :: r => visible_text c +:+ go r
           end) cs
  end.

(** [soup.get_text()]: the concatenation of the strings of the document
    that are plain [NavigableString]s, i.e. all but those inside
    [<script>], [<style>], [<template>], [<rt>] and [<rp>]. *)
Fixpoint get_text (l : list node) : string :=
  match l with
  | [] => EmptyString
  | c :: r => visible_text c +:+ get_text r
  end.

(** [tag.string]: the single string child, looked up through single
    tag children. *)
Fixpoint dot_string (n : node) : option string :=
  match n with
  | NavigableString s => Some s
  | Tag _ _ [c] => dot_string c
  | Tag _ _ _ => None
  end.

(** [soup.find_all(name, ...)] with a predicate standing for the
    attribute and string filters; every hit comes with its ancestors. *)
Definition find_all_located (l : list node) (name : string) (p : node -> bool)
  : list (node * list node) :=
  List.filter (fun na => String.eqb (tag_name (fst na)) name && p (fst na))
              (tags_of_list [] l).

Definition find_all (l : list node) (name : string) (p : node -> bool) : list node :=
  fst <$> find_all_located l name p.

(** [soup.find(name, ...)] *)
Definition find_located (l : list node) (name : string) (p : node -> bool)
  : option (node * list node) :=
  head (find_all_located l name p).

Definition find (l : list node) (name : string) (p : node -> bool) : option node :=
  fst <$> find_located l name p.

(** [tag.find_parent(name)]: the nearest ancestor with that name, given
    the ancestors of the tag (nearest first). *)
Definition find_parent (ancestors : list node) (name : string) : option node :=
  head (List.filter (fun n => String.eqb (tag_name n) name) ancestors).

(** The filters the program passes to [find] and [find_all]. *)

(** [{'id': v}]: the attribute equals [v] *)
Definition attr_is (key v : string) (n : node) : bool :=
  match get_str n key with Some s => String.eqb s v | None => false end.

(** [key=lambda x: x and sub in x.lower()] *)
Definition attr_lower_contains (key sub : string) (n : node) : bool :=
  match get_str n key with
  | Some s => Py.truthy s && Py.contains sub (Py.lower s)
  | None => false
  end.

(** [key=True]: the attribute is present *)
Definition attr_present (key : string) (n : node) : bool :=
  match get n key with Some _ => true | None => false end.

(** [key=re.compile(kw, re.I)] *)
Definition attr_search (key kw : string) (n : node) : bool :=
  match get_str n key with Some s => Py.search_ignorecase kw s | None => false end.

(** [string=re.compile(kw, re.I)]: the tag's [.string] matches *)
Definition string_search (kw : string) (n : node) : bool :=
  match dot_string n with Some s => Py.search_ignorecase kw s | None => false end.

(** The CSS selectors the program builds. *)
Inductive selector :=
| SelClassContains (v : string)   (* *[class*='v'] *)
| SelIdContains (v : string)      (* *[id*='v'] *)
| SelContains (v : string).       (* *:contains('v') *)

(** An attribute selector [*=] with an empty value matches nothing;
    [:contains('')] matches every tag. *)
Definition matches (sel : selector) (n : node) : bool :=
  match sel with
  | SelClassContains v =>
      match get_str n "class" with
      | Some s => Py.truthy v && Py.contains v s
      | None => false
      end
  | SelIdContains v =>
      match get_str n "id" with
      | Some s => Py.truthy v && Py.contains v s
      | None => false
      end
  | SelContains v => Py.contains v (node_text n)
  end.

(** [soup.select(pattern)]: matching tags in document order *)
Definition select (l : list node) (sel : selector) : list node :=
  List.filter (matches sel) (descendants l).

End Soup.

(* ===================================================================== *)
(** ** StatusExtractor and ChangeDetector *)
(* ===================================================================== *)

Module Extractor.
Import Soup.

(** The status enumeration of the design and the strings the program
    uses for it. *)
Inductive StatusValue := Red | Yellow | Green | Unknown.

Definition status_name (v : StatusValue) : string :=
  match v with
  | Red => "red"
  | Yellow => "yellow"
  | Green => "green"
  | Unknown => "unknown"
  end.

Definition is_status_value (s : string) : Prop :=
  exists v, s = status_name v.

(** A parsed page: the markup text together with the tree that
    [BeautifulSoup(text, 'html.parser')] builds from it.  The parser
    itself is a library and is not modelled.  Markup it refuses makes
    the constructor raise and has no tree: of such a page only the text
    counts.  The session functions below are given pages the parser
    accepts (a parser error there is caught by the [except] of the
    sub-step, as a failed request is); for the one call that nothing
    guards, in [analyze_slot_status], see [analyze_markup]. *)
Record html := { html_text : string; html_soup : soup }.

(** A pure computation that may raise. *)
Inductive outcome (A : Type) :=
| Return (a : A)
| Raised.
Arguments Return {A} a.
Arguments Raised {A}.

(** [str(attr_value)]: a string is itself, a list prints as
    ['a', 'b'] (tokens are assumed free of quotes and backslashes). *)
Definition py_str (v : attr_value) : string :=
  match v with
  | AStr s => s
  | AList l => "[" +:+ Py.join ", " ((fun t => "'" +:+ t +:+ "'") <$> l) +:+ "]"
  end.

(** Iterating [element.get('class', [])]: the list of class tokens, or
    the characters of the value were it a plain string. *)
Definition class_tokens (element : node) : list string :=
  match get element "class" with
  | None => []
  | Some (AList l) => l
  | Some (AStr s) => (fun c => String c EmptyString) <$> list_ascii_of_string s
  end.

Definition any_color (s : string) : bool :=
  existsb (fun color => Py.contains color s) ["red"; "green"; "yellow"].

(** The loop over class names *)
Fixpoint scan_classes (class_list : list string) : option string :=
  match class_list with
  | [] => None
  | class_name :: rest =>
      let class_lower := Py.lower class_name in
      if any_color class_lower then
        if Py.contains "red" class_lower then Some "red"
        else if Py.contains "green" class_lower then Some "green"
        else if Py.contains "yellow" class_lower then Some "yellow"
        else scan_classes rest
      else scan_classes rest
  end.

(** The chain of tests on a non-empty style string *)
Definition scan_style (style : string) : option string :=
  let s := Py.lower style in
  if Py.contains "red" s || Py.contains "#ff0000" s || Py.contains "rgb(255,0,0)" s
  then Some "red"
  else if Py.contains "green" s || Py.contains "#00ff00" s || Py.contains "rgb(0,255,0)" s
  then Some "green"
  else if Py.contains "yellow" s || Py.contains "#ffff00" s || Py.contains "rgb(255,255,0)" s
  then Some "yellow"
  else None.

(** The loop over [element.attrs.items()] *)
Fixpoint scan_attrs (attrs : list (string * attr_value)) : option string :=
  match attrs with
  | [] => None
  | (attr_name, attr_value) :: rest =>
      if Py.contains "status" (Py.lower attr_name) || Py.contains "color" (Py.lower attr_name)
      then if any_color (Py.lower (py_str attr_value))
           then Some (Py.lower (py_str attr_value))
           else scan_attrs rest
      else scan_attrs rest
  end.

(** [extract_status_from_element]. [Return None] is Python's [None];
    the only statement that can raise is [style.lower()] on a list
    value. *)
Definition extract_status_from_element (element : node) : outcome (option string) :=
  match scan_classes (class_tokens element) with
  | Some color => Return (Some color)
  | None =>
      let after_style :=
        match scan_attrs (tag_attrs element) with
        | Some v => Return (Some v)
        | None => Return None
        end in
      match get element "style" with
      | None => after_style
      | Some (AStr style) =>
          if Py.truthy style then
            match scan_style style with
            | Some color => Return (Some color)
            | None => after_style
            end
          else after_style
      | Some (AList []) => after_style
      | Some (AList (_ :: _)) => Raised
      end
  end.

(** The inner loop of [detect_city_status] over the selected elements;
    [if status:] tests the truthiness of the returned string. *)
Fixpoint scan_elements (elements : list node) : outcome (option string) :=
  match elements with
  | [] => Return None
  | element :: rest =>
      match extract_status_from_element element with
      | Raised => Raised
      | Return (Some status) =>
          if Py.truthy status then Return (Some status) else scan_elements rest
      | Return None => scan_elements rest
      end
  end.

(** The four selectors built from the city name (the name is assumed to
    be a plain word, so that the selector text is well formed). *)
Definition city_patterns (city : string) : list selector :=
  [ SelClassContains city; SelIdContains city;
    SelContains (Py.title city); SelContains (Py.upper city) ].

(** The outer loop: an exception inside the [try] moves on to the next
    pattern. *)
Fixpoint scan_patterns (sp : soup) (patterns : list selector) : option string :=
  match patterns with
  | [] => None
  | pattern :: rest =>
      match scan_elements (select sp pattern) with
      | Return (Some status) => Some status
      | Return None => scan_patterns sp rest
      | Raised => scan_patterns sp rest
      end
  end.

(** [status_keywords], in the insertion order of the dictionary *)
Definition status_keywords : list (string * string) :=
  [ ("available", "green"); ("limited", "yellow"); ("full", "red"); ("closed", "red") ].

Fixpoint scan_keywords (kws : list (string * string)) (text_content : string) : option string :=
  match kws with
  | [] => None
  | (keyword, color) :: rest =>
      if Py.contains keyword text_content then Some color
      else scan_keywords rest text_content
  end.

(** [detect_city_status] *)
Definition detect_city_status (sp : soup) (city : string) : string :=
  match scan_patterns sp (city_patterns city) with
  | Some status => status
  | None =>
      let text_content := Py.lower (get_text sp) in
      if Py.contains city text_content then
        match scan_keywords status_keywords text_content with
        | Some color => color
        | None => "unknown"
        end
      else "unknown"
  end.

(** [if html_content] / [if not html_content]: [None] and the empty
    string are falsy. *)
Definition html_truthy (html_content : option html) : bool :=
  match html_content with
  | Some h => Py.truthy (html_text h)
  | None => false
  end.

(** [analyze_slot_status] on markup the parser accepts: the result of
    [BeautifulSoup(html_content, 'html.parser')] is the tree the page
    comes with. *)
Definition analyze_slot_status (cities : list string) (html_content : option html)
  : gmap string string :=
  match html_content with
  | Some h =>
      if Py.truthy (html_text h) then
        foldl (fun slot_status city =>
                 <[city := detect_city_status (html_soup h) city]> slot_status)
              ∅ cities
      else ∅
  | None => ∅
  end.

(** [analyze_slot_status] with the call of the parser made explicit.
    [accepts] says which markup [html.parser] accepts.  On markup it
    refuses, [BeautifulSoup(html_content, 'html.parser')] raises, after
    the guard for empty markup and outside any [try]; on markup it
    accepts, the page comes with the tree. *)
Definition analyze_markup (accepts : string -> bool) (cities : list string)
  (html_content : option html) : outcome (gmap string string) :=
  match html_content with
  | Some h =>
      if Py.truthy (html_text h) then
        if accepts (html_text h)
        then Return (analyze_slot_status cities html_content)
        else Raised
      else Return ∅
  | None => Return ∅
  end.

(** An entry of [changes_detected] *)
Record change := { city : string; previous : string; current : string }.

(** [check_for_changes]; the entries come in the iteration order of the
    finite map. *)
Definition check_for_changes (previous_state current_status : gmap string string)
  : list change :=
  omap (fun '(city, current_color) =>
          let previous_color := default "unknown" (previous_state !! city) in
          if String.eqb previous_color "red" &&
             (String.eqb current_color "yellow" || String.eqb current_color "green")
          then Some {| city := city; previous := previous_color; current := current_color |}
          else None)
       (map_to_list current_status).

End Extractor.

(* ===================================================================== *)
(** ** SessionManager *)
(* ===================================================================== *)

Module Session.
Import Soup Extractor.

(** *** Requests, responses and the observable trace *)

Inductive method := GET | POST.

(** A call of [session.get] / [session.post]: the URL, the form data of
    a POST and the [timeout] argument when one is given.  The header
    dictionaries of [get_fresh_headers] do not influence control flow
    and are left out. *)
Record request := {
  req_method : method;
  req_url : string;
  req_data : list (string * option string);
  req_timeout : option Z
}.

(** A [requests.Response]: status code, final URL after redirects, and
    the text with its parse. *)
Record response := {
  status_code : Z;
  url : string;
  body : html
}.

(** The exceptions the handlers tell apart:
    [requests.exceptions.RequestException] and any other [Exception]. *)
Inductive exn := RequestException | OtherException.

(** What the site does with one request. *)
Inductive reply :=
| Reply (r : response)
| Fails (e : exn).

(** The Telegram messages of the program, by kind. *)
Inductive message :=
| StartupMsg
| SlotAlert (changes : list change)
| FailureAlert (failures : Z) (last_successful_check : Z)
| ErrorMsg
| StopMsg.

Inductive event :=
| EvRequest (r : request)
| EvInitialize                (* initialize_session entered *)
| EvSleep (seconds : Z)
| EvTelegram (m : message).

(** *** The monitor object and its environment *)

(** The fields of [IMATSlotMonitor] the program reads or writes, the
    replies the site will give to the coming requests, and the trace of
    what the program has done so far (oldest first). *)
Record state := {
  imat_url : string;
  username : option string;
  password : option string;
  cities : list string;
  slot_booking_url : option string;
  is_logged_in : bool;
  country_selected : bool;
  session_initialized : bool;
  previous_state : gmap string string;
  request_counter : Z;
  network : list reply;
  trace : list event
}.

Definition set_slot_booking_url (v : option string) (s : state) : state :=
  {| imat_url := imat_url s; username := username s; password := password s;
     cities := cities s; slot_booking_url := v; is_logged_in := is_logged_in s;
     country_selected := country_selected s;
     session_initialized := session_initialized s;
     previous_state := previous_state s; request_counter := request_counter s;
     network := network s; trace := trace s |}.

Definition set_is_logged_in (v : bool) (s : state) : state :=
  {| imat_url := imat_url s; username := username s; password := password s;
     cities := cities s; slot_booking_url := slot_booking_url s; is_logged_in := v;
     country_selected := country_selected s;
     session_initialized := session_initialized s;
     previous_state := previous_state s; request_counter := request_counter s;
     network := network s; trace := trace s |}.

Definition set_country_selected (v : bool) (s : state) : state :=
  {| imat_url := imat_url s; username := username s; password := password s;
     cities := cities s; slot_booking_url := slot_booking_url s;
     is_logged_in := is_logged_in s; country_selected := v;
     session_initialized := session_initialized s;
     previous_state := previous_state s; request_counter := request_counter s;
     network := network s; trace := trace s |}.

Definition set_session_initialized (v : bool) (s : state) : state :=
  {| imat_url := imat_url s; username := username s; password := password s;
     cities := cities s; slot_booking_url := slot_booking_url s;
     is_logged_in := is_logged_in s; country_selected := country_selected s;
     session_initialized := v;
     previous_state := previous_state s; request_counter := request_counter s;
     network := network s; trace := trace s |}.

Definition set_previous_state (v : gmap string string) (s : state) : state :=
  {| imat_url := imat_url s; username := username s; password := password s;
     cities := cities s; slot_booking_url := slot_booking_url s;
     is_logged_in := is_logged_in s; country_selected := country_selected s;
     session_initialized := session_initialized s;
     previous_state := v; request_counter := request_counter s;
     network := network s; trace := trace s |}.

Definition set_request_counter (v : Z) (s : state) : state :=
  {| imat_url := imat_url s; username := username s; password := password s;
     cities := cities s; slot_booking_url := slot_booking_url s;
     is_logged_in := is_logged_in s; country_selected := country_selected s;
     session_initialized := session_initialized s;
     previous_state := previous_state s; request_counter := v;
     network := network s; trace := trace s |}.

Definition set_network (v : list reply) (s : state) : state :=
  {| imat_url := imat_url s; username := username s; password := password s;
     cities := cities s; slot_booking_url := slot_booking_url s;
     is_logged_in := is_logged_in s; country_selected := country_selected s;
     session_initialized := session_initialized s;
     previous_state := previous_state s; request_counter := request_counter s;
     network := v; trace := trace s |}.

Definition set_trace (v : list event) (s : state) : state :=
  {| imat_url := imat_url s; username := username s; password := password s;
     cities := cities s; slot_booking_url := slot_booking_url s;
     is_logged_in := is_logged_in s; country_selected := country_selected s;
     session_initialized := session_initialized s;
     previous_state := previous_state s; request_counter := request_counter s;
     network := network s; trace := v |}.

(** *** A state and exception monad *)

Inductive result (A : Type) :=
| Ok (a : A)
| Exc (e : exn).
Arguments Ok {A} a.
Arguments Exc {A} e.

Definition M (A : Type) : Type := state -> result A * state.

Definition ret {A} (a : A) : M A := fun s => (Ok a, s).

Definition bind {A B} (m : M A) (k : A -> M B) : M B :=
  fun s =>
    match m s with
    | (Ok a, s') => k a s'
    | (Exc e, s') => (Exc e, s')
    end.

Definition raise {A} (e : exn) : M A := fun s => (Exc e, s).

(** [try: m  except ... as e: h e]; the writes made before the
    exception stay. *)
Definition try_except {A} (m : M A) (h : exn -> M A) : M A :=
  fun s =>
    match m s with
    | (Ok a, s') => (Ok a, s')
    | (Exc e, s') => h e s'
    end.

Definition gets {A} (f : state -> A) : M A := fun s => (Ok (f s), s).

Definition modify (f : state -> state) : M unit := fun s => (Ok tt, f s).

Definition emit (e : event) : M unit :=
  modify (fun s => set_trace (trace s ++ [e]) s).

Declare Scope session_scope.
Delimit Scope session_scope with session.
Notation "x <- c1 ;; c2" := (bind c1 (fun x => c2))
  (at level 20, c1 at level 99, c2 at level 200, only parsing) : session_scope.
Notation "c1 ;; c2" := (bind c1 (fun _ => c2))
  (at level 100, c2 at level 200, only parsing, right associativity) : session_scope.
Local Open Scope session_scope.

(** One HTTP call: it is recorded, and the site's next reply decides
    whether it returns or raises.  When no reply is left the site is
    unreachable. *)
Definition http (r : request) : M response :=
  emit (EvRequest r) ;;
  fun s =>
    match network s with
    | [] => (Exc RequestException, s)
    | Reply resp :: rest => (Ok resp, set_network rest s)
    | Fails e :: rest => (Exc e, set_network rest s)
    end.

Definition session_get (u : string) (timeout : option Z) : M response :=
  http {| req_method := GET; req_url := u; req_data := []; req_timeout := timeout |}.

Definition session_post (u : string) (data : list (string * option string)) : M response :=
  http {| req_method := POST; req_url := u; req_data := data; req_timeout := None |}.

(** [response.raise_for_status()] *)
Definition raise_for_status (r : response) : M unit :=
  if (400 <=? status_code r)%Z && (status_code r <? 600)%Z
  then raise RequestException else ret tt.

(** [time.sleep(n)] *)
Definition sleep (seconds : Z) : M unit := emit (EvSleep seconds).

(** [send_telegram_message]: fire and forget; its own failures are
    caught inside and its result is ignored by every caller. *)
Definition send_telegram_message (m : message) : M unit := emit (EvTelegram m).

(** *** Helpers shared by the three sub-steps *)

(** ['/'.join(self.imat_url.split('/')[:3])] *)
Definition base_url (imat : string) : string :=
  Py.join "/" (take 3 (Py.split "/"%char imat)).

(** [if not href.startswith('http'): href = base_url + href] *)
Definition absolute (imat href : string) : string :=
  if Py.startswith "http" href then href else base_url imat +:+ href.

(** [d[k] = v] on a dictionary kept in insertion order *)
Fixpoint dict_set {V} (k : string) (v : V) (d : list (string * V)) : list (string * V) :=
  match d with
  | [] => [(k, v)]
  | (k', v') :: r => if String.eqb k' k then (k, v) :: r else (k', v') :: dict_set k v r
  end.

(** [d.get(k)] on such a dictionary *)
Fixpoint dict_get {V} (k : string) (d : list (string * V)) : option V :=
  match d with
  | [] => None
  | (k', v) :: r => if String.eqb k' k then Some v else dict_get k r
  end.

(** [d.update(new)]: the entries of [new] are assigned in their order *)
Definition dict_update {V} (d new : list (string * V)) : list (string * V) :=
  foldl (fun acc kv => dict_set (fst kv) (snd kv) acc) d new.

(** [self.base_headers] *)
Definition base_headers : list (string * string) :=
  [ ("User-Agent",
     "Mozilla/5.0 (Windows NT 10.0; Win64; x64) AppleWebKit/537.36 (KHTML, like Gecko) Chrome/120.0.0.0 Safari/537.36");
    ("Accept",
     "text/html,application/xhtml+xml,application/xml;q=0.9,image/avif,image/webp,image/apng,*/*;q=0.8,application/signed-exchange;v=b3;q=0.7");
    ("Accept-Language", "en-US,en;q=0.9");
    ("Accept-Encoding", "gzip, deflate, br");
    ("Sec-Fetch-Dest", "document");
    ("Sec-Fetch-Mode", "navigate");
    ("Sec-Fetch-Site", "none");
    ("Sec-Fetch-User", "?1");
    ("Upgrade-Insecure-Requests", "1");
    ("Connection", "keep-alive") ].

(** [get_fresh_headers]: a copy of the base headers, updated for a form
    submission or for a page load; it reads the entry URL and
    [session_initialized] and writes nothing. *)
Definition get_fresh_headers (form_submit : bool) (s : state) : list (string * string) :=
  let headers := base_headers in
  if form_submit then
    dict_update headers
      [ ("Content-Type", "application/x-www-form-urlencoded");
        ("Origin", Py.join "/" (take 3 (Py.split "/"%char (imat_url s))));
        ("Referer", imat_url s);
        ("Sec-Fetch-Dest", "document");
        ("Sec-Fetch-Mode", "navigate");
        ("Sec-Fetch-Site", "same-origin");
        ("Sec-Fetch-User", "?1") ]
  else
    let headers :=
      dict_update headers
        [ ("Cache-Control", "max-age=0");
          ("Sec-Fetch-Dest", "document");
          ("Sec-Fetch-Mode", "navigate");
          ("Sec-Fetch-Site", if session_initialized s then "same-origin" else "none");
          ("Sec-Fetch-User", "?1") ] in
    if session_initialized s then dict_set "Referer" (imat_url s) headers
    else headers.

(** The loop over [form.find_all('input', type='hidden')] *)
Fixpoint add_hidden (hiddens : list node) (data : list (string * option string))
  : list (string * option string) :=
  match hiddens with
  | [] => data
  | hidden :: rest =>
      let value := default "" (get_str hidden "value") in
      match get_str hidden "name" with
      | Some name =>
          if Py.truthy name then add_hidden rest (dict_set name (Some value) data)
          else add_hidden rest data
      | None => add_hidden rest data
      end
  end.

Definition hidden_inputs (form : node) : list node :=
  find_all (tag_contents form) "input" (attr_is "type" "hidden").

(** [not self.username]: [None] and [''] are falsy *)
Definition opt_truthy (x : option string) : bool :=
  match x with Some s => Py.truthy s | None => false end.

(** The session-expiry test on a response URL *)
Definition expired (u : string) : bool :=
  Py.contains "login" (Py.lower u) ||
  Py.contains "signin" (Py.lower u) ||
  Py.contains "country" (Py.lower u).

(** [self.slot_booking_url or self.imat_url] *)
Definition target_url (s : state) : string :=
  Py.or_else (slot_booking_url s) (imat_url s).

(** *** Login *)

(** [soup.find('form', {'id': 'loginForm'}) or
     soup.find('form', action=lambda x: x and 'login' in x.lower())] *)
Definition find_login_form (sp : soup) : option node :=
  match find sp "form" (attr_is "id" "loginForm") with
  | Some form => Some form
  | None => find sp "form" (attr_lower_contains "action" "login")
  end.

(** The [try] block of [login_to_system]: [Some b] stands for
    [return b], [None] for leaving the block without returning. *)
Definition login_attempt : M (option bool) :=
  imat <- gets imat_url ;;
  response <- session_get imat None ;;
  match find_login_form (html_soup (body response)) with
  | Some login_form =>
      let action := absolute imat (default "" (get_str login_form "action")) in
      user <- gets username ;;
      pass <- gets password ;;
      let login_data :=
        add_hidden (hidden_inputs login_form)
                   [("username", user); ("password", pass)] in
      login_response <- session_post action login_data ;;
      if (status_code login_response =? 200)%Z then
        if Py.contains "dashboard" (Py.lower (url login_response)) ||
           Py.contains "welcome" (Py.lower (html_text (body login_response)))
        then (modify (set_is_logged_in true) ;; ret (Some true))
        else ret (Some false)
      else ret None
  | None => ret None
  end.

(** [login_to_system] *)
Definition login_to_system : M bool :=
  user <- gets username ;;
  pass <- gets password ;;
  if negb (opt_truthy user) || negb (opt_truthy pass) then ret true
  else
    r <- try_except login_attempt (fun _ => ret (Some false)) ;;
    match r with
    | Some b => ret b
    | None => ret true   (* Continue even if no login form found *)
    end.

(** *** Country selection *)

(** Method 1, the dropdown: [true] stands for [return True], [false]
    for going on to method 2. *)
Definition select_by_dropdown (sp : soup) : M bool :=
  match find_located sp "select" (attr_lower_contains "name" "country") with
  | Some (country_select, ancestors) =>
      match find_parent ancestors "form" with
      | Some form =>
          imat <- gets imat_url ;;
          let action := absolute imat (default "" (get_str form "action")) in
          match find (tag_contents country_select) "option" (string_search "India") with
          | Some india_option =>
              let country_data :=
                add_hidden (hidden_inputs form)
                           [(default "" (get_str country_select "name"),
                             get_str india_option "value")] in
              country_response <- session_post action country_data ;;
              if (status_code country_response =? 200)%Z
              then (modify (set_country_selected true) ;; ret true)
              else ret false
          | None => ret false
          end
      | None => ret false
      end
  | None => ret false
  end.

(** Method 2, the loop over the links whose text names India. *)
Fixpoint follow_india_links (imat : string) (india_links : list node) : M bool :=
  match india_links with
  | [] => ret false
  | link :: rest =>
      match get_str link "href" with
      | Some href =>
          if Py.truthy href then
            country_response <- session_get (absolute imat href) None ;;
            if (status_code country_response =? 200)%Z
            then (modify (set_country_selected true) ;; ret true)
            else follow_india_links imat rest
          else follow_india_links imat rest
      | None => follow_india_links imat rest
      end
  end.

(** [select_country]: every path, the handler included, ends in
    [return True]. *)
Definition select_country : M bool :=
  try_except
    (imat <- gets imat_url ;;
     response <- session_get imat None ;;
     let sp := html_soup (body response) in
     selected <- select_by_dropdown sp ;;
     if selected then ret tt
     else (_ <- follow_india_links imat (find_all sp "a" (string_search "India")) ;;
           ret tt))
    (fun _ => ret tt) ;;
  ret true.

(** *** Navigation to the slot page *)

Definition slot_keywords : list string :=
  ["slot"; "booking"; "appointment"; "schedule"; "exam center"].

(** The loop over the links of one keyword: [Some href] stands for
    [return href]. *)
Fixpoint try_links (imat : string) (links : list node) : M (option string) :=
  match links with
  | [] => ret None
  | link :: rest =>
      match get_str link "href" with
      | Some href =>
          if Py.truthy href then
            let href := absolute imat href in
            slot_response <- session_get href None ;;
            if (status_code slot_response =? 200)%Z
            then (modify (set_slot_booking_url (Some href)) ;; ret (Some href))
            else try_links imat rest
          else try_links imat rest
      | None => try_links imat rest
      end
  end.

(** The loop over [slot_keywords] *)
Fixpoint try_keywords (imat : string) (sp : soup) (keywords : list string)
  : M (option string) :=
  match keywords with
  | [] => ret None
  | keyword :: rest =>
      let by_text :=
        find_all sp "a" (fun n => attr_present "href" n && string_search keyword n) in
      let links :=
        match by_text with
        | [] => find_all sp "a" (attr_search "href" keyword)
        | _ => by_text
        end in
      r <- try_links imat links ;;
      match r with
      | Some href => ret (Some href)
      | None => try_keywords imat sp rest
      end
  end.

(** [navigate_to_slot_page] *)
Definition navigate_to_slot_page : M string :=
  try_except
    (imat <- gets imat_url ;;
     response <- session_get imat None ;;
     r <- try_keywords imat (html_soup (body response)) slot_keywords ;;
     match r with
     | Some href => ret href
     | None => ret imat
     end)
    (fun _ => gets imat_url).

(** *** Initialization, maintenance and fetch *)

(** [initialize_session] *)
Definition initialize_session : M bool :=
  try_except
    (emit EvInitialize ;;
     logged <- login_to_system ;;
     if negb logged then ret false
     else
       selected <- select_country ;;
       if negb selected then ret false
       else
         slot_url <- navigate_to_slot_page ;;
         modify (set_slot_booking_url (Some slot_url)) ;;
         modify (set_session_initialized true) ;;
         ret true)
    (fun _ => ret false).

(** [maintain_session] *)
Definition maintain_session : M bool :=
  try_except
    (current_url <- gets target_url ;;
     response <- session_get current_url None ;;
     if expired (url response) then initialize_session
     else ret true)
    (fun _ => ret false).

(** The retried request after a re-initialization ([# Retry the
    request]), up to [return response.text]. *)
Definition retry : M (option html) :=
  target <- gets target_url ;;
  response <- session_get target (Some 20%Z) ;;
  raise_for_status response ;;
  ret (Some (body response)).

(** The main request of [get_page_content] and what follows it (from
    the choice of [target_url] to [return response.text]). *)
Definition fetch_target : M (option html) :=
  target <- gets target_url ;;
  response <- session_get target (Some 20%Z) ;;
  raise_for_status response ;;
  if expired (url response) then
    reinitialized <- initialize_session ;;
    if reinitialized then retry else ret None
  else ret (Some (body response)).

(** What precedes the main request inside the [try]: initialization on
    the first run and the maintenance check on every fifth request.
    [false] stands for [return None]. *)
Definition fetch_preamble : M bool :=
  initialized <- gets session_initialized ;;
  ready <- (if initialized then ret true else initialize_session) ;;
  if negb ready then ret false
  else
    counter <- gets request_counter ;;
    if (counter mod 5 =? 0)%Z then maintain_session else ret true.

(** The recovery of the [except RequestException] handler *)
Definition recover : M (option html) :=
  try_except
    (reinitialized <- initialize_session ;;
     if reinitialized then
       sleep 3 ;;
       target <- gets target_url ;;
       response <- session_get target (Some 25%Z) ;;
       raise_for_status response ;;
       ret (Some (body response))
     else ret None)
    (fun _ => ret None).

(** [get_page_content]; [None] is Python's [None]. *)
Definition get_page_content : M (option html) :=
  modify (fun s => set_request_counter (request_counter s + 1)%Z s) ;;
  try_except
    (ready <- fetch_preamble ;;
     if ready then fetch_target else ret None)
    (fun e =>
       match e with
       | RequestException => recover
       | OtherException => ret None
       end).

End Session.

(* ===================================================================== *)
(** ** MonitorLoop *)
(* ===================================================================== *)

Module Loop.
Import Soup Extractor Session.
Local Open Scope session_scope.
Local Open Scope Z_scope.

(** The local variables of [run_monitor] that live across iterations *)
Record loop_state := {
  consecutive_failures : Z;
  last_successful_check : Z
}.

(** The sleep interval chosen from the hour of the day *)
Definition wait_time (current_hour : Z) : Z :=
  if (9 <=? current_hour) && (current_hour <=? 18) then 180 else 300.

(** The [if html_content: ... else: ...] of the loop body *)
Definition after_fetch (current_time : Z) (html_content : option html) (ls : loop_state)
  : M loop_state :=
  if html_truthy html_content then
    cs <- gets cities ;;
    let current_status := analyze_slot_status cs html_content in
    prev <- gets previous_state ;;
    let changes := check_for_changes prev current_status in
    match changes with
    | [] => ret tt
    | _ => send_telegram_message (SlotAlert changes)
    end ;;
    modify (set_previous_state current_status) ;;
    ret {| consecutive_failures := 0; last_successful_check := current_time |}
  else
    let failures := consecutive_failures ls + 1 in
    if 3 <=? failures then
      send_telegram_message (FailureAlert failures (last_successful_check ls)) ;;
      ret {| consecutive_failures := 0;
             last_successful_check := last_successful_check ls |}
    else
      ret {| consecutive_failures := failures;
             last_successful_check := last_successful_check ls |}.

(** The body of the [while True] loop inside its [try]; the two clock
    readings of the iteration are inputs. *)
Definition iteration_body (current_time current_hour : Z) (ls : loop_state) : M loop_state :=
  html_content <- get_page_content ;;
  ls' <- after_fetch current_time html_content ls ;;
  sleep (wait_time current_hour) ;;
  ret ls'.

(** One iteration with the [except Exception] of the loop: report,
    cool down for two minutes, keep the local variables.  The handler
    is what a parser error in [analyze_slot_status] would meet; with
    pages given as trees the body above lets no exception out. *)
Definition iteration (current_time current_hour : Z) (ls : loop_state) : M loop_state :=
  try_except (iteration_body current_time current_hour ls)
             (fun _ => send_telegram_message ErrorMsg ;; sleep 120 ;; ret ls).

(** The loop body with the parser call of [analyze_slot_status] made
    explicit: on a non-empty page that the parser refuses, the analysis
    raises before anything of the cycle is recorded. *)
Definition after_fetch_parsing (accepts : string -> bool) (current_time : Z)
  (html_content : option html) (ls : loop_state) : M loop_state :=
  if html_truthy html_content then
    cs <- gets cities ;;
    match analyze_markup accepts cs html_content with
    | Raised => raise OtherException
    | Return _ => after_fetch current_time html_content ls
    end
  else after_fetch current_time html_content ls.

(** One iteration, as [iteration], for a parser that may refuse the
    page: the exception of the analysis ends in the [except Exception]
    of the loop. *)
Definition iteration_parsing (accepts : string -> bool) (current_time current_hour : Z)
  (ls : loop_state) : M loop_state :=
  try_except
    (html_content <- get_page_content ;;
     ls' <- after_fetch_parsing accepts current_time html_content ls ;;
     sleep (wait_time current_hour) ;;
     ret ls')
    (fun _ => send_telegram_message ErrorMsg ;; sleep 120 ;; ret ls).

Fixpoint cycles_parsing (accepts : string -> bool) (clock : list (Z * Z))
  (ls : loop_state) : M loop_state :=
  match clock with
  | [] => ret ls
  | (current_time, current_hour) :: later =>
      ls' <- iteration_parsing accepts current_time current_hour ls ;;
      cycles_parsing accepts later ls'
  end.

(** [run_monitor] cut after finitely many iterations: the startup
    notification, then one iteration per pair of clock readings.  The
    [KeyboardInterrupt] that ends the real loop is not modelled. *)
Fixpoint cycles (clock : list (Z * Z)) (ls : loop_state) : M loop_state :=
  match clock with
  | [] => ret ls
  | (current_time, current_hour) :: later =>
      ls' <- iteration current_time current_hour ls ;;
      cycles later ls'
  end.

Definition run_monitor (start_time : Z) (clock : list (Z * Z)) : M loop_state :=
  send_telegram_message StartupMsg ;;
  cycles clock {| consecutive_failures := 0; last_successful_check := start_time |}.

End Loop.

(* ===================================================================== *)
(** ** Vocabulary of the specification *)
(* ===================================================================== *)

Module Spec.
Import Soup Extractor Session Loop.

(** [check_for_changes] reports a transition for category [c]. *)
Definition yields_transition (previous_state current_status : gmap string string)
  (c : string) : Prop :=
  exists chg, chg ∈ check_for_changes previous_state current_status /\ city chg = c.

(** No element selected by the four city patterns carries a status:
    the structural search of [detect_city_status] finds nothing. *)
Definition no_structural_match (sp : soup) (c : string) : Prop :=
  scan_patterns sp (city_patterns c) = None.

(** The category name appears in the lower-cased text of the page, as
    [get_text] collects it. *)
Definition named_in_text (sp : soup) (c : string) : Prop :=
  Py.contains c (Py.lower (get_text sp)) = true.



(** The page and the category name are within ASCII, where the case
    mappings of the model are those of Python. *)
Definition ascii_page (sp : soup) (c : string) : Prop :=
  Py.is_ascii (get_text sp) = true /\ Py.is_ascii c = true.

(** The snapshot that maps every listed category to ['unknown'] *)
Definition all_unknown (cs : list string) : gmap string string :=
  foldl (fun m c => <[c := "unknown"]> m) ∅ cs.

(** *** Runs of the session functions *)

(** [R] relates the state before a computation to the state after it,
    whatever the computation returns or raises. *)
Definition preserves {A} (R : state -> state -> Prop) (m : M A) : Prop :=
  forall s, R s (snd (m s)).

(** The computation never lets an exception out. *)
Definition returns {A} (m : M A) : Prop :=
  forall s, exists a, fst (m s) = Ok a.

(** The elementary state changes of the three sub-steps of
    initialization: a request is recorded, a reply is consumed, a flag
    or the slot URL is written. *)
Inductive sub_step : state -> state -> Prop :=
| step_request s r : sub_step s (set_trace (trace s ++ [EvRequest r]) s)
| step_network s n : sub_step s (set_network n s)
| step_logged_in s : sub_step s (set_is_logged_in true s)
| step_country s : sub_step s (set_country_selected true s)
| step_slot s u : sub_step s (set_slot_booking_url u s).

(** The elementary state changes of the whole session manager. *)
Inductive session_step : state -> state -> Prop :=
| step_sub s s' : sub_step s s' -> session_step s s'
| step_initialize s : session_step s (set_trace (trace s ++ [EvInitialize]) s)
| step_initialized s : session_step s (set_session_initialized true s)
| step_sleep s n : session_step s (set_trace (trace s ++ [EvSleep n]) s)
| step_counter s n : session_step s (set_request_counter n s).

Definition is_request (e : event) : bool :=
  match e with EvRequest _ => true | _ => false end.

Definition is_telegram (e : event) : bool :=
  match e with EvTelegram _ => true | _ => false end.

Definition is_failure_alert (e : event) : bool :=
  match e with EvTelegram (FailureAlert _ _) => true | _ => false end.

(** The trace grew by events that all satisfy [P]. *)
Definition extends_by (P : event -> bool) (s s' : state) : Prop :=
  exists evs, trace s' = trace s ++ evs /\ forallb P evs = true.

(** The state on entry to [initialize_session], once the call is
    recorded. *)
Definition entered (s : state) : state :=
  set_trace (trace s ++ [EvInitialize]) s.

(** Login credentials are configured. *)
Definition configured (s : state) : Prop :=
  opt_truthy (username s) = true /\ opt_truthy (password s) = true.

(** [raise_for_status] lets the response through. *)
Definition status_ok (r : response) : Prop :=
  ~ (400 <= status_code r < 600)%Z.

(** The state at the main request of [get_page_content]: the counter is
    incremented and the preamble has passed. *)
Definition at_main_request (s s0 : state) : Prop :=
  fetch_preamble (set_request_counter (request_counter s + 1)%Z s) = (Ok true, s0).

(** The URL a fetch is aimed at, spelled out from the two fields: the
    slot page when one is recorded and its URL is not empty, the entry
    URL otherwise. *)
Definition slot_page_or_entry (s : state) : string :=
  match slot_booking_url s with
  | Some u => if String.eqb u "" then imat_url s else u
  | None => imat_url s
  end.

(** The main request and the state right after the site answered it. *)
Definition main_request (s0 : state) : request :=
  {| req_method := GET; req_url := slot_page_or_entry s0; req_data := [];
     req_timeout := Some 20%Z |}.

(** The state once a request is recorded and its reply consumed *)
Definition answered (r : request) (rest : list reply) (s : state) : state :=
  set_network rest (set_trace (trace s ++ [EvRequest r]) s).

Definition after_main_request (s0 : state) (rest : list reply) : state :=
  answered (main_request s0) rest s0.

(** The request that fetches the entry page in each sub-step *)
Definition entry_request (s : state) : request :=
  {| req_method := GET; req_url := imat_url s; req_data := []; req_timeout := None |}.

(** The credential submission built from the login form *)
Definition login_request (s : state) (login_form : node) : request :=
  {| req_method := POST;
     req_url := absolute (imat_url s) (default "" (get_str login_form "action"));
     req_data := add_hidden (hidden_inputs login_form)
                            [("username", username s); ("password", password s)];
     req_timeout := None |}.

(** The two [except] clauses of [get_page_content] *)
Definition fetch_handler (e : exn) : M (option html) :=
  match e with
  | RequestException => recover
  | OtherException => ret None
  end.

(** *** Runs of the monitor loop *)

(** The number of failure alerts sent so far *)
Definition failure_alerts (tr : list event) : Z :=
  Z.of_nat (length (List.filter is_failure_alert tr)).

(** The fetch of the next cycle fails: [get_page_content] returns
    [None] or an empty page. *)
Definition fetch_fails (s : state) : Prop :=
  exists h s', get_page_content s = (Ok h, s') /\ html_truthy h = false.

Definition fetch_succeeds (s : state) : Prop :=
  exists h s', get_page_content s = (Ok h, s') /\ html_truthy h = true.

(** [n] consecutive cycles whose fetch fails, from one configuration of
    the loop (local variables and monitor state) to another. *)
Inductive failing_run : nat -> loop_state * state -> loop_state * state -> Prop :=
| failing_run_nil c : failing_run 0 c c
| failing_run_cons n ls s current_time current_hour ls1 s1 c' :
    fetch_fails s ->
    iteration current_time current_hour ls s = (Ok ls1, s1) ->
    failing_run n (ls1, s1) c' ->
    failing_run (S n) (ls, s) c'.

(** *** Form data *)

(** The value the hidden inputs give to the field [k]: that of the last
    input whose name is [k], when there is one (an input without a name
    or with an empty name gives nothing). *)
Fixpoint last_hidden_value (k : string) (hiddens : list node) : option string :=
  match hiddens with
  | [] => None
  | hidden :: rest =>
      match last_hidden_value k rest with
      | Some v => Some v
      | None =>
          match get_str hidden "name" with
          | Some name =>
              if Py.truthy name && String.eqb name k
              then Some (default "" (get_str hidden "value"))
              else None
          | None => None
          end
      end
  end.

(** *** Status strings *)

(** What every status string of a snapshot looks like: ['unknown'], or a
    non-empty lower-case string with a colour word in it. *)
Definition status_like (v : string) : Prop :=
  v = "unknown" \/
  (any_color v = true /\ Py.lower v = v /\ Py.truthy v = true).

(** No tag of the page has an attribute that the attribute rule would
    answer to. *)
Definition no_status_attribute (sp : soup) : Prop :=
  forall element, element ∈ descendants sp -> scan_attrs (tag_attrs element) = None.

(** The colour a class token stands for *)
Definition token_color (class_name : string) : string :=
  if Py.contains "red" (Py.lower class_name) then "red"
  else if Py.contains "green" (Py.lower class_name) then "green"
  else "yellow".

(** *** What a fetch may change *)

(** The elementary state changes of everything [get_page_content] runs
    after it has incremented the counter. *)
Inductive inner_step : state -> state -> Prop :=
| inner_sub s s' : sub_step s s' -> inner_step s s'
| inner_initialize s : inner_step s (set_trace (trace s ++ [EvInitialize]) s)
| inner_initialized s : inner_step s (set_session_initialized true s)
| inner_sleep s n : inner_step s (set_trace (trace s ++ [EvSleep n]) s).

(** What such steps keep: the configuration, the previous snapshot and
    the counter stay, the three flags are never cleared, and the trace
    only grows, by events that are not Telegram messages. *)
Record inner_frame (s s' : state) : Prop := {
  in_imat_url : imat_url s' = imat_url s;
  in_username : username s' = username s;
  in_password : password s' = password s;
  in_cities : cities s' = cities s;
  in_previous : previous_state s' = previous_state s;
  in_counter : request_counter s' = request_counter s;
  in_logged_in : is_logged_in s = true -> is_logged_in s' = true;
  in_country : country_selected s = true -> country_selected s' = true;
  in_initialized : session_initialized s = true -> session_initialized s' = true;
  in_trace : extends_by (fun e => negb (is_telegram e)) s s'
}.

(** The state right after the counter is incremented *)
Definition counted (s : state) : state :=
  set_request_counter (request_counter s + 1)%Z s.

(** The maintenance request of every fifth fetch *)
Definition maintenance_request (s : state) : request :=
  {| req_method := GET; req_url := slot_page_or_entry s; req_data := [];
     req_timeout := None |}.

(** The single retry of the recovery *)
Definition recovery_request (s : state) : request :=
  {| req_method := GET; req_url := slot_page_or_entry s; req_data := [];
     req_timeout := Some 25%Z |}.

(** A plain GET without timeout *)
Definition get_request (u : string) : request :=
  {| req_method := GET; req_url := u; req_data := []; req_timeout := None |}.

(** The Telegram messages of a trace, in order *)
Definition telegrams (tr : list event) : list message :=
  omap (fun e => match e with EvTelegram m => Some m | _ => None end) tr.

(** What the single retry of the recovery brings back, given the state
    it is made in: the page of the next reply when that reply is a
    response that passes [raise_for_status], nothing otherwise. *)
Definition recovered (s : state) : option html :=
  match network s with
  | Reply r :: _ =>
      if (400 <=? status_code r)%Z && (status_code r <? 600)%Z then None
      else Some (body r)
  | _ => None
  end.

(** The main request does not come back with a usable response: the
    transport fails, or the status is an HTTP error. *)
Definition main_request_fails (s0 : state) (rest : list reply) : Prop :=
  network s0 = Fails RequestException :: rest
  \/ exists r, network s0 = Reply r :: rest /\ (400 <= status_code r < 600)%Z.

(** The submission of the country dropdown *)
Definition country_request (s : state) (form country_select india_option : node)
  : request :=
  {| req_method := POST;
     req_url := absolute (imat_url s) (default "" (get_str form "action"));
     req_data := add_hidden (hidden_inputs form)
                            [(default "" (get_str country_select "name"),
                              get_str india_option "value")];
     req_timeout := None |}.

(** *** Messages of the loop *)

(** The message a successful cycle sends for the transitions it found *)
Definition slot_alert (changes : list change) : list message :=
  match changes with
  | [] => []
  | _ => [SlotAlert changes]
  end.

(** The messages a cycle of the loop can send: an alert for at least one
    transition, or a failure alert that counts three failures. *)
Definition cycle_message (m : message) : bool :=
  match m with
  | SlotAlert (_ :: _) => true
  | FailureAlert 3 _ => true
  | _ => false
  end.

(** The parser refuses the page a fetch brought: the page is not empty
    and its markup is not among what [accepts] admits. *)
Definition refused (accepts : string -> bool) (html_content : option html) : bool :=
  match html_content with
  | Some h => Py.truthy (html_text h) && negb (accepts (html_text h))
  | None => false
  end.

(** The message of the [except Exception] of the loop *)
Definition is_error_message (m : message) : bool :=
  match m with ErrorMsg => true | _ => false end.

(** The failure counter is where the loop keeps it. *)
Definition counter_in_range (ls : loop_state) : Prop :=
  (0 <= consecutive_failures ls <= 2)%Z.

End Spec.

(* ===================================================================== *)
(** ** Pages, sites and monitor states used as examples *)
(* ===================================================================== *)

Module Examples.
Import Soup Extractor Session Loop.

(** The empty page of the example: no text, hence no tree. *)
Definition empty_page : html := {| html_text := ""; html_soup := [] |}.

(** A page that is not empty but from which the parser recovers
    nothing: a stray end tag. *)
Definition stray_end_tag : html := {| html_text := "</div>"; html_soup := [] |}.


(** The page of the example: plain text in a paragraph, no markers. *)
Definition delhi_available : soup :=
  [ Tag "p" [] [NavigableString "Delhi centre: slots are currently Available"] ].

(** A page that names Delhi inside a script only *)
Definition script_only : soup :=
  [ Tag "script" [] [NavigableString "var centre = 'delhi: full';"];
    Tag "p" [] [NavigableString "IMAT registration"] ].

(** An element marked for Chennai whose status attribute says more
    than a colour word. *)
Definition red_zone_page : html :=
  {| html_text := "<div class='chennai' data-status='Red-Zone'>Chennai</div>";
     html_soup :=
       [ Tag "div" [("class", AList ["chennai"]); ("data-status", AStr "Red-Zone")]
             [NavigableString "Chennai"] ] |}.

(** The entry URL of the program *)
Definition entry : string := "https://www.nta.ac.in/IMAT".

(** The monitor as [__init__] leaves it, with the given credentials and
    the replies the site is going to give. *)
Definition fresh_monitor (user pass : option string) (site : list reply) : state :=
  {| imat_url := entry; username := user; password := pass;
     cities := ["chennai"; "delhi"]; slot_booking_url := None;
     is_logged_in := false; country_selected := false;
     session_initialized := false; previous_state := ∅;
     request_counter := 0; network := site; trace := [] |}.

(** The monitor after a first successful initialization that found no
    slot page. *)
Definition running_monitor (site : list reply) : state :=
  {| imat_url := entry; username := None; password := None;
     cities := ["chennai"; "delhi"]; slot_booking_url := Some entry;
     is_logged_in := false; country_selected := false;
     session_initialized := true; previous_state := ∅;
     request_counter := 0; network := site; trace := [] |}.

(** A page that names Delhi and says its slots are available *)
Definition delhi_page : html :=
  {| html_text := "<p>Delhi centre: slots are currently Available</p>";
     html_soup := delhi_available |}.

(** A page without forms or links *)
Definition plain_page : html :=
  {| html_text := "<p>IMAT registration</p>";
     html_soup := [ Tag "p" [] [NavigableString "IMAT registration"] ] |}.

(** A page holding the login form *)
Definition login_page : html :=
  {| html_text :=
       "<form id='loginForm' action='/login'><input type='hidden' name='csrf' value='t0k'></form>";
     html_soup :=
       [ Tag "form" [("id", AStr "loginForm"); ("action", AStr "/login")]
             [ Tag "input" [("type", AStr "hidden"); ("name", AStr "csrf");
                            ("value", AStr "t0k")] [] ] ] |}.

Definition login_form : node :=
  Tag "form" [("id", AStr "loginForm"); ("action", AStr "/login")]
      [ Tag "input" [("type", AStr "hidden"); ("name", AStr "csrf");
                     ("value", AStr "t0k")] [] ].

(** A reply with the given status, final URL and page *)
Definition replies (status : Z) (final_url : string) (page : html) : reply :=
  Reply {| status_code := status; url := final_url; body := page |}.

Definition login_redirect : response :=
  {| status_code := 200; url := "https://www.nta.ac.in/login"; body := login_page |}.

(** Credentials are set, the entry page has no login form, and the site
    then drops the connection for the two later sub-steps. *)
Definition site_drops_after_login : state :=
  fresh_monitor (Some "user") (Some "secret")
    [ replies 200 entry plain_page;
      Fails RequestException;
      Fails RequestException ].

(** Credentials are set and the site is unreachable from the start. *)
Definition site_down : state :=
  fresh_monitor (Some "user") (Some "secret") [ Fails RequestException ].

(** The login form is there, the submission is answered with 503, the
    two later entry-page requests succeed. *)
Definition login_rejected_503 : state :=
  fresh_monitor (Some "user") (Some "secret")
    [ replies 200 entry login_page;
      replies 503 "https://www.nta.ac.in/login" plain_page;
      replies 200 entry plain_page;
      replies 200 entry plain_page ].

(** A running monitor whose next fetch is redirected to the login page;
    re-initialization goes through, and the retried fetch is redirected
    to the login page again. *)
Definition redirected_twice : state :=
  running_monitor
    [ Reply login_redirect;
      replies 200 entry plain_page;
      replies 200 entry plain_page;
      Reply login_redirect ].

(** A monitor without credentials facing a site that never answers,
    and the local variables of the loop at its start. *)
Definition unreachable : state := fresh_monitor None None [].

Definition loop_start : loop_state :=
  {| consecutive_failures := 0; last_successful_check := 0 |}.

(** A running monitor that gets the page it asks for *)
Definition healthy : state :=
  running_monitor [ replies 200 entry delhi_page ].

(** A running monitor whose fetch hits a dropped connection; the site is
    back for the recovery. *)
Definition dropped_once : state :=
  running_monitor
    [ Fails RequestException;
      replies 200 entry plain_page;
      replies 200 entry plain_page;
      replies 200 entry plain_page ].

(** A running monitor at its fifth request *)
Definition fifth_request (site : list reply) : state :=
  {| imat_url := entry; username := None; password := None;
     cities := ["chennai"; "delhi"]; slot_booking_url := Some entry;
     is_logged_in := false; country_selected := false;
     session_initialized := true; previous_state := ∅;
     request_counter := 4; network := site; trace := [] |}.

(** The entry page with a country dropdown inside a form, and its parts *)
Definition india_option : node :=
  Tag "option" [("value", AStr "IN")] [NavigableString "India"].

Definition country_select : node :=
  Tag "select" [("name", AStr "countryCode")]
      [ Tag "option" [("value", AStr "IT")] [NavigableString "Italy"]; india_option ].

Definition country_form : node :=
  Tag "form" [("id", AStr "countryForm"); ("action", AStr "/select")]
      [ Tag "input" [("type", AStr "hidden"); ("name", AStr "step"); ("value", AStr "2")] [];
        country_select ].

Definition country_page : html :=
  {| html_text :=
       "<form id='countryForm' action='/select'><input type='hidden' name='step' value='2'><select name='countryCode'><option value='IT'>Italy</option><option value='IN'>India</option></select></form>";
     html_soup := [ country_form ] |}.

(** The entry page with a link to the slot page *)
Definition slots_page : html :=
  {| html_text := "<a href='/exam/slots'>Check slot availability</a>";
     html_soup :=
       [ Tag "a" [("href", AStr "/exam/slots")]
             [NavigableString "Check slot availability"] ] |}.

(** The login form is there and the submission is answered with 200,
    but neither the final URL nor the page shows a sign of success. *)
Definition login_unconfirmed : state :=
  fresh_monitor (Some "user") (Some "secret")
    [ replies 200 entry login_page;
      replies 200 "https://www.nta.ac.in/login" login_page ].

(** A page whose outer wrapper carries a colour class and whose text
    names both cities. *)
Definition themed_wrapper : node :=
  Tag "div" [("class", AList ["page"; "theme-green"])]
      [ Tag "p" [] [NavigableString "Chennai: full"];
        Tag "p" [] [NavigableString "Delhi: full"] ].

(** The slot page the entry page links to *)
Definition slots_url : string := "https://www.nta.ac.in/exam/slots".

(** A running monitor whose session has expired: the main request ends
    on the login page; re-initialization finds the link to the slot page
    on the entry page, and the slot page answers. *)
Definition rediscovers : state :=
  running_monitor
    [ Reply login_redirect;
      replies 200 entry plain_page;
      replies 200 entry slots_page;
      replies 200 slots_url delhi_page;
      replies 200 slots_url delhi_page ].

(** A running monitor that knows the slot page *)
Definition on_slot_page (site : list reply) : state :=
  {| imat_url := entry; username := None; password := None;
     cities := ["chennai"; "delhi"]; slot_booking_url := Some slots_url;
     is_logged_in := false; country_selected := false;
     session_initialized := true; previous_state := ∅;
     request_counter := 0; network := site; trace := [] |}.

(** A parser that accepts everything, and one that refuses markup with
    a marked section in it (as [html.parser] may refuse [<![foo]>]) *)
Definition lenient_parser : string -> bool := fun _ => true.

Definition strict_parser : string -> bool :=
  fun text => negb (Py.contains "<![" text).

Definition marked_section : html :=
  {| html_text := "<p>Delhi</p><![foo]>"; html_soup := [] |}.

(** A running monitor whose fetch brings a page the strict parser
    refuses *)
Definition garbled : state :=
  running_monitor [ replies 200 entry marked_section ].

End Examples.

(* ===================================================================== *)
(** ** Change detection *)
(* ===================================================================== *)

Module ChangeDetectorFacts.
Import Soup Extractor Session Loop Spec Examples.

Lemma status_name_inj a b : status_name a = status_name b -> a = b.
Proof. destruct a, b; simpl; intros H; congruence. Qed.

(** Membership in the result, entry by entry. *)
Lemma elem_of_check_for_changes (previous_state current_status : gmap string string) c p v :
  {| city := c; previous := p; current := v |}
    ∈ check_for_changes previous_state current_status
  <-> current_status !! c = Some v /\
      default "unknown" (previous_state !! c) = "red" /\
      p = "red" /\ (v = "yellow" \/ v = "green").
Proof.
  unfold check_for_changes. rewrite list_elem_of_omap. split.
  - intros [[c' v'] [Hin Hf]].
    apply elem_of_map_to_list in Hin.
    destruct (String.eqb (default "unknown" (previous_state !! c')) "red") eqn:Hred;
      simpl in Hf; [| discriminate].
    destruct (String.eqb v' "yellow" || String.eqb v' "green") eqn:Hopen;
      [| discriminate].
    apply String.eqb_eq in Hred.
    injection Hf as -> Hp ->. rewrite Hred in Hp. subst p.
    repeat split; try assumption.
    apply orb_true_iff in Hopen as [H | H]; apply String.eqb_eq in H; auto.
  - intros (Hcur & Hprev & -> & Hv).
    exists (c, v). split; [by apply elem_of_map_to_list |].
    rewrite Hprev. simpl.
    destruct Hv as [-> | ->]; reflexivity.
Qed.

Lemma yields_transition_iff (previous_state current_status : gmap string string) c v :
  current_status !! c = Some v ->
  yields_transition previous_state current_status c
  <-> default "unknown" (previous_state !! c) = "red" /\ (v = "yellow" \/ v = "green").
Proof.
  intros Hcur. unfold yields_transition. split.
  - intros [[c' p' v'] [Hin Hc]]. simpl in Hc. subst c'.
    apply elem_of_check_for_changes in Hin as (Hcur' & Hprev & _ & Hv).
    rewrite Hcur in Hcur'. injection Hcur' as <-. auto.
  - intros [Hprev Hv].
    exists {| city := c; previous := "red"; current := v |}. split; [| reflexivity].
    apply elem_of_check_for_changes. auto.
Qed.

Lemma check_for_changes_self (S : gmap string string) : check_for_changes S S = [].
Proof.
  destruct (check_for_changes S S) as [| [c p v] l] eqn:E; [reflexivity |].
  assert (Hin : {| city := c; previous := p; current := v |} ∈ check_for_changes S S)
    by (rewrite E; left).
  apply elem_of_check_for_changes in Hin as (Hcur & Hprev & _ & Hv).
  rewrite Hcur in Hprev. simpl in Hprev. subst v.
  destruct Hv; discriminate.
Qed.

(** C1. [check_for_changes] yields a transition for a category [c] of
    the current snapshot exactly when the previous value of [c] is red
    and its current value is yellow or green.  Over the four status
    values this singles out Red->Yellow and Red->Green among the sixteen
    pairs; a category without a previous entry is compared against
    ['unknown'] and never qualifies; comparing a snapshot with itself
    yields nothing. *)
Theorem check_for_changes_red_to_open :
  (forall (previous_state current_status : gmap string string) c v,
      current_status !! c = Some v ->
      (yields_transition previous_state current_status c
       <-> previous_state !! c = Some "red" /\ (v = "yellow" \/ v = "green")))
  /\ (forall (previous_state current_status : gmap string string) c (a b : StatusValue),
         previous_state !! c = Some (status_name a) ->
         current_status !! c = Some (status_name b) ->
         (yields_transition previous_state current_status c
          <-> a = Red /\ (b = Yellow \/ b = Green)))
  /\ (forall (previous_state current_status : gmap string string) c,
         previous_state !! c = None ->
         ~ yields_transition previous_state current_status c)
  /\ (forall S : gmap string string, check_for_changes S S = []).
Proof.
  split; [| split; [| split]].
  - intros previous_state current_status c v Hcur.
    rewrite (yields_transition_iff _ _ _ _ Hcur). split.
    + intros [Hp Hv]. split; [| exact Hv].
      destruct (previous_state !! c) as [p |]; simpl in Hp; [by subst | discriminate].
    + intros [Hp Hv]. rewrite Hp. auto.
  - intros previous_state current_status c a b Hprev Hcur.
    rewrite (yields_transition_iff _ _ _ _ Hcur), Hprev. simpl. split.
    + intros [Hp Hv]. split; [by apply (status_name_inj a Red) |].
      destruct Hv as [Hv | Hv];
        [left; by apply (status_name_inj b Yellow)
        | right; by apply (status_name_inj b Green)].
    + intros [-> Hb]. destruct Hb as [-> | ->]; auto.
  - intros previous_state current_status c Hnone [[c' p v] [Hin Hc]].
    simpl in Hc. subst c'.
    apply elem_of_check_for_changes in Hin as (_ & Hprev & _).
    rewrite Hnone in Hprev. discriminate.
  - apply check_for_changes_self.
Qed.

(** A run of C1: Chennai goes from red to green, Delhi stays red. *)
Lemma check_for_changes_red_to_open_witness :
  yields_transition {[ "chennai" := "red"; "delhi" := "red" ]}
                    {[ "chennai" := "green"; "delhi" := "red" ]} "chennai"
  /\ ~ yields_transition {[ "chennai" := "red"; "delhi" := "red" ]}
                         {[ "chennai" := "green"; "delhi" := "red" ]} "delhi".
Proof.
  split.
  - apply (proj1 check_for_changes_red_to_open _ _ "chennai" "green").
    + reflexivity.
    + split; [reflexivity | by right].
  - intros H.
    apply (proj1 (proj2 check_for_changes_red_to_open) _ _ "delhi" Red Red) in H.
    + destruct H as [_ [H | H]]; discriminate.
    + reflexivity.
    + reflexivity.
Defined.

End ChangeDetectorFacts.

(* ===================================================================== *)
(** ** Status extraction *)
(* ===================================================================== *)

Module ExtractorFacts.
Import Soup Extractor Session Loop Spec Examples.

(** The snapshot built by the loop over the cities. *)
Lemma lookup_foldl_insert (f : string -> string) (l : list string)
  (m0 : gmap string string) (c : string) :
  foldl (fun m k => <[k := f k]> m) m0 l !! c
  = if decide (c ∈ l) then Some (f c) else m0 !! c.
Proof.
  revert m0. induction l as [| k l IH]; intros m0; simpl.
  - destruct (decide (c ∈ [])) as [H | H]; [by apply elem_of_nil in H | reflexivity].
  - rewrite IH.
    destruct (decide (c ∈ l)) as [Hl | Hl].
    + destruct (decide (c ∈ k :: l)) as [_ | H]; [reflexivity |].
      exfalso. apply H. by right.
    + destruct (decide (c = k)) as [-> | Hne].
      * rewrite lookup_insert_eq.
        destruct (decide (k ∈ k :: l)) as [_ | H]; [reflexivity |].
        exfalso. apply H. left.
      * rewrite lookup_insert_ne by congruence.
        destruct (decide (c ∈ k :: l)) as [H | _]; [| reflexivity].
        apply elem_of_cons in H as [H | H]; contradiction.
Qed.

Lemma analyze_slot_status_lookup cities h c :
  Py.truthy (html_text h) = true ->
  analyze_slot_status cities (Some h) !! c
  = if decide (c ∈ cities) then Some (detect_city_status (html_soup h) c) else None.
Proof.
  intros Ht. unfold analyze_slot_status. rewrite Ht.
  rewrite (lookup_foldl_insert (detect_city_status (html_soup h))).
  by rewrite lookup_empty.
Qed.

Lemma all_unknown_lookup cities c :
  all_unknown cities !! c = if decide (c ∈ cities) then Some "unknown" else None.
Proof.
  unfold all_unknown. rewrite (lookup_foldl_insert (fun _ => "unknown")).
  by rewrite lookup_empty.
Qed.

(** Without any tag and any text nothing is detected. *)
Lemma detect_city_status_empty_tree c : detect_city_status [] c = "unknown".
Proof.
  unfold detect_city_status. simpl.
  destruct (Py.startswith c ""); reflexivity.
Qed.

Lemma detect_city_status_unknown sp c :
  no_structural_match sp c -> ~ named_in_text sp c ->
  detect_city_status sp c = "unknown".
Proof.
  unfold no_structural_match, named_in_text, detect_city_status.
  intros -> Hn. destruct (Py.contains c (Py.lower (get_text sp))); [| reflexivity].
  by exfalso.
Qed.

(** C2, the claim at its own example.  On empty markup the early
    [return {}] gives the empty snapshot, not one entry per city. *)
Lemma analyze_slot_status_empty_markup :
  analyze_slot_status ["chennai"; "delhi"] (Some empty_page) = ∅
  /\ analyze_slot_status ["chennai"; "delhi"] (Some empty_page)
     <> {[ "chennai" := "unknown"; "delhi" := "unknown" ]}.
Proof.
  split; [reflexivity |].
  intros H. apply (f_equal (fun m : gmap string string => m !! "chennai")) in H.
  vm_compute in H. discriminate.
Qed.

(** On non-empty markup that the parser refuses, the analysis raises. *)
Lemma analyze_markup_refused accepts cities h :
  Py.truthy (html_text h) = true -> accepts (html_text h) = false ->
  analyze_markup accepts cities (Some h) = Raised.
Proof. intros Ht Ha. unfold analyze_markup. by rewrite Ht, Ha. Qed.

Lemma analyze_markup_accepted accepts cities h :
  Py.truthy (html_text h) = true -> accepts (html_text h) = true ->
  analyze_markup accepts cities (Some h)
  = Return (analyze_slot_status cities (Some h)).
Proof. intros Ht Ha. unfold analyze_markup. by rewrite Ht, Ha. Qed.

(** C2, amended.  For non-empty markup that the parser accepts, the
    analysis returns a snapshot with exactly one entry per configured
    city, holding what [detect_city_status] finds in the tree; within
    ASCII, a city with no structural match whose name does not occur in
    the text of the page maps to ['unknown']; a page whose tree is empty
    maps every city to ['unknown'].  For empty markup ([None] or [''])
    the analysis returns the empty snapshot, whatever the parser would
    make of it. *)
Theorem analyze_slot_status_populated (accepts : string -> bool) :
  (forall cities h,
      Py.truthy (html_text h) = true -> accepts (html_text h) = true ->
      exists snapshot,
        analyze_markup accepts cities (Some h) = Return snapshot
        /\ dom snapshot = list_to_set cities
        /\ forall c, c ∈ cities ->
             snapshot !! c = Some (detect_city_status (html_soup h) c))
  /\ (forall sp c, ascii_page sp c ->
        no_structural_match sp c -> ~ named_in_text sp c ->
        detect_city_status sp c = "unknown")
  /\ (forall cities h,
        Py.truthy (html_text h) = true -> accepts (html_text h) = true ->
        html_soup h = [] ->
        analyze_markup accepts cities (Some h) = Return (all_unknown cities))
  /\ (forall cities html_content, html_truthy html_content = false ->
        analyze_markup accepts cities html_content = Return ∅).
Proof.
  split; [| split; [| split]].
  - intros cities h Ht Ha. rewrite (analyze_markup_accepted _ _ _ Ht Ha).
    eexists. split; [reflexivity |]. split.
    + apply set_eq. intros c.
      rewrite elem_of_dom, (analyze_slot_status_lookup _ _ _ Ht), elem_of_list_to_set.
      destruct (decide (c ∈ cities)) as [H | H].
      * split; [done | by eexists].
      * split; [by intros [? ?] | done].
    + intros c Hc. rewrite (analyze_slot_status_lookup _ _ _ Ht).
      destruct (decide (c ∈ cities)); [reflexivity | contradiction].
  - intros sp c _. apply detect_city_status_unknown.
  - intros cities h Ht Ha Hsp. rewrite (analyze_markup_accepted _ _ _ Ht Ha).
    f_equal. apply map_eq. intros c.
    rewrite (analyze_slot_status_lookup _ _ _ Ht), all_unknown_lookup, Hsp.
    by rewrite detect_city_status_empty_tree.
  - intros cities [h |] Hf; simpl in *; [| reflexivity].
    by rewrite Hf.
Qed.

(** A stray end tag is accepted and gives an empty tree; a page that
    names Delhi in a script only does not name it in its text; and the
    strict parser makes the analysis of a marked section raise. *)
Lemma analyze_slot_status_populated_witness :
  (analyze_markup strict_parser ["chennai"; "delhi"] (Some stray_end_tag)
   = Return (all_unknown ["chennai"; "delhi"])
   /\ all_unknown ["chennai"; "delhi"] = {[ "chennai" := "unknown"; "delhi" := "unknown" ]})
  /\ detect_city_status script_only "delhi" = "unknown"
  /\ analyze_markup strict_parser ["chennai"; "delhi"] (Some marked_section) = Raised.
Proof.
  split; [split | split].
  - apply (proj1 (proj2 (proj2 (analyze_slot_status_populated strict_parser))));
      reflexivity.
  - reflexivity.
  - apply (proj1 (proj2 (analyze_slot_status_populated strict_parser))).
    + split; reflexivity.
    + reflexivity.
    + vm_compute. discriminate.
  - reflexivity.
Defined.

(** *** The fallback keyword scan *)


(** *** The values the cascade can produce *)

Lemma scan_classes_color l c :
  scan_classes l = Some c -> c = "red" \/ c = "green" \/ c = "yellow".
Proof.
  induction l as [| k l IH]; simpl; [discriminate |].
  destruct (any_color (Py.lower k)); [| exact IH].
  destruct (Py.contains "red" (Py.lower k)); [intros [= <-]; auto |].
  destruct (Py.contains "green" (Py.lower k)); [intros [= <-]; auto |].
  destruct (Py.contains "yellow" (Py.lower k)); [intros [= <-]; auto |].
  exact IH.
Qed.

Lemma scan_style_color s c :
  scan_style s = Some c -> c = "red" \/ c = "green" \/ c = "yellow".
Proof.
  unfold scan_style.
  repeat (match goal with |- context [if ?b then _ else _] => destruct b end;
          [intros [= <-]; auto |]).
  discriminate.
Qed.

(** The class rule and the style rule only ever answer with one of the
    three colour words. *)
Lemma class_and_style_rules_give_colors :
  (forall l c, scan_classes l = Some c -> is_status_value c)
  /\ (forall s c, scan_style s = Some c -> is_status_value c).
Proof.
  assert (Hcol : forall c, c = "red" \/ c = "green" \/ c = "yellow" -> is_status_value c).
  { intros c [-> | [-> | ->]]; [by exists Red | by exists Green | by exists Yellow]. }
  split.
  - intros l c H. apply Hcol. by apply (scan_classes_color l).
  - intros s c H. apply Hcol. by apply (scan_style_color s).
Qed.

(** C5 at a failing input.  The attribute rule returns the whole
    lower-cased attribute value instead of the colour word it found in
    it: for an element marked for Chennai with [data-status="Red-Zone"]
    the snapshot holds ['red-zone'], which is none of the four status
    values. *)
Theorem attribute_rule_returns_raw_value :
  extract_status_from_element
    (Tag "div" [("class", AList ["chennai"]); ("data-status", AStr "Red-Zone")]
         [NavigableString "Chennai"])
  = Return (Some "red-zone")
  /\ analyze_slot_status ["chennai"; "delhi"] (Some red_zone_page) !! "chennai"
     = Some "red-zone"
  /\ ~ is_status_value "red-zone".
Proof.
  split; [reflexivity |]. split; [reflexivity |].
  intros [v Hv]. destruct v; discriminate.
Qed.

End ExtractorFacts.

(* ===================================================================== *)
(** ** The session manager *)
(* ===================================================================== *)

Module SessionFacts.
Import Soup Extractor Session Loop Spec Examples.
Local Open Scope session_scope.

(** *** Preservation through the monad *)

Section Preservation.
Context (R : relation state) `{!PreOrder R}.

Lemma preserves_ret {A} (a : A) : preserves R (ret a).
Proof. intros s. reflexivity. Qed.

Lemma preserves_gets {A} (f : state -> A) : preserves R (gets f).
Proof. intros s. reflexivity. Qed.

Lemma preserves_raise {A} (e : exn) : preserves R (@raise A e).
Proof. intros s. reflexivity. Qed.

Lemma preserves_modify (f : state -> state) :
  (forall s, R s (f s)) -> preserves R (modify f).
Proof. intros H s. apply H. Qed.

Lemma preserves_bind {A B} (m : M A) (k : A -> M B) :
  preserves R m -> (forall a, preserves R (k a)) -> preserves R (bind m k).
Proof.
  intros Hm Hk s. unfold bind.
  specialize (Hm s). destruct (m s) as [[a | e] s']; simpl in *.
  - etrans; [exact Hm | apply Hk].
  - exact Hm.
Qed.

Lemma preserves_try_except {A} (m : M A) (h : exn -> M A) :
  preserves R m -> (forall e, preserves R (h e)) -> preserves R (try_except m h).
Proof.
  intros Hm Hh s. unfold try_except.
  specialize (Hm s). destruct (m s) as [[a | e] s']; simpl in *.
  - exact Hm.
  - etrans; [exact Hm | apply Hh].
Qed.

Lemma preserves_raise_for_status r : preserves R (raise_for_status r).
Proof.
  unfold raise_for_status.
  destruct (_ && _); [apply preserves_raise | apply preserves_ret].
Qed.

End Preservation.

(** The steps of a goal [preserves R m] that follow the shape of [m]. *)
Ltac preserves_shape :=
  lazymatch goal with
  | |- preserves ?R (bind _ _) => apply (preserves_bind R); [| intros ?]
  | |- preserves ?R (try_except _ _) => apply (preserves_try_except R); [| intros ?]
  | |- preserves ?R (ret _) => apply (preserves_ret R)
  | |- preserves ?R (gets _) => apply (preserves_gets R)
  | |- preserves ?R (raise _) => apply (preserves_raise R)
  | |- preserves ?R (raise_for_status _) => apply (preserves_raise_for_status R)
  | |- preserves _ (if ?b then _ else _) => destruct b
  | |- preserves _ (match ?x with _ => _ end) => destruct x
  | |- preserves _ (let _ := _ in _) => cbv zeta
  end.

(** *** The three sub-steps only make sub-steps *)

Lemma sub_step_emit_request r :
  preserves (rtc sub_step) (emit (EvRequest r)).
Proof. intros s. apply rtc_once. constructor. Qed.

Lemma sub_steps_http r : preserves (rtc sub_step) (http r).
Proof.
  unfold http. apply (preserves_bind (rtc sub_step)); [apply sub_step_emit_request |].
  intros _ s. destruct (network s) as [| [resp | e] rest]; simpl;
    [apply rtc_refl | apply rtc_once; constructor ..].
Qed.

Lemma sub_steps_modify (f : state -> state) :
  (forall s, sub_step s (f s)) -> preserves (rtc sub_step) (modify f).
Proof. intros H s. apply rtc_once, H. Qed.

Create HintDb session discriminated.

#[local] Hint Resolve sub_steps_http : session.
#[local] Hint Extern 1 (preserves (rtc sub_step) (modify _)) =>
  apply sub_steps_modify; intros ?; constructor : session.

Ltac session_steps :=
  repeat first [ solve [auto 2 with session nocore] | preserves_shape ].

Lemma sub_steps_login_attempt : preserves (rtc sub_step) login_attempt.
Proof. unfold login_attempt, session_get, session_post. session_steps. Qed.
#[local] Hint Resolve sub_steps_login_attempt : session.

Lemma sub_steps_login_to_system : preserves (rtc sub_step) login_to_system.
Proof. unfold login_to_system. session_steps. Qed.

Lemma sub_steps_select_by_dropdown sp :
  preserves (rtc sub_step) (select_by_dropdown sp).
Proof. unfold select_by_dropdown, session_post. session_steps. Qed.

Lemma sub_steps_follow_india_links imat links :
  preserves (rtc sub_step) (follow_india_links imat links).
Proof.
  induction links as [| link rest IH]; simpl; unfold session_get; session_steps.
Qed.
#[local] Hint Resolve sub_steps_select_by_dropdown sub_steps_follow_india_links : session.

Lemma sub_steps_select_country : preserves (rtc sub_step) select_country.
Proof. unfold select_country, session_get. session_steps. Qed.

Lemma sub_steps_try_links imat links :
  preserves (rtc sub_step) (try_links imat links).
Proof.
  induction links as [| link rest IH]; simpl; unfold session_get; session_steps.
Qed.
#[local] Hint Resolve sub_steps_try_links : session.

Lemma sub_steps_try_keywords imat sp keywords :
  preserves (rtc sub_step) (try_keywords imat sp keywords).
Proof.
  induction keywords as [| keyword rest IH]; simpl.
  - session_steps.
  - apply (preserves_bind (rtc sub_step)).
    + apply sub_steps_try_links.
    + intros [href |]; session_steps.
Qed.
#[local] Hint Resolve sub_steps_try_keywords : session.

Lemma sub_steps_navigate_to_slot_page :
  preserves (rtc sub_step) navigate_to_slot_page.
Proof. unfold navigate_to_slot_page, session_get. session_steps. Qed.

(** *** The session manager only makes session steps *)

Lemma sub_steps_session_steps s s' : rtc sub_step s s' -> rtc session_step s s'.
Proof.
  induction 1 as [| s1 s2 s3 H _ IH]; [reflexivity |].
  eapply rtc_l; [apply step_sub, H | exact IH].
Qed.

Lemma preserves_sub_session {A} (m : M A) :
  preserves (rtc sub_step) m -> preserves (rtc session_step) m.
Proof. intros H s. apply sub_steps_session_steps, H. Qed.

Lemma session_steps_modify (f : state -> state) :
  (forall s, session_step s (f s)) -> preserves (rtc session_step) (modify f).
Proof. intros H s. apply rtc_once, H. Qed.

#[local] Hint Extern 1 (preserves (rtc session_step) (modify _)) =>
  apply session_steps_modify; intros ?; constructor; constructor : session.
#[local] Hint Extern 1 (preserves (rtc session_step) (emit _)) =>
  apply session_steps_modify; intros ?; constructor : session.
#[local] Hint Extern 1 (preserves (rtc session_step) (sleep _)) =>
  apply session_steps_modify; intros ?; constructor : session.
#[local] Hint Extern 1 (preserves (rtc session_step) (modify _)) =>
  apply session_steps_modify; intros ?; constructor : session.
#[local] Hint Extern 2 (preserves (rtc session_step) _) =>
  apply preserves_sub_session;
  first [ apply sub_steps_login_to_system | apply sub_steps_select_country
        | apply sub_steps_navigate_to_slot_page | apply sub_steps_http ] : session.

Lemma session_steps_initialize_session :
  preserves (rtc session_step) initialize_session.
Proof. unfold initialize_session. session_steps. Qed.
#[local] Hint Resolve session_steps_initialize_session : session.

Lemma session_steps_maintain_session :
  preserves (rtc session_step) maintain_session.
Proof. unfold maintain_session, session_get. session_steps. Qed.

Lemma session_steps_fetch_target : preserves (rtc session_step) fetch_target.
Proof. unfold fetch_target, retry, session_get. session_steps. Qed.

Lemma session_steps_fetch_preamble : preserves (rtc session_step) fetch_preamble.
Proof.
  unfold fetch_preamble. pose proof session_steps_maintain_session. session_steps.
Qed.

Lemma session_steps_recover : preserves (rtc session_step) recover.
Proof. unfold recover, session_get. session_steps. Qed.

Lemma session_steps_get_page_content :
  preserves (rtc session_step) get_page_content.
Proof.
  unfold get_page_content.
  pose proof session_steps_fetch_target. pose proof session_steps_fetch_preamble.
  pose proof session_steps_recover. session_steps.
Qed.

(** *** What the steps leave untouched *)

Lemma extends_by_same P s s' : trace s' = trace s -> extends_by P s s'.
Proof. intros H. exists []. split; [by rewrite app_nil_r | reflexivity]. Qed.

Lemma extends_by_refl P s : extends_by P s s.
Proof. by apply extends_by_same. Qed.

Lemma extends_by_trans P s1 s2 s3 :
  extends_by P s1 s2 -> extends_by P s2 s3 -> extends_by P s1 s3.
Proof.
  intros (e1 & H1 & F1) (e2 & H2 & F2). exists (e1 ++ e2). split.
  - by rewrite H2, H1, app_assoc.
  - by rewrite forallb_app, F1, F2.
Qed.

Lemma extends_by_one (P : event -> bool) s e :
  P e = true -> extends_by P s (set_trace (trace s ++ [e]) s).
Proof. intros H. exists [e]. split; [reflexivity | simpl; by rewrite H]. Qed.

(** The fields a sub-step cannot change, and the trace it can only
    extend by requests. *)
Record sub_frame (s s' : state) : Prop := {
  sub_trace : extends_by is_request s s';
  sub_imat_url : imat_url s' = imat_url s;
  sub_username : username s' = username s;
  sub_password : password s' = password s;
  sub_cities : cities s' = cities s;
  sub_initialized : session_initialized s' = session_initialized s;
  sub_previous : previous_state s' = previous_state s;
  sub_counter : request_counter s' = request_counter s
}.

Lemma sub_steps_frame s s' : rtc sub_step s s' -> sub_frame s s'.
Proof.
  induction 1 as [s | s1 s2 s3 H _ IH].
  - split; auto using extends_by_refl.
  - assert (H12 : sub_frame s1 s2).
    { destruct H; split; simpl; auto using extends_by_same.
      by apply extends_by_one. }
    destruct H12, IH. split; try congruence.
    eapply extends_by_trans; eassumption.
Qed.

(** The whole session manager sends no Telegram message and leaves the
    configuration and the previous snapshot alone. *)
Record session_frame (s s' : state) : Prop := {
  ses_trace : extends_by (fun e => negb (is_telegram e)) s s';
  ses_imat_url : imat_url s' = imat_url s;
  ses_cities : cities s' = cities s;
  ses_previous : previous_state s' = previous_state s
}.

Lemma extends_by_weaken (P Q : event -> bool) s s' :
  (forall e, P e = true -> Q e = true) -> extends_by P s s' -> extends_by Q s s'.
Proof.
  intros HPQ (evs & Ht & HP). exists evs. split; [exact Ht |].
  rewrite forallb_forall in *. auto.
Qed.

Lemma session_steps_frame s s' : rtc session_step s s' -> session_frame s s'.
Proof.
  induction 1 as [s | s1 s2 s3 H _ IH].
  - split; auto using extends_by_refl.
  - assert (H12 : session_frame s1 s2).
    { destruct H as [s s' H | s | s | s n | s n].
      - destruct (sub_steps_frame s s' (rtc_once _ _ H)). split; auto.
        eapply extends_by_weaken; [| eassumption]. by intros [].
      - split; simpl; auto. by apply extends_by_one.
      - split; simpl; auto using extends_by_same.
      - split; simpl; auto. by apply extends_by_one.
      - split; simpl; auto using extends_by_same. }
    destruct H12, IH. split; try congruence.
    eapply extends_by_trans; eassumption.
Qed.

(** *** Nothing escapes the handlers *)

Lemma returns_try_except_ret {A} (m : M A) (a : A) :
  returns (try_except m (fun _ => ret a)).
Proof.
  intros s. unfold try_except. destruct (m s) as [[x | e] s']; simpl; eauto.
Qed.

Lemma returns_bind {A B} (m : M A) (k : A -> M B) :
  returns m -> (forall a, returns (k a)) -> returns (bind m k).
Proof.
  intros Hm Hk s. unfold bind. destruct (Hm s) as [a Ha].
  destruct (m s) as [[x | e] s']; simpl in *; [apply Hk | discriminate].
Qed.

Lemma returns_ret {A} (a : A) : returns (ret a).
Proof. intros s. by exists a. Qed.

Lemma returns_gets {A} (f : state -> A) : returns (gets f).
Proof. intros s. by eexists. Qed.

Lemma returns_modify f : returns (modify f).
Proof. intros s. by exists tt. Qed.

Lemma returns_login_to_system : returns login_to_system.
Proof.
  unfold login_to_system.
  apply returns_bind; [apply returns_gets | intros user].
  apply returns_bind; [apply returns_gets | intros pass].
  destruct (_ || _); [apply returns_ret |].
  apply returns_bind; [apply returns_try_except_ret |].
  intros [b |]; apply returns_ret.
Qed.

Lemma select_country_true s : exists s', select_country s = (Ok true, s').
Proof.
  unfold select_country, bind.
  match goal with |- context [try_except ?m ?h s] =>
    destruct (returns_try_except_ret m tt s) as [[] H];
    destruct (try_except m h s) as [[[] | e] s'] end;
    simpl in *; [by eexists | discriminate].
Qed.

Lemma returns_navigate_to_slot_page : returns navigate_to_slot_page.
Proof.
  intros s. unfold navigate_to_slot_page, try_except.
  match goal with |- context [match ?m s with _ => _ end] =>
    destruct (m s) as [[x | e] s'] end; simpl; eauto.
Qed.

Lemma returns_initialize_session : returns initialize_session.
Proof. apply returns_try_except_ret. Qed.

Lemma returns_recover : returns recover.
Proof. apply returns_try_except_ret. Qed.

Lemma returns_get_page_content : returns get_page_content.
Proof.
  unfold get_page_content.
  apply returns_bind; [apply returns_modify | intros _].
  intros s. unfold try_except.
  match goal with |- context [match ?m s with _ => _ end] =>
    destruct (m s) as [[x | e] s'] end; simpl; [eauto |].
  destruct e; [apply returns_recover | by eexists].
Qed.

(** *** Running the monad *)

Lemma bind_ok {A B} (m : M A) (k : A -> M B) s a s' :
  m s = (Ok a, s') -> bind m k s = k a s'.
Proof. intros H. unfold bind. by rewrite H. Qed.

Lemma bind_exc {A B} (m : M A) (k : A -> M B) s e s' :
  m s = (Exc e, s') -> bind m k s = (Exc e, s').
Proof. intros H. unfold bind. by rewrite H. Qed.

Lemma try_except_ok {A} (m : M A) (h : exn -> M A) s a s' :
  m s = (Ok a, s') -> try_except m h s = (Ok a, s').
Proof. intros H. unfold try_except. by rewrite H. Qed.

Lemma try_except_exc {A} (m : M A) (h : exn -> M A) s e s' :
  m s = (Exc e, s') -> try_except m h s = h e s'.
Proof. intros H. unfold try_except. by rewrite H. Qed.

Lemma http_reply r s resp rest :
  network s = Reply resp :: rest -> http r s = (Ok resp, answered r rest s).
Proof. intros H. unfold http, bind, emit, modify. simpl. by rewrite H. Qed.

Lemma http_fails r s e rest :
  network s = Fails e :: rest -> http r s = (Exc e, answered r rest s).
Proof. intros H. unfold http, bind, emit, modify. simpl. by rewrite H. Qed.

Lemma http_trace r s : trace (snd (http r s)) = trace s ++ [EvRequest r].
Proof.
  unfold http, bind, emit, modify. simpl.
  by destruct (network s) as [| [resp | e] rest].
Qed.

Lemma raise_for_status_cases r s :
  raise_for_status r s = (Ok tt, s) \/ raise_for_status r s = (Exc RequestException, s).
Proof. unfold raise_for_status. destruct (_ && _); auto. Qed.

Lemma raise_for_status_ok r s : status_ok r -> raise_for_status r s = (Ok tt, s).
Proof.
  unfold status_ok, raise_for_status. intros H.
  destruct (400 <=? status_code r)%Z eqn:H1; [| reflexivity].
  destruct (status_code r <? 600)%Z eqn:H2; [| reflexivity].
  exfalso. apply H. lia.
Qed.

(** *** Login *)

(** [slot_booking_url or imat_url] is the slot page when one is
    recorded and not empty, the entry URL otherwise. *)
Lemma target_url_spec s : target_url s = slot_page_or_entry s.
Proof.
  unfold target_url, slot_page_or_entry, Py.or_else.
  by destruct (slot_booking_url s) as [[| c u] |].
Qed.

Ltac run_gets :=
  erewrite bind_ok by (unfold gets; reflexivity); cbv beta;
  rewrite ?target_url_spec.

Lemma login_unconfigured s : ~ configured s -> login_to_system s = (Ok true, s).
Proof.
  unfold configured, login_to_system. intros H. do 2 run_gets.
  destruct (opt_truthy (username s)), (opt_truthy (password s));
    try reflexivity.
  exfalso. by apply H.
Qed.

Lemma login_configured s :
  configured s ->
  login_to_system s
  = (r <- try_except login_attempt (fun _ => ret (Some false)) ;;
     match r with Some b => ret b | None => ret true end) s.
Proof.
  unfold login_to_system. intros [Hu Hp]. do 2 run_gets.
  by rewrite Hu, Hp.
Qed.

(** The entry page cannot be fetched. *)
Lemma login_entry_fails s e rest :
  configured s -> network s = Fails e :: rest ->
  login_to_system s = (Ok false, answered (entry_request s) rest s).
Proof.
  intros Hc Hn. rewrite (login_configured _ Hc).
  assert (Ha : login_attempt s = (Exc e, answered (entry_request s) rest s)).
  { unfold login_attempt. run_gets.
    erewrite bind_exc by (by apply http_fails). reflexivity. }
  erewrite bind_ok by (erewrite try_except_exc by exact Ha; reflexivity).
  reflexivity.
Qed.

(** The entry page has no login form: nothing to do. *)
Lemma login_no_form s r1 rest :
  configured s -> network s = Reply r1 :: rest ->
  find_login_form (html_soup (body r1)) = None ->
  login_to_system s = (Ok true, answered (entry_request s) rest s).
Proof.
  intros Hc Hn Hf. rewrite (login_configured _ Hc).
  assert (Ha : login_attempt s = (Ok None, answered (entry_request s) rest s)).
  { unfold login_attempt. run_gets.
    erewrite bind_ok by (by apply http_reply). by rewrite Hf. }
  erewrite bind_ok by (erewrite try_except_ok by exact Ha; reflexivity).
  reflexivity.
Qed.

(** The run of [login_attempt] up to the reply to the submission. *)
Lemma login_attempt_submits s r1 rest form :
  network s = Reply r1 :: rest ->
  find_login_form (html_soup (body r1)) = Some form ->
  login_attempt s
  = (login_response <- http (login_request s form) ;;
     if (status_code login_response =? 200)%Z then
       if Py.contains "dashboard" (Py.lower (url login_response)) ||
          Py.contains "welcome" (Py.lower (html_text (body login_response)))
       then (modify (set_is_logged_in true) ;; ret (Some true))
       else ret (Some false)
     else ret None) (answered (entry_request s) rest s).
Proof.
  intros Hn Hf. unfold login_attempt. run_gets.
  erewrite bind_ok by (by apply http_reply).
  rewrite Hf. do 2 run_gets. reflexivity.
Qed.

(** The submission itself fails at transport level. *)
Lemma login_post_fails s r1 e rest form :
  configured s -> network s = Reply r1 :: Fails e :: rest ->
  find_login_form (html_soup (body r1)) = Some form ->
  login_to_system s
  = (Ok false, answered (login_request s form) rest
                 (answered (entry_request s) (Fails e :: rest) s)).
Proof.
  intros Hc Hn Hf. rewrite (login_configured _ Hc).
  pose proof (login_attempt_submits _ _ _ _ Hn Hf) as Ha.
  erewrite bind_exc in Ha by (by apply http_fails).
  erewrite bind_ok by (erewrite try_except_exc by exact Ha; reflexivity).
  reflexivity.
Qed.

(** The submission is answered with a status other than 200. *)
Lemma login_post_not_200 s r1 r2 rest form :
  configured s -> network s = Reply r1 :: Reply r2 :: rest ->
  find_login_form (html_soup (body r1)) = Some form ->
  status_code r2 <> 200%Z ->
  login_to_system s
  = (Ok true, answered (login_request s form) rest
                (answered (entry_request s) (Reply r2 :: rest) s)).
Proof.
  intros Hc Hn Hf Hs. rewrite (login_configured _ Hc).
  pose proof (login_attempt_submits _ _ _ _ Hn Hf) as Ha.
  erewrite bind_ok in Ha by (by apply http_reply).
  destruct (Z.eqb_spec (status_code r2) 200) as [| _]; [contradiction |].
  erewrite bind_ok by (erewrite try_except_ok by exact Ha; reflexivity).
  reflexivity.
Qed.

(** *** Initialization *)

(** Initialization returns what login returns; once login has let it
    through, nothing in the two later sub-steps can stop it. *)
Lemma initialize_session_by_login s b s1 :
  login_to_system (entered s) = (Ok b, s1) ->
  if b then exists s', initialize_session s = (Ok true, s')
                       /\ session_initialized s' = true
  else initialize_session s = (Ok false, s1)
       /\ session_initialized s1 = session_initialized s.
Proof.
  intros Hl. unfold initialize_session.
  destruct b.
  - destruct (select_country_true s1) as [s2 Hs].
    destruct (returns_navigate_to_slot_page s2) as [u Hu].
    destruct (navigate_to_slot_page s2) as [r s3] eqn:Hnav. simpl in Hu. subst r.
    eexists. split.
    + erewrite try_except_ok; [reflexivity |].
      erewrite bind_ok by (unfold emit, modify; reflexivity).
      erewrite bind_ok by exact Hl. cbn [negb].
      erewrite bind_ok by exact Hs. cbn [negb].
      erewrite bind_ok by exact Hnav.
      unfold bind, modify, ret. reflexivity.
    + reflexivity.
  - split.
    + erewrite try_except_ok; [reflexivity |].
      erewrite bind_ok by (unfold emit, modify; reflexivity).
      erewrite bind_ok by exact Hl. reflexivity.
    + pose proof (sub_steps_login_to_system (entered s)) as H.
      rewrite Hl in H. apply sub_steps_frame in H. by destruct H.
Qed.

(** A successful initialization leaves the session marked and a slot
    URL recorded. *)
Lemma initialize_session_success s s' :
  initialize_session s = (Ok true, s') ->
  session_initialized s' = true /\ exists u, slot_booking_url s' = Some u.
Proof.
  intros H.
  destruct (returns_login_to_system (entered s)) as [b Hb].
  destruct (login_to_system (entered s)) as [res s1] eqn:Hl. simpl in Hb. subst res.
  destruct b.
  - destruct (select_country_true s1) as [s2 Hs].
    destruct (returns_navigate_to_slot_page s2) as [u Hu].
    destruct (navigate_to_slot_page s2) as [r s3] eqn:Hnav. simpl in Hu. subst r.
    assert (Hrun : initialize_session s
                   = (Ok true, set_session_initialized true
                                 (set_slot_booking_url (Some u) s3))).
    { unfold initialize_session.
      erewrite try_except_ok; [reflexivity |].
      erewrite bind_ok by (unfold emit, modify; reflexivity).
      erewrite bind_ok by exact Hl. cbn [negb].
      erewrite bind_ok by exact Hs. cbn [negb].
      erewrite bind_ok by exact Hnav.
      unfold bind, modify, ret. reflexivity. }
    rewrite Hrun in H. injection H as <-.
    split; [reflexivity | by exists u].
  - destruct (initialize_session_by_login s false s1 Hl) as [Hf _]. congruence.
Qed.

(** C3, the claim at a concrete site.  Both the request of
    [select_country] and the request of [navigate_to_slot_page] fail at
    transport level (the two failures are consumed), and initialization
    still reports success and marks the session initialized. *)
Lemma initialize_session_survives_transport_failures :
  exists s', initialize_session site_drops_after_login = (Ok true, s')
             /\ session_initialized s' = true
             /\ network s' = []
             /\ country_selected s' = false
             /\ slot_booking_url s' = Some entry.
Proof. eexists. repeat split; vm_compute; reflexivity. Qed.

(** C3, amended.  Initialization returns what [login_to_system]
    returns.  A transport failure during login (fetching the entry page
    or submitting the credentials) aborts it with [False] and leaves
    [session_initialized] as it was.  Once login has returned [True],
    whether because no credentials are configured, no login form is found
    or the login went through, initialization returns [True] and sets
    [session_initialized], whatever happens to the requests of country
    selection and navigation. *)
Theorem initialize_session_outcome :
  (forall s, exists b s1,
      login_to_system (entered s) = (Ok b, s1) /\
      if b then exists s', initialize_session s = (Ok true, s')
                           /\ session_initialized s' = true
      else initialize_session s = (Ok false, s1)
           /\ session_initialized s1 = session_initialized s)
  /\ (forall s e rest,
         configured s -> network s = Fails e :: rest ->
         exists s1, initialize_session s = (Ok false, s1)
                    /\ session_initialized s1 = session_initialized s)
  /\ (forall s r1 e rest form,
         configured s -> network s = Reply r1 :: Fails e :: rest ->
         find_login_form (html_soup (body r1)) = Some form ->
         exists s1, initialize_session s = (Ok false, s1)
                    /\ session_initialized s1 = session_initialized s)
  /\ (forall s r1 rest,
         configured s -> network s = Reply r1 :: rest ->
         find_login_form (html_soup (body r1)) = None ->
         exists s', initialize_session s = (Ok true, s')
                    /\ session_initialized s' = true)
  /\ (forall s, ~ configured s ->
         exists s', initialize_session s = (Ok true, s')
                    /\ session_initialized s' = true).
Proof.
  split; [| split; [| split; [| split]]].
  - intros s.
    destruct (returns_login_to_system (entered s)) as [b Hb].
    destruct (login_to_system (entered s)) as [r s1] eqn:Hl. simpl in Hb. subst r.
    exists b, s1. split; [reflexivity |].
    by apply initialize_session_by_login.
  - intros s e rest Hc Hn. eexists.
    apply (initialize_session_by_login s false).
    by apply (login_entry_fails (entered s) e rest).
  - intros s r1 e rest form Hc Hn Hf. eexists.
    apply (initialize_session_by_login s false).
    by apply (login_post_fails (entered s) r1 e rest form).
  - intros s r1 rest Hc Hn Hf.
    apply (initialize_session_by_login s true _
             (login_no_form (entered s) r1 rest Hc Hn Hf)).
  - intros s Hc.
    apply (initialize_session_by_login s true _ (login_unconfigured (entered s) Hc)).
Qed.

Lemma initialize_session_outcome_witness :
  exists s1, initialize_session site_down = (Ok false, s1)
             /\ session_initialized s1 = session_initialized site_down.
Proof.
  apply (proj1 (proj2 initialize_session_outcome) site_down RequestException []).
  - split; reflexivity.
  - reflexivity.
Defined.

(** C9.  With credentials configured, a login form on the entry page and
    a submission answered with a status other than 200, [login_to_system]
    makes its two requests, leaves [is_logged_in] as it was and returns
    [True]; initialization therefore goes on and succeeds. *)
Theorem login_not_200_reports_success s r1 r2 rest form :
  configured s ->
  network s = Reply r1 :: Reply r2 :: rest ->
  find_login_form (html_soup (body r1)) = Some form ->
  status_code r2 <> 200%Z ->
  (exists s', login_to_system s = (Ok true, s')
              /\ is_logged_in s' = is_logged_in s
              /\ network s' = rest
              /\ trace s' = trace s ++ [EvRequest (entry_request s);
                                        EvRequest (login_request s form)])
  /\ (exists s'', initialize_session s = (Ok true, s'')
                  /\ session_initialized s'' = true).
Proof.
  intros Hc Hn Hf Hs. split.
  - eexists. split; [by apply (login_post_not_200 s r1 r2 rest form) |].
    repeat split. simpl. by rewrite <- app_assoc.
  - apply (initialize_session_by_login s true _
             (login_post_not_200 (entered s) r1 r2 rest form Hc Hn Hf Hs)).
Qed.

Lemma login_not_200_reports_success_witness :
  (exists s', login_to_system login_rejected_503 = (Ok true, s')
              /\ is_logged_in s' = false)
  /\ (exists s'', initialize_session login_rejected_503 = (Ok true, s'')
                  /\ session_initialized s'' = true).
Proof.
  destruct (login_not_200_reports_success login_rejected_503
              {| status_code := 200; url := entry; body := login_page |}
              {| status_code := 503; url := "https://www.nta.ac.in/login";
                 body := plain_page |}
              [ replies 200 entry plain_page; replies 200 entry plain_page ]
              login_form) as [(s' & Hl & Hi & _) Hinit].
  - split; reflexivity.
  - reflexivity.
  - reflexivity.
  - simpl. lia.
  - split; [| exact Hinit]. exists s'. split; [exact Hl | exact Hi].
Defined.

(** *** The fetch *)

#[local] Instance extends_by_preorder P : PreOrder (extends_by P).
Proof.
  split; [intros s; apply extends_by_refl | intros s1 s2 s3; apply extends_by_trans].
Qed.

Lemma requests_of_sub_steps {A} (m : M A) :
  preserves (rtc sub_step) m -> preserves (extends_by is_request) m.
Proof. intros H s. by destruct (sub_steps_frame _ _ (H s)). Qed.

(** A computation entered with the event [e] recorded first. *)
Lemma trace_after_emit {A} (P : event -> bool) e (k : M A) h :
  preserves (extends_by P) (try_except k h) ->
  forall s, exists evs,
    trace (snd (try_except (emit e ;; k) h s)) = trace s ++ e :: evs
    /\ forallb P evs = true.
Proof.
  intros Hk s.
  destruct (Hk (set_trace (trace s ++ [e]) s)) as (evs & Ht & HP).
  exists evs. split; [| exact HP].
  simpl in Ht. rewrite <- app_assoc in Ht. exact Ht.
Qed.

(** One call of [initialize_session] is recorded once, and everything
    it records after that is a request. *)
Lemma initialize_session_trace s :
  exists evs,
    trace (snd (initialize_session s)) = trace s ++ EvInitialize :: evs
    /\ forallb is_request evs = true.
Proof.
  unfold initialize_session. apply trace_after_emit.
  apply (preserves_try_except (extends_by is_request));
    [| intros _; apply (preserves_ret (extends_by is_request))].
  apply (preserves_bind (extends_by is_request));
    [apply requests_of_sub_steps, sub_steps_login_to_system |].
  intros [|]; [| apply (preserves_ret (extends_by is_request))].
  apply (preserves_bind (extends_by is_request));
    [apply requests_of_sub_steps, sub_steps_select_country |].
  intros [|]; [| apply (preserves_ret (extends_by is_request))].
  apply (preserves_bind (extends_by is_request));
    [apply requests_of_sub_steps, sub_steps_navigate_to_slot_page |].
  intros slot_url.
  apply (preserves_bind (extends_by is_request)).
  { apply preserves_modify. intros s'. by apply extends_by_same. }
  intros _. apply (preserves_bind (extends_by is_request)).
  { apply preserves_modify. intros s'. by apply extends_by_same. }
  intros _. apply (preserves_ret (extends_by is_request)).
Qed.

(** From the state at the main request on, [get_page_content] is the
    main request under the two handlers. *)
Lemma get_page_content_at_main s s0 :
  at_main_request s s0 ->
  get_page_content s = try_except fetch_target fetch_handler s0.
Proof.
  unfold at_main_request. intros H. unfold get_page_content.
  erewrite bind_ok by (unfold modify; reflexivity).
  unfold try_except. erewrite bind_ok by exact H. reflexivity.
Qed.

(** The main request is answered, passes [raise_for_status], and its
    final URL shows an expired session. *)
Lemma fetch_target_expired s0 r rest :
  network s0 = Reply r :: rest -> status_ok r -> expired (url r) = true ->
  fetch_target s0
  = (reinitialized <- initialize_session ;;
     if reinitialized then retry else ret None) (after_main_request s0 rest).
Proof.
  intros Hn Hs He. unfold fetch_target. run_gets. unfold session_get at 1.
  erewrite bind_ok by (by apply http_reply).
  erewrite bind_ok by (by apply raise_for_status_ok).
  by rewrite He.
Qed.

(** Whatever the retried request meets, it is the first thing recorded
    after re-initialization. *)
Lemma retry_under_handler_trace s2 :
  exists tail,
    trace (snd (try_except retry fetch_handler s2))
    = trace s2 ++ EvRequest (main_request s2) :: tail.
Proof.
  assert (Hrec : forall s3, trace s3 = trace s2 ++ [EvRequest (main_request s2)] ->
                 exists tail, trace (snd (recover s3))
                              = trace s2 ++ EvRequest (main_request s2) :: tail).
  { intros s3 H3.
    destruct (session_steps_frame _ _ (session_steps_recover s3)) as [(evs & Ht & _) _ _ _].
    exists evs. rewrite Ht, H3, <- app_assoc. reflexivity. }
  pose proof (http_trace (main_request s2) s2) as Ht.
  destruct (http (main_request s2) s2) as [[r2 | e] s3] eqn:Hh; simpl in Ht.
  - destruct (raise_for_status_cases r2 s3) as [Hr | Hr].
    + erewrite try_except_ok; [exists []; exact Ht |].
      unfold retry. run_gets. unfold session_get.
      erewrite bind_ok by exact Hh. erewrite bind_ok by exact Hr. reflexivity.
    + erewrite try_except_exc; cycle 1.
      { unfold retry. run_gets. unfold session_get.
        erewrite bind_ok by exact Hh. erewrite bind_exc by exact Hr. reflexivity. }
      by apply Hrec.
  - erewrite try_except_exc; cycle 1.
    { unfold retry. run_gets. unfold session_get.
      erewrite bind_exc by exact Hh. reflexivity. }
    destruct e; simpl; [by apply Hrec | exists []; exact Ht].
Qed.

(** C7.  At the main request of [get_page_content], when the site
    answers with a response that passes [raise_for_status] and whose
    final URL contains "login", "signin" or "country",
    [initialize_session] is run from the state right after that answer:
    the trace gains the main request, one initialization mark and then
    requests only.  If it returns [False], the fetch returns [None].  If
    it returns [True], a slot URL is recorded and the next event is the
    retried GET, with a timeout of 20 seconds, of the slot URL recorded
    in the state after re-initialization, or of the entry URL when that
    is empty. *)
Theorem reinitializes_once_before_retry s s0 r rest :
  at_main_request s s0 ->
  network s0 = Reply r :: rest ->
  status_ok r ->
  expired (url r) = true ->
  exists b s2 evs,
    initialize_session (after_main_request s0 rest) = (Ok b, s2)
    /\ trace s2 = trace s0 ++ EvRequest (main_request s0) :: EvInitialize :: evs
    /\ forallb is_request evs = true
    /\ if b then
         exists u tail,
           slot_booking_url s2 = Some u
           /\ trace (snd (get_page_content s))
              = trace s2
                ++ EvRequest {| req_method := GET;
                                req_url := if String.eqb u "" then imat_url s2 else u;
                                req_data := [];
                                req_timeout := Some 20%Z |} :: tail
       else get_page_content s = (Ok None, s2).
Proof.
  intros Hmain Hn Hs He.
  destruct (returns_initialize_session (after_main_request s0 rest)) as [b Hb].
  destruct (initialize_session_trace (after_main_request s0 rest)) as (evs & Ht & Hreq).
  destruct (initialize_session (after_main_request s0 rest)) as [res s2] eqn:Hinit.
  simpl in Hb, Ht. subst res.
  exists b, s2, evs. split; [reflexivity |]. split.
  { rewrite Ht, <- app_assoc. reflexivity. }
  split; [exact Hreq |].
  rewrite (get_page_content_at_main _ _ Hmain).
  unfold try_except. rewrite (fetch_target_expired _ _ _ Hn Hs He).
  erewrite bind_ok by exact Hinit.
  destruct b.
  - destruct (initialize_session_success _ _ Hinit) as [_ [u Hu]].
    destruct (retry_under_handler_trace s2) as [tail Htail].
    exists u, tail. split; [exact Hu |].
    unfold main_request, slot_page_or_entry in Htail. rewrite Hu in Htail.
    exact Htail.
  - reflexivity.
Qed.

(** The session of [rediscovers] has expired; re-initialization finds
    the slot page, and the retried request goes there. *)
Lemma reinitializes_once_before_retry_witness :
  (exists b s2 evs,
     initialize_session
       (after_main_request (counted rediscovers)
          [ replies 200 entry plain_page; replies 200 entry slots_page;
            replies 200 slots_url delhi_page; replies 200 slots_url delhi_page ])
     = (Ok b, s2)
     /\ trace s2 = trace (counted rediscovers)
                   ++ EvRequest (main_request (counted rediscovers))
                      :: EvInitialize :: evs
     /\ forallb is_request evs = true
     /\ if b then
          exists u tail,
            slot_booking_url s2 = Some u
            /\ trace (snd (get_page_content rediscovers))
               = trace s2
                 ++ EvRequest {| req_method := GET;
                                 req_url := if String.eqb u "" then imat_url s2 else u;
                                 req_data := [];
                                 req_timeout := Some 20%Z |} :: tail
        else get_page_content rediscovers = (Ok None, s2))
  /\ trace (snd (get_page_content rediscovers))
     = [ EvRequest {| req_method := GET; req_url := entry; req_data := [];
                      req_timeout := Some 20%Z |};
         EvInitialize;
         EvRequest (get_request entry);
         EvRequest (get_request entry);
         EvRequest (get_request slots_url);
         EvRequest {| req_method := GET; req_url := slots_url; req_data := [];
                      req_timeout := Some 20%Z |} ].
Proof.
  split.
  - apply (reinitializes_once_before_retry rediscovers
             (counted rediscovers) login_redirect).
    + vm_compute. reflexivity.
    + reflexivity.
    + unfold status_ok. simpl. lia.
    + reflexivity.
  - vm_compute. reflexivity.
Defined.

(** C10.  In the same situation, once re-initialization has returned
    [True], a retried response that passes [raise_for_status] is returned
    as it is: its final URL is not looked at, so this holds just as well
    when it is the login or the country page again. *)
Theorem retried_page_returned_unchecked s s0 r rest s2 r2 rest2 :
  at_main_request s s0 ->
  network s0 = Reply r :: rest ->
  status_ok r ->
  expired (url r) = true ->
  initialize_session (after_main_request s0 rest) = (Ok true, s2) ->
  network s2 = Reply r2 :: rest2 ->
  status_ok r2 ->
  get_page_content s = (Ok (Some (body r2)), answered (main_request s2) rest2 s2).
Proof.
  intros Hmain Hn Hs He Hinit Hn2 Hs2.
  rewrite (get_page_content_at_main _ _ Hmain).
  erewrite try_except_ok; [reflexivity |].
  rewrite (fetch_target_expired _ _ _ Hn Hs He).
  erewrite bind_ok by exact Hinit.
  unfold retry. run_gets. unfold session_get.
  erewrite bind_ok by (by apply http_reply).
  erewrite bind_ok by (by apply raise_for_status_ok).
  reflexivity.
Qed.

(** The fetch of [redirected_twice] hands the login page to its caller. *)
Lemma retried_page_returned_unchecked_witness :
  fst (get_page_content redirected_twice) = Ok (Some login_page)
  /\ expired (url login_redirect) = true.
Proof.
  split; [| reflexivity].
  erewrite (retried_page_returned_unchecked redirected_twice
              (set_request_counter 1 redirected_twice) login_redirect
              [ replies 200 entry plain_page; replies 200 entry plain_page;
                Reply login_redirect ]
              _ login_redirect []).
  - reflexivity.
  - vm_compute. reflexivity.
  - reflexivity.
  - unfold status_ok. simpl. lia.
  - reflexivity.
  - vm_compute. reflexivity.
  - reflexivity.
  - unfold status_ok. simpl. lia.
Defined.

End SessionFacts.

(* ===================================================================== *)
(** ** The monitor loop *)
(* ===================================================================== *)

Module LoopFacts.
Import Soup Extractor Session Loop Spec Examples SessionFacts.
Local Open Scope session_scope.
Local Open Scope Z_scope.

(** *** Counting failure alerts *)

Lemma failure_alerts_app tr evs :
  failure_alerts (tr ++ evs) = failure_alerts tr + failure_alerts evs.
Proof.
  unfold failure_alerts. rewrite List.filter_app, length_app. lia.
Qed.

Lemma failure_alerts_quiet evs :
  forallb (fun e => negb (is_telegram e)) evs = true -> failure_alerts evs = 0.
Proof.
  unfold failure_alerts. induction evs as [| e evs IH]; simpl; [reflexivity |].
  intros H. apply andb_true_iff in H as [He Hevs].
  destruct e as [r | | n | m]; simpl in *; try (by apply IH). discriminate.
Qed.

Lemma get_page_content_no_alert s :
  failure_alerts (trace (snd (get_page_content s))) = failure_alerts (trace s).
Proof.
  destruct (session_steps_frame _ _ (session_steps_get_page_content s))
    as [(evs & Ht & Hq) _ _ _].
  rewrite Ht, failure_alerts_app, (failure_alerts_quiet _ Hq). lia.
Qed.

(** *** One cycle *)

(** The failure branch of the loop body *)
Lemma after_fetch_failure current_time html_content ls s :
  html_truthy html_content = false ->
  after_fetch current_time html_content ls s
  = if 3 <=? consecutive_failures ls + 1
    then (Ok {| consecutive_failures := 0;
                last_successful_check := last_successful_check ls |},
          set_trace (trace s ++ [EvTelegram (FailureAlert (consecutive_failures ls + 1)
                                                          (last_successful_check ls))]) s)
    else (Ok {| consecutive_failures := consecutive_failures ls + 1;
                last_successful_check := last_successful_check ls |}, s).
Proof.
  intros H. unfold after_fetch. rewrite H.
  destruct (3 <=? consecutive_failures ls + 1); reflexivity.
Qed.

(** The success branch of the loop body *)
Lemma after_fetch_success current_time html_content ls s :
  html_truthy html_content = true ->
  exists s', after_fetch current_time html_content ls s
             = (Ok {| consecutive_failures := 0; last_successful_check := current_time |}, s')
             /\ failure_alerts (trace s') = failure_alerts (trace s)
             /\ previous_state s' = analyze_slot_status (cities s) html_content.
Proof.
  intros H. unfold after_fetch. rewrite H. do 2 run_gets.
  destruct (check_for_changes _ _) as [| chg changes].
  - eexists. split; [reflexivity |]. split; reflexivity.
  - eexists. split; [reflexivity |]. split; [| reflexivity].
    simpl. rewrite failure_alerts_app. unfold failure_alerts. simpl. lia.
Qed.

(** A cycle is its fetch, the branch taken on the result, and the
    sleep; the handler of the loop is never entered. *)
Lemma iteration_run current_time current_hour ls s html_content s1 ls' s2 :
  get_page_content s = (Ok html_content, s1) ->
  after_fetch current_time html_content ls s1 = (Ok ls', s2) ->
  iteration current_time current_hour ls s
  = (Ok ls', set_trace (trace s2 ++ [EvSleep (wait_time current_hour)]) s2).
Proof.
  intros Hg Ha. unfold iteration.
  erewrite try_except_ok; [reflexivity |].
  unfold iteration_body.
  erewrite bind_ok by exact Hg. erewrite bind_ok by exact Ha.
  reflexivity.
Qed.

Lemma failing_cycle current_time current_hour ls s ls1 s1 :
  fetch_fails s ->
  iteration current_time current_hour ls s = (Ok ls1, s1) ->
  consecutive_failures ls1
  = (if 3 <=? consecutive_failures ls + 1 then 0 else consecutive_failures ls + 1)
  /\ failure_alerts (trace s1)
     = failure_alerts (trace s) + (if 3 <=? consecutive_failures ls + 1 then 1 else 0).
Proof.
  intros (h & sa & Hg & Hf) Hi.
  pose proof (get_page_content_no_alert s) as Hq. rewrite Hg in Hq. simpl in Hq.
  pose proof (after_fetch_failure current_time h ls sa Hf) as Ha.
  destruct (3 <=? consecutive_failures ls + 1).
  - rewrite (iteration_run _ current_hour _ _ _ _ _ _ Hg Ha) in Hi.
    injection Hi as <- <-. simpl. split; [reflexivity |].
    rewrite !failure_alerts_app, Hq. unfold failure_alerts. simpl. lia.
  - rewrite (iteration_run _ current_hour _ _ _ _ _ _ Hg Ha) in Hi.
    injection Hi as <- <-. simpl. split; [reflexivity |].
    rewrite failure_alerts_app, Hq. unfold failure_alerts. simpl. lia.
Qed.

Lemma successful_cycle current_time current_hour ls s :
  fetch_succeeds s ->
  exists ls' s', iteration current_time current_hour ls s = (Ok ls', s')
                 /\ consecutive_failures ls' = 0
                 /\ failure_alerts (trace s') = failure_alerts (trace s).
Proof.
  intros (h & sa & Hg & Hf).
  pose proof (get_page_content_no_alert s) as Hq. rewrite Hg in Hq. simpl in Hq.
  destruct (after_fetch_success current_time h ls sa Hf) as (s2 & Ha & Hal & _).
  eexists _, _. split; [exact (iteration_run _ current_hour _ _ _ _ _ _ Hg Ha) |].
  split; [reflexivity |].
  simpl. rewrite failure_alerts_app, Hal, Hq. unfold failure_alerts. simpl. lia.
Qed.

(** Every cycle runs to its sleep. *)
Lemma iteration_sleeps current_time current_hour ls s :
  exists ls' s2, iteration current_time current_hour ls s
                 = (Ok ls', set_trace (trace s2 ++ [EvSleep (wait_time current_hour)]) s2).
Proof.
  destruct (returns_get_page_content s) as [h Hh].
  destruct (get_page_content s) as [r sa] eqn:Hg. simpl in Hh. subst r.
  destruct (html_truthy h) eqn:Hf.
  - destruct (after_fetch_success current_time h ls sa Hf) as (s2 & Ha & _).
    eexists _, _. exact (iteration_run _ _ _ _ _ _ _ _ Hg Ha).
  - pose proof (after_fetch_failure current_time h ls sa Hf) as Ha.
    destruct (3 <=? consecutive_failures ls + 1);
      eexists _, _; exact (iteration_run _ _ _ _ _ _ _ _ Hg Ha).
Qed.

(** *** Runs of failing cycles *)

Lemma failing_run_count n c c' :
  failing_run n c c' ->
  0 <= consecutive_failures (fst c) < 3 ->
  consecutive_failures (fst c')
  = (consecutive_failures (fst c) + Z.of_nat n) mod 3
  /\ failure_alerts (trace (snd c'))
     = failure_alerts (trace (snd c)) + (consecutive_failures (fst c) + Z.of_nat n) / 3.
Proof.
  induction 1 as [c | n ls s t hr ls1 s1 c' Hf Hi _ IH]; simpl; intros Hk.
  - rewrite Z.add_0_r, Z.mod_small, Z.div_small by lia. lia.
  - destruct (failing_cycle _ _ _ _ _ _ Hf Hi) as [Hc Ha].
    simpl in IH. rewrite Ha, Hc in *. clear Ha Hc.
    destruct (Z.leb_spec 3 (consecutive_failures ls + 1)).
    + destruct IH as [-> ->]; [lia |].
      replace (consecutive_failures ls) with 2 by lia.
      split; Z.div_mod_to_equations; lia.
    + destruct IH as [-> ->]; [lia |].
      split; [f_equal; lia |]. rewrite Z.add_0_r. do 2 f_equal. lia.
Qed.

(** C6.  Over [n] consecutive failing cycles started with the counter at
    zero, the counter ends at [n mod 3] and [n / 3] failure alerts are
    sent: none after two failures, one after three (where the counter is
    back at zero), still one after four and five, two after six.  Every
    failing cycle runs to its end, so such runs exist for every [n]; a
    cycle whose fetch succeeds sets the counter to zero and sends no
    failure alert. *)
Theorem failure_alert_every_third_failure :
  (forall n ls s ls' s',
      failing_run n (ls, s) (ls', s') ->
      consecutive_failures ls = 0 ->
      consecutive_failures ls' = Z.of_nat n mod 3
      /\ failure_alerts (trace s') = failure_alerts (trace s) + Z.of_nat n / 3)
  /\ (forall current_time current_hour ls s,
         fetch_fails s ->
         exists ls1 s1,
           iteration current_time current_hour ls s = (Ok ls1, s1)
           /\ consecutive_failures ls1
              = (if 3 <=? consecutive_failures ls + 1 then 0
                 else consecutive_failures ls + 1)
           /\ failure_alerts (trace s1)
              = failure_alerts (trace s)
                + (if 3 <=? consecutive_failures ls + 1 then 1 else 0))
  /\ (forall current_time current_hour ls s,
         fetch_succeeds s ->
         exists ls1 s1,
           iteration current_time current_hour ls s = (Ok ls1, s1)
           /\ consecutive_failures ls1 = 0
           /\ failure_alerts (trace s1) = failure_alerts (trace s)).
Proof.
  split; [| split].
  - intros n ls s ls' s' Hrun H0.
    destruct (failing_run_count _ _ _ Hrun) as [Hc Ha]; simpl in *; [lia |].
    rewrite H0 in *. by rewrite Hc, Ha.
  - intros t hr ls s Hf.
    destruct (iteration_sleeps t hr ls s) as (ls1 & s2 & Hi).
    eexists _, _. split; [exact Hi |].
    exact (failing_cycle _ _ _ _ _ _ Hf Hi).
  - apply successful_cycle.
Qed.

(** Three cycles against the unreachable site: one alert, counter at
    zero. *)
Lemma failure_alert_every_third_failure_witness :
  exists ls' s',
    failing_run 3 (loop_start, unreachable) (ls', s')
    /\ consecutive_failures ls' = 0
    /\ failure_alerts (trace s') = 1.
Proof.
  assert (Hrun : exists ls' s', failing_run 3 (loop_start, unreachable) (ls', s')).
  { eexists _, _.
    eapply (failing_run_cons _ _ _ 0 12);
      [eexists _, _; split; vm_compute; reflexivity | vm_compute; reflexivity |].
    eapply (failing_run_cons _ _ _ 0 12);
      [eexists _, _; split; vm_compute; reflexivity | vm_compute; reflexivity |].
    eapply (failing_run_cons _ _ _ 0 12);
      [eexists _, _; split; vm_compute; reflexivity | vm_compute; reflexivity |].
    apply failing_run_nil. }
  destruct Hrun as (ls' & s' & Hrun). exists ls', s'.
  split; [exact Hrun |].
  exact (proj1 failure_alert_every_third_failure 3%nat _ _ _ _ Hrun eq_refl).
Defined.

(** *** The sleep interval *)

(** C8.  The interval is 180 seconds for the hours 9 to 18, both
    included, and 300 seconds for every other hour; each cycle ends by
    sleeping for the interval of its hour. *)
Theorem wait_time_business_hours :
  (forall h, 9 <= h <= 18 -> wait_time h = 180)
  /\ (forall h, h < 9 \/ 18 < h -> wait_time h = 300)
  /\ wait_time 10 = 180 /\ wait_time 22 = 300
  /\ wait_time 9 = 180 /\ wait_time 18 = 180
  /\ (forall current_time current_hour ls s,
         exists ls' s2,
           iteration current_time current_hour ls s
           = (Ok ls', set_trace (trace s2 ++ [EvSleep (wait_time current_hour)]) s2)).
Proof.
  repeat split; try reflexivity.
  - intros h Hh. unfold wait_time.
    destruct (Z.leb_spec 9 h), (Z.leb_spec h 18); simpl; try reflexivity; lia.
  - intros h Hh. unfold wait_time.
    destruct (Z.leb_spec 9 h), (Z.leb_spec h 18); simpl; try reflexivity; lia.
  - apply iteration_sleeps.
Qed.

Lemma wait_time_business_hours_witness :
  wait_time 13 = 180 /\ wait_time 3 = 300.
Proof.
  split.
  - apply (proj1 wait_time_business_hours). lia.
  - apply (proj1 (proj2 wait_time_business_hours)). lia.
Defined.

End LoopFacts.

(* ===================================================================== *)
(** ** URLs: the origin of the entry URL and link resolution *)
(* ===================================================================== *)

Module UrlFacts.
Import Soup Extractor Session Loop Spec Examples.

#[local] Arguments String.append !_ _ / : simpl nomatch.

Lemma append_assoc (a b c : string) : (a +:+ b) +:+ c = a +:+ (b +:+ c).
Proof. induction a as [| x a IH]; simpl; [reflexivity | by rewrite IH]. Qed.

Lemma append_empty_r (a : string) : a +:+ "" = a.
Proof. induction a as [| x a IH]; simpl; [reflexivity | by rewrite IH]. Qed.

Lemma startswith_empty (s : string) : Py.startswith "" s = true.
Proof. by destruct s. Qed.

Lemma startswith_app (p s t : string) :
  Py.startswith p s = true -> Py.startswith (t +:+ p) (t +:+ s) = true.
Proof.
  intros H. induction t as [| x t IH]; simpl; [exact H |].
  by rewrite Ascii.eqb_refl, IH.
Qed.

Lemma startswith_self_app (p s : string) : Py.startswith p (p +:+ s) = true.
Proof.
  rewrite <- (append_empty_r p) at 1.
  apply startswith_app, startswith_empty.
Qed.

Lemma startswith_weaken (p a b : string) :
  Py.startswith p a = true -> Py.startswith p (a +:+ b) = true.
Proof.
  revert a. induction p as [| x p IH]; intros a; [by intros; apply startswith_empty |].
  destruct a as [| y a]; simpl; [discriminate |].
  intros H. apply andb_true_iff in H as [-> H]. simpl. by apply IH.
Qed.

(** [sep.join(x :: l)] *)
Lemma join_cons sep x l :
  Py.join sep (x :: l) = match l with [] => x | _ => x +:+ sep +:+ Py.join sep l end.
Proof. by destruct l. Qed.

Lemma split_acc_nonempty sep cur s : Py.split_acc sep cur s <> [].
Proof.
  revert cur. induction s as [| c r IH]; intros cur; simpl; [discriminate |].
  destruct (Ascii.eqb c sep); [discriminate | apply IH].
Qed.

(** Splitting on a character and joining on it again gives the string
    back, and joining only the first [n] pieces gives a prefix of it. *)
Lemma join_split_acc sep cur s :
  Py.join (String sep "") (Py.split_acc sep cur s) = cur +:+ s.
Proof.
  revert cur. induction s as [| c r IH]; intros cur; simpl; [by rewrite append_empty_r |].
  destruct (Ascii.eqb_spec c sep) as [-> | Hne].
  - rewrite join_cons.
    destruct (Py.split_acc sep "" r) eqn:E; [by apply split_acc_nonempty in E |].
    rewrite <- E, IH. reflexivity.
  - rewrite IH, append_assoc. reflexivity.
Qed.

Lemma join_take_split_acc sep n cur s :
  Py.startswith (Py.join (String sep "") (take n (Py.split_acc sep cur s))) (cur +:+ s)
  = true.
Proof.
  revert n cur. induction s as [| c r IH]; intros n cur.
  - destruct n as [| n]; [apply startswith_empty |].
    cbn [Py.split_acc]. rewrite firstn_cons, take_nil.
    apply startswith_self_app.
  - cbn [Py.split_acc]. destruct (Ascii.eqb_spec c sep) as [-> | Hne].
    + destruct n as [| n]; [apply startswith_empty |].
      rewrite firstn_cons, join_cons.
      destruct (take n (Py.split_acc sep "" r)) as [| y l] eqn:E.
      * apply startswith_self_app.
      * apply startswith_app. rewrite <- E.
        change (String sep "" +:+ Py.join (String sep "") (take n (Py.split_acc sep "" r)))
          with (String sep (Py.join (String sep "") (take n (Py.split_acc sep "" r)))).
        cbn [Py.startswith]. rewrite Ascii.eqb_refl. apply (IH n "").
    + specialize (IH n (cur +:+ String c "")).
      by rewrite append_assoc in IH.
Qed.

Lemma slash_app (x : string) : "/" +:+ x = String "/" x.
Proof. reflexivity. Qed.

Lemma contains_char_cons x c a :
  Py.contains (String x "") (String c a)
  = Ascii.eqb x c || Py.contains (String x "") a.
Proof.
  change (Py.contains (String x "") (String c a))
    with ((Ascii.eqb x c && Py.startswith "" a) || Py.contains (String x "") a).
  by rewrite startswith_empty, andb_true_r.
Qed.

(** A string without the separator is one piece; up to the first
    separator it is the first piece. *)
Lemma split_acc_plain cur a :
  Py.contains "/" a = false -> Py.split_acc "/" cur a = [cur +:+ a].
Proof.
  revert cur. induction a as [| c a IH]; intros cur;
    [by rewrite append_empty_r |].
  rewrite contains_char_cons, (Ascii.eqb_sym "/" c).
  intros H. apply orb_false_iff in H as [Hc H].
  cbn [Py.split_acc]. rewrite Hc, (IH _ H), append_assoc. reflexivity.
Qed.

Lemma split_acc_first cur a r :
  Py.contains "/" a = false ->
  Py.split_acc "/" cur (a +:+ String "/" r) = (cur +:+ a) :: Py.split_acc "/" "" r.
Proof.
  revert cur. induction a as [| c a IH]; intros cur.
  - intros _. by rewrite append_empty_r.
  - rewrite contains_char_cons, (Ascii.eqb_sym "/" c).
    intros H. apply orb_false_iff in H as [Hc H].
    change (String c a +:+ String "/" r) with (String c (a +:+ String "/" r)).
    cbn [Py.split_acc]. rewrite Hc, (IH _ H), append_assoc. reflexivity.
Qed.

(** X1.  ['/'.join(url.split('/')[:3])] keeps the text of the URL up to
    its third slash: it is always a prefix of the URL, it is the whole
    URL when the URL has at most two slashes, and for
    [scheme//host/path] it is [scheme//host]. *)
Theorem base_url_is_origin :
  (forall u, Py.startswith (base_url u) u = true)
  /\ (forall a b c, Py.contains "/" a = false -> Py.contains "/" b = false ->
        Py.contains "/" c = false ->
        base_url (a +:+ "/" +:+ b +:+ "/" +:+ c) = a +:+ "/" +:+ b +:+ "/" +:+ c)
  /\ (forall a b c rest, Py.contains "/" a = false -> Py.contains "/" b = false ->
        Py.contains "/" c = false ->
        base_url (a +:+ "/" +:+ b +:+ "/" +:+ c +:+ "/" +:+ rest)
        = a +:+ "/" +:+ b +:+ "/" +:+ c).
Proof.
  split; [| split].
  - intros u. apply (join_take_split_acc "/" 3 "" u).
  - intros a b c Ha Hb Hc. unfold base_url, Py.split.
    rewrite !slash_app.
    rewrite (split_acc_first "" a _ Ha), (split_acc_first "" b _ Hb).
    rewrite (split_acc_plain "" c Hc). reflexivity.
  - intros a b c rest Ha Hb Hc. unfold base_url, Py.split.
    rewrite !slash_app.
    rewrite (split_acc_first "" a _ Ha), (split_acc_first "" b _ Hb).
    rewrite (split_acc_first "" c _ Hc).
    destruct (Py.split_acc "/" "" rest) eqn:E;
      [by apply split_acc_nonempty in E | reflexivity].
Qed.

Lemma base_url_is_origin_witness :
  base_url ("https:" +:+ "/" +:+ "" +:+ "/" +:+ "www.nta.ac.in" +:+ "/" +:+ "IMAT/slots")
  = "https://www.nta.ac.in".
Proof.
  apply (proj2 (proj2 base_url_is_origin) "https:" "" "www.nta.ac.in" "IMAT/slots");
    reflexivity.
Defined.

(** X2.  Link resolution leaves a link that starts with "http" as it is
    and prepends the origin of the entry URL to any other.  When the
    entry URL itself starts with "http", every resolved link starts with
    "http" and resolving it again changes nothing. *)
Theorem absolute_links :
  (forall imat href, Py.startswith "http" href = true -> absolute imat href = href)
  /\ (forall imat href, Py.startswith "http" href = false ->
        absolute imat href = base_url imat +:+ href)
  /\ (forall imat href, Py.startswith "http" (base_url imat) = true ->
        Py.startswith "http" (absolute imat href) = true
        /\ absolute imat (absolute imat href) = absolute imat href).
Proof.
  split; [| split].
  - intros imat href H. unfold absolute. by rewrite H.
  - intros imat href H. unfold absolute. by rewrite H.
  - intros imat href Hb.
    assert (H : Py.startswith "http" (absolute imat href) = true).
    { unfold absolute. destruct (Py.startswith "http" href) eqn:E; [exact E |].
      by apply startswith_weaken. }
    split; [exact H |]. unfold absolute at 1. by rewrite H.
Qed.

Lemma absolute_links_witness :
  absolute entry "/slots" = "https://www.nta.ac.in/slots"
  /\ absolute entry (absolute entry "/slots") = absolute entry "/slots".
Proof.
  split.
  - rewrite (proj1 (proj2 absolute_links) entry "/slots"); reflexivity.
  - apply (proj2 (proj2 absolute_links) entry "/slots"). reflexivity.
Defined.

End UrlFacts.

(* ===================================================================== *)
(** ** Form data and request headers *)
(* ===================================================================== *)

Module FormFacts.
Import Soup Extractor Session Loop Spec Examples.

Lemma dict_get_set_eq {V} k (v : V) d : dict_get k (dict_set k v d) = Some v.
Proof.
  induction d as [| [k' v'] d IH]; simpl; [by rewrite String.eqb_refl |].
  destruct (String.eqb k' k) eqn:E; simpl; [by rewrite String.eqb_refl |].
  by rewrite E.
Qed.

Lemma dict_get_set_ne {V} k k' (v : V) d :
  k <> k' -> dict_get k' (dict_set k v d) = dict_get k' d.
Proof.
  intros Hne. induction d as [| [k0 v0] d IH]; simpl.
  - by destruct (String.eqb_spec k k').
  - destruct (String.eqb_spec k0 k) as [-> | H0]; simpl.
    + by destruct (String.eqb_spec k k').
    + by rewrite IH.
Qed.

Lemma dict_get_set {V} k k' (v : V) d :
  dict_get k' (dict_set k v d) = if String.eqb k k' then Some v else dict_get k' d.
Proof.
  destruct (String.eqb_spec k k') as [-> | Hne];
    [apply dict_get_set_eq | by apply dict_get_set_ne].
Qed.

(** X3.  The submitted form data: every field holds the value of the
    last hidden input named after it, and a field no hidden input is
    named after keeps the value it had (so the credentials go out as
    configured unless the form has a hidden input called [username] or
    [password], which then replaces them). *)
Theorem add_hidden_last_wins :
  (forall hiddens data k,
      dict_get k (add_hidden hiddens data)
      = match last_hidden_value k hiddens with
        | Some v => Some (Some v)
        | None => dict_get k data
        end)
  /\ (forall hiddens data k,
         (forall hidden, hidden ∈ hiddens -> get_str hidden "name" <> Some k) ->
         dict_get k (add_hidden hiddens data) = dict_get k data)
  /\ (forall s form,
         (forall hidden, hidden ∈ hidden_inputs form ->
            get_str hidden "name" <> Some "username") ->
         dict_get "username" (req_data (login_request s form)) = Some (username s)).
Proof.
  assert (H1 : forall hiddens data k,
             dict_get k (add_hidden hiddens data)
             = match last_hidden_value k hiddens with
               | Some v => Some (Some v)
               | None => dict_get k data
               end).
  { induction hiddens as [| hidden rest IH]; intros data k; simpl; [reflexivity |].
    destruct (get_str hidden "name") as [name |]; [| rewrite IH; by destruct (last_hidden_value k rest)].
    destruct (Py.truthy name); simpl; [| rewrite IH; by destruct (last_hidden_value k rest)].
    rewrite IH. destruct (last_hidden_value k rest); [reflexivity |].
    rewrite dict_get_set. by destruct (String.eqb name k). }
  assert (H2 : forall hiddens k,
             (forall hidden, hidden ∈ hiddens -> get_str hidden "name" <> Some k) ->
             last_hidden_value k hiddens = None).
  { induction hiddens as [| hidden rest IH]; intros k Hn; simpl; [reflexivity |].
    rewrite IH by (intros h Hh; apply Hn; by right).
    specialize (Hn hidden (list_elem_of_here _ _)).
    destruct (get_str hidden "name") as [name |]; [| reflexivity].
    destruct (Py.truthy name); [| reflexivity]. simpl.
    destruct (String.eqb_spec name k) as [-> | _]; [by destruct Hn | reflexivity]. }
  split; [exact H1 | split].
  - intros hiddens data k Hn. by rewrite H1, (H2 _ _ Hn).
  - intros s form Hn. unfold login_request. simpl req_data.
    by rewrite H1, (H2 _ _ Hn).
Qed.

Lemma add_hidden_last_wins_witness :
  dict_get "username" (req_data (login_request site_down login_form)) = Some (Some "user")
  /\ dict_get "csrf" (req_data (login_request site_down login_form)) = Some (Some "t0k").
Proof.
  split.
  - apply (proj2 (proj2 add_hidden_last_wins) site_down login_form).
    intros hidden Hh. vm_compute in Hh.
    apply list_elem_of_singleton in Hh. subst hidden. discriminate.
  - unfold login_request. cbn [req_data].
    rewrite (proj1 add_hidden_last_wins). reflexivity.
Defined.

(** X4.  The headers of a request: the ten base headers are always
    there, with their User-Agent, Accept and Connection values; a form
    submission declares its content type, the origin of the entry URL
    and the entry URL as referer; a page load sends [Cache-Control], no
    content type and no origin, and it says [same-origin] and names the
    referer exactly when the session is initialized. *)
Theorem get_fresh_headers_by_kind :
  (forall form_submit s k v,
      k ∈ ["User-Agent"; "Accept"; "Accept-Language"; "Accept-Encoding";
           "Upgrade-Insecure-Requests"; "Connection"; "Sec-Fetch-Dest";
           "Sec-Fetch-Mode"; "Sec-Fetch-User"] ->
      dict_get k base_headers = Some v ->
      dict_get k (get_fresh_headers form_submit s) = Some v)
  /\ (forall s,
         let h := get_fresh_headers true s in
         dict_get "Content-Type" h = Some "application/x-www-form-urlencoded"
         /\ dict_get "Origin" h = Some (base_url (imat_url s))
         /\ dict_get "Referer" h = Some (imat_url s)
         /\ dict_get "Sec-Fetch-Site" h = Some "same-origin"
         /\ dict_get "Cache-Control" h = None)
  /\ (forall s,
         let h := get_fresh_headers false s in
         dict_get "Cache-Control" h = Some "max-age=0"
         /\ dict_get "Content-Type" h = None
         /\ dict_get "Origin" h = None
         /\ dict_get "Sec-Fetch-Site" h
            = Some (if session_initialized s then "same-origin" else "none")
         /\ dict_get "Referer" h
            = if session_initialized s then Some (imat_url s) else None).
Proof.
  split; [| split].
  - intros form_submit s k v Hk Hv.
    unfold get_fresh_headers.
    repeat (apply elem_of_cons in Hk as [-> | Hk]);
      try (by apply elem_of_nil in Hk);
      destruct form_submit, (session_initialized s);
      vm_compute in Hv; injection Hv as <-; reflexivity.
  - intros s. repeat split.
  - intros s. unfold get_fresh_headers.
    destruct (session_initialized s); repeat split.
Qed.

Lemma get_fresh_headers_by_kind_witness :
  dict_get "Connection" (get_fresh_headers false site_down) = Some "keep-alive".
Proof.
  apply (proj1 get_fresh_headers_by_kind false site_down "Connection").
  - repeat first [by left | right].
  - reflexivity.
Defined.

End FormFacts.

(* ===================================================================== *)
(** ** More on status extraction and change detection *)
(* ===================================================================== *)

Module ExtractorMore.
Import Soup Extractor Session Loop Spec Examples ExtractorFacts ChangeDetectorFacts.

Lemma lower_char_idem c : Py.lower_char (Py.lower_char c) = Py.lower_char c.
Proof. destruct c as [[] [] [] [] [] [] [] []]; reflexivity. Qed.

Lemma lower_idem s : Py.lower (Py.lower s) = Py.lower s.
Proof.
  induction s as [| c s IH]; simpl; [reflexivity |].
  by rewrite lower_char_idem, IH.
Qed.

Lemma any_color_truthy v : any_color v = true -> Py.truthy v = true.
Proof. destruct v; [discriminate | reflexivity]. Qed.

Lemma color_shape c :
  c = "red" \/ c = "green" \/ c = "yellow" ->
  any_color c = true /\ Py.lower c = c /\ Py.truthy c = true.
Proof. intros [-> | [-> | ->]]; repeat split. Qed.

Lemma color_is_status_value c :
  c = "red" \/ c = "green" \/ c = "yellow" -> is_status_value c.
Proof. intros [-> | [-> | ->]]; [by exists Red | by exists Green | by exists Yellow]. Qed.

Lemma scan_attrs_shape attrs v :
  scan_attrs attrs = Some v ->
  any_color v = true /\ Py.lower v = v /\ Py.truthy v = true.
Proof.
  induction attrs as [| [attr_name attr_value] rest IH]; simpl; [discriminate |].
  destruct (_ || _); [| exact IH].
  destruct (any_color (Py.lower (py_str attr_value))) eqn:E; [| exact IH].
  intros [= <-]. split; [exact E |]. split; [apply lower_idem |].
  by apply any_color_truthy.
Qed.

(** Where the answer of [extract_status_from_element] comes from *)
Lemma extract_status_sources element st :
  extract_status_from_element element = Return (Some st) ->
  (st = "red" \/ st = "green" \/ st = "yellow")
  \/ scan_attrs (tag_attrs element) = Some st.
Proof.
  unfold extract_status_from_element.
  destruct (scan_classes (class_tokens element)) as [c |] eqn:Ec.
  { intros [= <-]. left. by apply (scan_classes_color _ _ Ec). }
  assert (Hattrs : match scan_attrs (tag_attrs element) with
                   | Some v => Return (Some v)
                   | None => Return None
                   end = Return (Some st) ->
                   (st = "red" \/ st = "green" \/ st = "yellow")
                   \/ scan_attrs (tag_attrs element) = Some st).
  { destruct (scan_attrs (tag_attrs element)); intros [= <-]. by right. }
  destruct (get element "style") as [[style | [| x l]] |]; try exact Hattrs;
    [| discriminate].
  destruct (Py.truthy style); [| exact Hattrs].
  destruct (scan_style style) as [c |] eqn:Es; [| exact Hattrs].
  intros [= <-]. left. by apply (scan_style_color _ _ Es).
Qed.

Lemma scan_elements_source elements st :
  scan_elements elements = Return (Some st) ->
  exists element, element ∈ elements
                  /\ extract_status_from_element element = Return (Some st).
Proof.
  induction elements as [| element rest IH]; simpl; [discriminate |].
  destruct (extract_status_from_element element) as [[s |] |] eqn:E; [| | discriminate].
  - destruct (Py.truthy s).
    + intros [= <-]. exists element. split; [left | exact E].
    + intros H. destruct (IH H) as (el & Hel & He). exists el. split; [by right | exact He].
  - intros H. destruct (IH H) as (el & Hel & He). exists el. split; [by right | exact He].
Qed.

Lemma scan_patterns_source sp patterns st :
  scan_patterns sp patterns = Some st ->
  exists element, element ∈ descendants sp
                  /\ extract_status_from_element element = Return (Some st).
Proof.
  induction patterns as [| pattern rest IH]; simpl; [discriminate |].
  destruct (scan_elements (select sp pattern)) as [[s |] |] eqn:E; try exact IH.
  intros [= <-]. destruct (scan_elements_source _ _ E) as (el & Hel & He).
  exists el. split; [| exact He].
  unfold select in Hel. apply list_elem_of_In, filter_In in Hel as [Hel _].
  by apply list_elem_of_In.
Qed.

Lemma scan_keywords_color text c :
  scan_keywords status_keywords text = Some c ->
  c = "red" \/ c = "green" \/ c = "yellow".
Proof.
  unfold status_keywords, scan_keywords.
  repeat (match goal with |- context [if ?b then _ else _] => destruct b end;
          [intros [= <-]; auto |]).
  discriminate.
Qed.

(** X5.  Every value [detect_city_status] gives, and hence every value
    of a snapshot, is ['unknown'] or a non-empty lower-case string that
    contains "red", "green" or "yellow"; the test [if status:] therefore
    never drops a status an element gave. *)
Theorem snapshot_values_status_like :
  (forall element st,
      extract_status_from_element element = Return (Some st) ->
      any_color st = true /\ Py.lower st = st /\ Py.truthy st = true)
  /\ (forall sp c, status_like (detect_city_status sp c))
  /\ (forall cities html_content c v,
         analyze_slot_status cities html_content !! c = Some v -> status_like v).
Proof.
  assert (H1 : forall element st,
             extract_status_from_element element = Return (Some st) ->
             any_color st = true /\ Py.lower st = st /\ Py.truthy st = true).
  { intros element st H.
    destruct (extract_status_sources _ _ H) as [Hc | Ha];
      [by apply color_shape | by apply (scan_attrs_shape (tag_attrs element))]. }
  assert (H2 : forall sp c, status_like (detect_city_status sp c)).
  { intros sp c. unfold detect_city_status.
    destruct (scan_patterns sp (city_patterns c)) as [st |] eqn:E.
    - destruct (scan_patterns_source _ _ _ E) as (el & _ & He).
      right. by apply (H1 el).
    - destruct (Py.contains c _); [| by left].
      destruct (scan_keywords _ _) as [col |] eqn:Ek; [| by left].
      right. apply color_shape. by apply (scan_keywords_color _ _ Ek). }
  split; [exact H1 | split; [exact H2 |]].
  intros cities [h |] c v; simpl; [| by rewrite lookup_empty].
  destruct (Py.truthy (html_text h)) eqn:Ht; [| by rewrite lookup_empty].
  pose proof (analyze_slot_status_lookup cities h c Ht) as Hl.
  unfold analyze_slot_status in Hl. rewrite Ht in Hl. rewrite Hl.
  destruct (decide (c ∈ cities)); [| discriminate].
  intros [= <-]. apply H2.
Qed.

Lemma snapshot_values_status_like_witness :
  status_like "red-zone"
  /\ analyze_slot_status ["chennai"; "delhi"] (Some red_zone_page) !! "chennai"
     = Some "red-zone".
Proof.
  assert (H : analyze_slot_status ["chennai"; "delhi"] (Some red_zone_page) !! "chennai"
              = Some "red-zone") by reflexivity.
  split; [| exact H].
  exact (proj2 (proj2 snapshot_values_status_like) _ _ _ _ H).
Defined.

(** X6.  On a page none of whose tags has an attribute that the
    attribute rule answers to (a name containing "status" or "color" with
    a colour word in the value), every detected value is one of the four
    status values, and so is every value of the snapshot. *)
Theorem status_values_without_status_attributes sp :
  no_status_attribute sp ->
  (forall c, is_status_value (detect_city_status sp c))
  /\ (forall cities text c v,
         analyze_slot_status cities (Some {| html_text := text; html_soup := sp |}) !! c
         = Some v ->
         is_status_value v).
Proof.
  intros Hno.
  assert (H : forall c, is_status_value (detect_city_status sp c)).
  { intros c. unfold detect_city_status.
    destruct (scan_patterns sp (city_patterns c)) as [st |] eqn:E.
    - destruct (scan_patterns_source _ _ _ E) as (el & Hel & He).
      destruct (extract_status_sources _ _ He) as [Hc | Ha].
      + by apply color_is_status_value.
      + rewrite (Hno el Hel) in Ha. discriminate.
    - destruct (Py.contains c _); [| by exists Unknown].
      destruct (scan_keywords _ _) as [col |] eqn:Ek; [| by exists Unknown].
      apply color_is_status_value. by apply (scan_keywords_color _ _ Ek). }
  split; [exact H |].
  intros cities text c v. simpl.
  destruct (Py.truthy text) eqn:Ht; [| by rewrite lookup_empty].
  rewrite (lookup_foldl_insert (detect_city_status sp)).
  destruct (decide (c ∈ cities)); [| by rewrite lookup_empty].
  intros [= <-]. apply H.
Qed.

Lemma status_values_without_status_attributes_witness :
  is_status_value (detect_city_status delhi_available "delhi").
Proof.
  apply (status_values_without_status_attributes delhi_available).
  intros element Hel. vm_compute in Hel.
  apply list_elem_of_singleton in Hel. subst element. reflexivity.
Defined.

(** *** The class rule *)

Lemma any_color_token class_name :
  any_color (Py.lower class_name) = true ->
  (if Py.contains "red" (Py.lower class_name) then Some "red"
   else if Py.contains "green" (Py.lower class_name) then Some "green"
   else if Py.contains "yellow" (Py.lower class_name) then Some "yellow"
   else None) = Some (token_color class_name).
Proof.
  unfold any_color, token_color. simpl existsb.
  destruct (Py.contains "red" _); [reflexivity |].
  destruct (Py.contains "green" _); [reflexivity |].
  destruct (Py.contains "yellow" _); [reflexivity | discriminate].
Qed.

Lemma scan_classes_first pre tok post :
  (forall t, t ∈ pre -> any_color (Py.lower t) = false) ->
  any_color (Py.lower tok) = true ->
  scan_classes (pre ++ tok :: post) = Some (token_color tok).
Proof.
  intros Hpre Htok. induction pre as [| t pre IH]; simpl.
  - rewrite Htok. pose proof (any_color_token tok Htok) as H.
    destruct (Py.contains "red" _); [exact H |].
    destruct (Py.contains "green" _); [exact H |].
    destruct (Py.contains "yellow" _); [exact H | discriminate].
  - rewrite (Hpre t) by left. apply IH. intros t' Ht'. apply Hpre. by right.
Qed.

(** X7.  The class rule comes first and reads the class tokens in
    order: the first token with a colour word in it decides, red before
    green before yellow within that token, whatever the later tokens, the
    style and the other attributes of the element say. *)
Theorem class_rule_decides element pre tok post :
  class_tokens element = pre ++ tok :: post ->
  (forall t, t ∈ pre -> any_color (Py.lower t) = false) ->
  any_color (Py.lower tok) = true ->
  extract_status_from_element element = Return (Some (token_color tok)).
Proof.
  intros Hc Hpre Htok. unfold extract_status_from_element.
  by rewrite Hc, (scan_classes_first _ _ _ Hpre Htok).
Qed.

Lemma class_rule_decides_witness :
  extract_status_from_element
    (Tag "span" [("class", AList ["slot"; "Green-Red"; "yellow"]);
                 ("style", AStr "color: yellow"); ("data-status", AStr "green")] [])
  = Return (Some "red").
Proof.
  apply (class_rule_decides _ ["slot"] "Green-Red" ["yellow"]).
  - reflexivity.
  - intros t Ht. apply list_elem_of_singleton in Ht. by subst t.
  - reflexivity.
Defined.

(** *** Change detection *)

Lemma length_omap_le {A B} (f : A -> option B) (l : list A) :
  length (omap f l) <= length l.
Proof.
  induction l as [| x l IH]; csimpl; [lia |].
  destruct (f x); simpl; lia.
Qed.

(** X8.  [check_for_changes] reports at most one transition per
    category, never more entries than the current snapshot has, and each
    entry carries the two values it was decided on: ['red'] before, and
    the current ['yellow'] or ['green'] of its category. *)
Theorem check_for_changes_one_per_city (previous_state current_status : gmap string string) :
  NoDup (city <$> check_for_changes previous_state current_status)
  /\ length (check_for_changes previous_state current_status) <= size current_status
  /\ (forall chg, chg ∈ check_for_changes previous_state current_status ->
        previous chg = "red"
        /\ previous_state !! city chg = Some "red"
        /\ current_status !! city chg = Some (current chg)
        /\ (current chg = "yellow" \/ current chg = "green")).
Proof.
  split; [| split].
  - unfold check_for_changes.
    pose proof (NoDup_fst_map_to_list current_status) as Hnd.
    induction (map_to_list current_status) as [| [k v] l IH]; simpl; [constructor |].
    apply NoDup_cons in Hnd as [Hk Hnd]. specialize (IH Hnd).
    destruct (_ && _); [| exact IH].
    simpl. apply NoDup_cons. split; [| exact IH].
    intros Hin. apply Hk.
    apply list_elem_of_fmap in Hin as (chg & Hc & Hin).
    apply list_elem_of_omap in Hin as ([k' v'] & Hin' & Hf).
    destruct (_ && _); [| discriminate]. injection Hf as <-. simpl in Hc. subst k'.
    apply list_elem_of_fmap. by exists (k, v').
  - rewrite <- length_map_to_list. unfold check_for_changes.
    apply length_omap_le.
  - intros [c p v] Hin. simpl.
    apply elem_of_check_for_changes in Hin as (Hcur & Hprev & -> & Hv).
    split; [reflexivity |]. split; [| split; [exact Hcur | exact Hv]].
    destruct (previous_state !! c) as [x |]; simpl in Hprev; [by subst | discriminate].
Qed.

Lemma check_for_changes_one_per_city_witness :
  (length (check_for_changes {[ "chennai" := "red"; "delhi" := "red" ]}
                             {[ "chennai" := "green"; "delhi" := "yellow" ]}) <= 2)%nat.
Proof.
  exact (proj1 (proj2 (check_for_changes_one_per_city
                         {[ "chennai" := "red"; "delhi" := "red" ]}
                         {[ "chennai" := "green"; "delhi" := "yellow" ]}))).
Defined.

(** *** The text patterns reach the wrappers *)

Lemma descendants_root name attrs contents :
  exists rest, descendants [Tag name attrs contents] = Tag name attrs contents :: rest.
Proof. unfold descendants. simpl. by eexists. Qed.

(** X22.  The patterns that look for the city name in the text of an
    element also select every element around that text, outermost first.
    On a page with one root element whose text contains the title-cased
    city name, when no element with the city in its class or id gives a
    status, a status found on the root element itself (its class, style
    or attributes) becomes the status of the city, before any element
    nearer to the name and before the keywords of the text are looked
    at. *)
Theorem wrapper_decides name attrs contents c st :
  scan_elements (select [Tag name attrs contents] (SelClassContains c)) = Return None ->
  scan_elements (select [Tag name attrs contents] (SelIdContains c)) = Return None ->
  Py.contains (Py.title c) (node_text (Tag name attrs contents)) = true ->
  extract_status_from_element (Tag name attrs contents) = Return (Some st) ->
  detect_city_status [Tag name attrs contents] c = st.
Proof.
  intros Hclass Hid Htext Hst. set (root := Tag name attrs contents) in *.
  unfold detect_city_status, city_patterns.
  cbn [scan_patterns]. rewrite Hclass, Hid.
  destruct (descendants_root name attrs contents) as [rest Hd].
  assert (Hsel : exists rest', select [root] (SelContains (Py.title c)) = root :: rest').
  { unfold select. fold root in Hd. rewrite Hd. cbn [List.filter].
    unfold matches at 1. rewrite Htext. by eexists. }
  destruct Hsel as [rest' ->]. cbn [scan_elements]. rewrite Hst.
  assert (Ht : Py.truthy st = true).
  { destruct (extract_status_sources _ _ Hst) as [Hc | Ha];
      [by apply color_shape | by apply (scan_attrs_shape (tag_attrs root))]. }
  by rewrite Ht.
Qed.

Lemma wrapper_decides_witness :
  detect_city_status [themed_wrapper] "delhi" = "green".
Proof.
  apply (wrapper_decides "div" [("class", AList ["page"; "theme-green"])]
           [ Tag "p" [] [NavigableString "Chennai: full"];
             Tag "p" [] [NavigableString "Delhi: full"] ] "delhi" "green");
    reflexivity.
Defined.

End ExtractorMore.

(* ===================================================================== *)
(** ** More on the session manager *)
(* ===================================================================== *)

Module SessionMore.
Import Soup Extractor Session Loop Spec Examples SessionFacts.
Local Open Scope session_scope.

(** *** Everything inside a fetch makes inner steps *)

Lemma sub_steps_inner_steps s s' : rtc sub_step s s' -> rtc inner_step s s'.
Proof.
  induction 1 as [| s1 s2 s3 H _ IH]; [reflexivity |].
  eapply rtc_l; [apply inner_sub, H | exact IH].
Qed.

Lemma preserves_sub_inner {A} (m : M A) :
  preserves (rtc sub_step) m -> preserves (rtc inner_step) m.
Proof. intros H s. apply sub_steps_inner_steps, H. Qed.

Lemma inner_steps_modify (f : state -> state) :
  (forall s, inner_step s (f s)) -> preserves (rtc inner_step) (modify f).
Proof. intros H s. apply rtc_once, H. Qed.

Create HintDb inner discriminated.

#[local] Hint Extern 1 (preserves (rtc inner_step) (modify _)) =>
  apply inner_steps_modify; intros ?; constructor; constructor : inner.
#[local] Hint Extern 1 (preserves (rtc inner_step) (emit _)) =>
  apply inner_steps_modify; intros ?; constructor : inner.
#[local] Hint Extern 1 (preserves (rtc inner_step) (sleep _)) =>
  apply inner_steps_modify; intros ?; constructor : inner.
#[local] Hint Extern 1 (preserves (rtc inner_step) (modify _)) =>
  apply inner_steps_modify; intros ?; constructor : inner.
#[local] Hint Extern 2 (preserves (rtc inner_step) _) =>
  apply preserves_sub_inner;
  first [ apply sub_steps_login_to_system | apply sub_steps_select_country
        | apply sub_steps_navigate_to_slot_page | apply sub_steps_http ] : inner.

Ltac inner_steps :=
  repeat first [ solve [auto 2 with inner nocore] | preserves_shape ].

Lemma inner_steps_initialize_session : preserves (rtc inner_step) initialize_session.
Proof. unfold initialize_session. inner_steps. Qed.
#[local] Hint Resolve inner_steps_initialize_session : inner.

Lemma inner_steps_maintain_session : preserves (rtc inner_step) maintain_session.
Proof. unfold maintain_session, session_get. inner_steps. Qed.
#[local] Hint Resolve inner_steps_maintain_session : inner.

Lemma inner_steps_fetch_target : preserves (rtc inner_step) fetch_target.
Proof. unfold fetch_target, retry, session_get. inner_steps. Qed.

Lemma inner_steps_fetch_preamble : preserves (rtc inner_step) fetch_preamble.
Proof. unfold fetch_preamble. inner_steps. Qed.

Lemma inner_steps_recover : preserves (rtc inner_step) recover.
Proof. unfold recover, session_get. inner_steps. Qed.
#[local] Hint Resolve inner_steps_fetch_target inner_steps_fetch_preamble
  inner_steps_recover : inner.

Lemma inner_frame_refl s : inner_frame s s.
Proof. split; auto using extends_by_refl. Qed.

Lemma inner_frame_trans s1 s2 s3 :
  inner_frame s1 s2 -> inner_frame s2 s3 -> inner_frame s1 s3.
Proof.
  intros [] []. split; try congruence; auto.
  eapply extends_by_trans; eassumption.
Qed.

Lemma inner_steps_frame s s' : rtc inner_step s s' -> inner_frame s s'.
Proof.
  induction 1 as [s | s1 s2 s3 H _ IH]; [apply inner_frame_refl |].
  apply (inner_frame_trans _ s2); [| exact IH]. clear IH.
  destruct H as [s s' H | s | s | s n].
  - destruct H; split; simpl; auto using extends_by_same.
    by apply extends_by_one.
  - split; simpl; auto. by apply extends_by_one.
  - split; simpl; auto using extends_by_same.
  - split; simpl; auto. by apply extends_by_one.
Qed.

Lemma telegrams_quiet evs :
  forallb (fun e => negb (is_telegram e)) evs = true -> telegrams evs = [].
Proof.
  unfold telegrams. induction evs as [| e evs IH]; [reflexivity |].
  simpl. intros Hq. apply andb_true_iff in Hq as [He Hq].
  destruct e; csimpl; try (by apply IH). discriminate.
Qed.

Lemma telegrams_app tr evs : telegrams (tr ++ evs) = telegrams tr ++ telegrams evs.
Proof. unfold telegrams. apply omap_app. Qed.

(** After the counter is incremented a fetch only makes inner steps. *)
Lemma get_page_content_inner s result s' :
  get_page_content s = (Ok result, s') -> inner_frame (counted s) s'.
Proof.
  intros Hg. apply inner_steps_frame.
  assert (Hp : preserves (rtc inner_step)
                 (try_except
                    (ready <- fetch_preamble ;;
                     if ready then fetch_target else ret None) fetch_handler)).
  { unfold fetch_handler. inner_steps. }
  specialize (Hp (counted s)).
  unfold get_page_content in Hg.
  erewrite bind_ok in Hg by (unfold modify; reflexivity).
  change (try_except
            (ready <- fetch_preamble ;; if ready then fetch_target else ret None)
            fetch_handler (counted s) = (Ok result, s')) in Hg.
  by rewrite Hg in Hp.
Qed.

(** X9.  A call of [get_page_content] never raises, whatever the site
    does; it advances [request_counter] by exactly one, leaves the entry
    URL, the credentials, the city list and the previous snapshot as they
    were, never clears [is_logged_in], [country_selected] or
    [session_initialized], and sends no Telegram message. *)
Theorem get_page_content_frame s :
  exists result s',
    get_page_content s = (Ok result, s')
    /\ request_counter s' = (request_counter s + 1)%Z
    /\ imat_url s' = imat_url s
    /\ username s' = username s /\ password s' = password s
    /\ cities s' = cities s
    /\ previous_state s' = previous_state s
    /\ (is_logged_in s = true -> is_logged_in s' = true)
    /\ (country_selected s = true -> country_selected s' = true)
    /\ (session_initialized s = true -> session_initialized s' = true)
    /\ telegrams (trace s') = telegrams (trace s).
Proof.
  destruct (returns_get_page_content s) as [result Hr].
  destruct (get_page_content s) as [r s'] eqn:Hg. simpl in Hr. subst r.
  exists result, s'. split; [reflexivity |].
  destruct (get_page_content_inner _ _ _ Hg) as [? ? ? ? ? ? ? ? ? (evs & Ht & Hq)].
  simpl in *. repeat split; try assumption.
  by rewrite Ht, telegrams_app, (telegrams_quiet _ Hq), app_nil_r.
Qed.

(** *** The paths of a fetch *)

(** In an initialized session, away from every fifth request, the
    preamble does nothing. *)
Lemma at_main_request_running s :
  session_initialized s = true ->
  ((request_counter s + 1) mod 5 =? 0)%Z = false ->
  at_main_request s (counted s).
Proof.
  intros Hi Hc. unfold at_main_request, fetch_preamble.
  run_gets. cbn [session_initialized set_request_counter]. rewrite Hi.
  erewrite bind_ok by reflexivity. cbn [negb].
  run_gets. cbn [request_counter set_request_counter]. by rewrite Hc.
Qed.

(** X10.  In an initialized session, away from every fifth request, a
    fetch whose answer passes [raise_for_status] and shows no expiry in
    its final URL costs exactly one request, a GET with a timeout of 20
    seconds of the recorded slot URL (of the entry URL when none is
    recorded or the recorded one is empty), and returns the page of that
    answer. *)
Theorem healthy_fetch_one_request s r rest :
  session_initialized s = true ->
  ((request_counter s + 1) mod 5 =? 0)%Z = false ->
  network s = Reply r :: rest ->
  status_ok r ->
  expired (url r) = false ->
  get_page_content s
  = (Ok (Some (body r)),
     answered {| req_method := GET;
                 req_url := match slot_booking_url s with
                            | Some u => if String.eqb u "" then imat_url s else u
                            | None => imat_url s
                            end;
                 req_data := [];
                 req_timeout := Some 20%Z |}
              rest (counted s)).
Proof.
  intros Hi Hc Hn Hs He.
  rewrite (get_page_content_at_main _ _ (at_main_request_running _ Hi Hc)).
  erewrite try_except_ok; [reflexivity |].
  unfold fetch_target. run_gets. unfold session_get.
  erewrite bind_ok by (by apply http_reply).
  erewrite bind_ok by (by apply raise_for_status_ok).
  by rewrite He.
Qed.

Lemma healthy_fetch_one_request_witness :
  fst (get_page_content healthy) = Ok (Some delhi_page)
  /\ get_page_content (on_slot_page [ replies 200 slots_url delhi_page ])
     = (Ok (Some delhi_page),
        answered {| req_method := GET; req_url := slots_url; req_data := [];
                    req_timeout := Some 20%Z |}
                 [] (counted (on_slot_page [ replies 200 slots_url delhi_page ]))).
Proof.
  split.
  - rewrite (healthy_fetch_one_request healthy
               {| status_code := 200; url := entry; body := delhi_page |} []).
    + reflexivity.
    + reflexivity.
    + reflexivity.
    + reflexivity.
    + unfold status_ok. simpl. lia.
    + reflexivity.
  - apply (healthy_fetch_one_request (on_slot_page [ replies 200 slots_url delhi_page ])
             {| status_code := 200; url := slots_url; body := delhi_page |} []).
    + reflexivity.
    + reflexivity.
    + reflexivity.
    + unfold status_ok. simpl. lia.
    + reflexivity.
Defined.

(** The recovery, step by step *)
Lemma recover_run s1 :
  exists b s2 evs,
    initialize_session s1 = (Ok b, s2)
    /\ trace s2 = trace s1 ++ EvInitialize :: evs
    /\ forallb is_request evs = true
    /\ if b then
         exists s3,
           recover s1 = (Ok (recovered s2), s3)
           /\ trace s3 = trace s2 ++ [EvSleep 3; EvRequest (recovery_request s2)]
       else recover s1 = (Ok None, s2).
Proof.
  destruct (returns_initialize_session s1) as [b Hb].
  destruct (initialize_session_trace s1) as (evs & Ht & Hreq).
  destruct (initialize_session s1) as [res s2] eqn:Hinit.
  simpl in Hb, Ht. subst res.
  exists b, s2, evs. split; [reflexivity |]. split; [exact Ht |].
  split; [exact Hreq |].
  destruct b.
  - set (s2' := set_trace (trace s2 ++ [EvSleep 3]) s2).
    assert (Htr : trace s2 ++ [EvSleep 3; EvRequest (recovery_request s2)]
                  = trace s2' ++ [EvRequest (recovery_request s2)]).
    { simpl. by rewrite <- app_assoc. }
    unfold recovered.
    destruct (network s2) as [| [r2 | e] rest2] eqn:Hn.
    + eexists. split.
      * unfold recover. erewrite try_except_exc; [reflexivity |].
        erewrite bind_ok by exact Hinit. cbv beta iota.
        erewrite bind_ok by (unfold sleep, emit, modify; reflexivity).
        run_gets. unfold session_get.
        erewrite bind_exc; [reflexivity |].
        unfold http. erewrite bind_ok by (unfold emit, modify; reflexivity).
        cbn [network set_trace]. rewrite Hn. reflexivity.
      * simpl. by rewrite <- app_assoc.
    + destruct ((400 <=? status_code r2)%Z && (status_code r2 <? 600)%Z) eqn:Hst.
      * eexists. split.
        -- unfold recover. erewrite try_except_exc; [reflexivity |].
           erewrite bind_ok by exact Hinit. cbv beta iota.
           erewrite bind_ok by (unfold sleep, emit, modify; reflexivity).
           run_gets. unfold session_get.
           erewrite bind_ok by (apply http_reply; exact Hn).
           erewrite bind_exc; [reflexivity |].
           unfold raise_for_status. rewrite Hst. reflexivity.
        -- simpl. by rewrite <- app_assoc.
      * eexists. split.
        -- unfold recover. erewrite try_except_ok; [reflexivity |].
           erewrite bind_ok by exact Hinit. cbv beta iota.
           erewrite bind_ok by (unfold sleep, emit, modify; reflexivity).
           run_gets. unfold session_get.
           erewrite bind_ok by (apply http_reply; exact Hn).
           erewrite bind_ok by (unfold raise_for_status; rewrite Hst; reflexivity).
           reflexivity.
        -- simpl. by rewrite <- app_assoc.
    + eexists. split.
      * unfold recover. erewrite try_except_exc; [reflexivity |].
        erewrite bind_ok by exact Hinit. cbv beta iota.
        erewrite bind_ok by (unfold sleep, emit, modify; reflexivity).
        run_gets. unfold session_get.
        erewrite bind_exc; [reflexivity |].
        apply http_fails. exact Hn.
      * simpl. by rewrite <- app_assoc.
  - unfold recover. erewrite try_except_ok; [reflexivity |].
    erewrite bind_ok by exact Hinit. reflexivity.
Qed.

(** X11.  When the main request fails at transport level or comes back
    with an HTTP error status, the fetch recovers exactly once: it runs
    [initialize_session] once; if that returns [False] the fetch returns
    [None]; otherwise it sleeps 3 seconds, repeats the GET once with a
    timeout of 25 seconds, and returns that page if the answer passes
    [raise_for_status], [None] if not.  An exception of any other kind
    ends the fetch with [None] at once. *)
Theorem failed_fetch_recovers_once s s0 rest :
  at_main_request s s0 ->
  (main_request_fails s0 rest ->
   exists b s2 evs,
     initialize_session (after_main_request s0 rest) = (Ok b, s2)
     /\ trace s2 = trace s0 ++ EvRequest (main_request s0) :: EvInitialize :: evs
     /\ forallb is_request evs = true
     /\ if b then
          exists s3,
            get_page_content s = (Ok (recovered s2), s3)
            /\ trace s3 = trace s2 ++ [EvSleep 3; EvRequest (recovery_request s2)]
        else get_page_content s = (Ok None, s2))
  /\ (network s0 = Fails OtherException :: rest ->
      get_page_content s = (Ok None, after_main_request s0 rest)).
Proof.
  intros Hmain. rewrite (get_page_content_at_main _ _ Hmain). split.
  - intros Hfail.
    assert (Hrec : try_except fetch_target fetch_handler s0
                   = recover (after_main_request s0 rest)).
    { destruct Hfail as [Hn | (r & Hn & Hst)].
      - erewrite try_except_exc; cycle 1.
        { unfold fetch_target. run_gets. unfold session_get.
          erewrite bind_exc; [reflexivity |]. by apply http_fails. }
        reflexivity.
      - erewrite try_except_exc; cycle 1.
        { unfold fetch_target. run_gets. unfold session_get.
          erewrite bind_ok by (by apply http_reply).
          erewrite bind_exc; [reflexivity |].
          unfold raise_for_status.
          destruct (Z.leb_spec 400 (status_code r)); [| lia].
          destruct (Z.ltb_spec (status_code r) 600); [| lia]. reflexivity. }
        reflexivity. }
    rewrite Hrec.
    destruct (recover_run (after_main_request s0 rest)) as (b & s2 & evs & Hi & Ht & Hq & Hres).
    exists b, s2, evs. split; [exact Hi |]. split.
    { rewrite Ht. simpl. by rewrite <- app_assoc. }
    split; [exact Hq | exact Hres].
  - intros Hn. erewrite try_except_exc; cycle 1.
    { unfold fetch_target. run_gets. unfold session_get.
      erewrite bind_exc; [reflexivity |]. by apply http_fails. }
    reflexivity.
Qed.

Lemma failed_fetch_recovers_once_witness :
  exists b s2 evs,
    initialize_session
      (after_main_request (counted dropped_once)
         [ replies 200 entry plain_page; replies 200 entry plain_page;
           replies 200 entry plain_page ]) = (Ok b, s2)
    /\ trace s2 = trace (counted dropped_once)
                  ++ EvRequest (main_request (counted dropped_once))
                     :: EvInitialize :: evs
    /\ forallb is_request evs = true
    /\ if b then
         exists s3,
           get_page_content dropped_once = (Ok (recovered s2), s3)
           /\ trace s3 = trace s2 ++ [EvSleep 3; EvRequest (recovery_request s2)]
       else get_page_content dropped_once = (Ok None, s2).
Proof.
  apply (proj1 (failed_fetch_recovers_once dropped_once (counted dropped_once) _
                  (at_main_request_running dropped_once eq_refl eq_refl))).
  left. reflexivity.
Defined.

(** *** Maintenance *)

Lemma maintain_session_fails s e rest :
  network s = Fails e :: rest ->
  maintain_session s = (Ok false, answered (maintenance_request s) rest s).
Proof.
  intros Hn. unfold maintain_session.
  erewrite try_except_exc; cycle 1.
  { run_gets. unfold session_get. erewrite bind_exc; [reflexivity |].
    by apply http_fails. }
  reflexivity.
Qed.

Lemma maintain_session_alive s r rest :
  network s = Reply r :: rest -> expired (url r) = false ->
  maintain_session s = (Ok true, answered (maintenance_request s) rest s).
Proof.
  intros Hn He. unfold maintain_session.
  erewrite try_except_ok; [reflexivity |].
  run_gets. unfold session_get. erewrite bind_ok by (by apply http_reply).
  by rewrite He.
Qed.

Lemma maintain_session_expired s r rest :
  network s = Reply r :: rest -> expired (url r) = true ->
  maintain_session s = initialize_session (answered (maintenance_request s) rest s).
Proof.
  intros Hn He. unfold maintain_session.
  destruct (returns_initialize_session (answered (maintenance_request s) rest s))
    as [b Hb].
  destruct (initialize_session (answered (maintenance_request s) rest s))
    as [res s'] eqn:Hi.
  simpl in Hb. subst res.
  erewrite try_except_ok; [reflexivity |].
  run_gets. unfold session_get. erewrite bind_ok by (by apply http_reply).
  rewrite He. exact Hi.
Qed.

(** X12.  [maintain_session] makes one GET without a timeout, of the
    recorded slot URL, or of the entry URL when none is recorded or the
    recorded one is empty.  A transport failure gives [False]; an answer
    whose final URL shows no expiry gives [True] with nothing else done,
    whatever its status code; an answer whose final URL contains
    "login", "signin" or "country" hands over to [initialize_session],
    whose result is returned. *)
Theorem maintain_session_cases s :
  let request :=
    {| req_method := GET;
       req_url := match slot_booking_url s with
                  | Some u => if String.eqb u "" then imat_url s else u
                  | None => imat_url s
                  end;
       req_data := [];
       req_timeout := None |} in
  (forall e rest, network s = Fails e :: rest ->
     maintain_session s = (Ok false, answered request rest s))
  /\ (forall r rest, network s = Reply r :: rest -> expired (url r) = false ->
        maintain_session s = (Ok true, answered request rest s))
  /\ (forall r rest, network s = Reply r :: rest -> expired (url r) = true ->
        maintain_session s = initialize_session (answered request rest s)).
Proof.
  split; [| split].
  - apply maintain_session_fails.
  - apply maintain_session_alive.
  - apply maintain_session_expired.
Qed.

Lemma maintain_session_cases_witness :
  maintain_session (on_slot_page [ Fails RequestException ])
  = (Ok false,
     answered {| req_method := GET; req_url := slots_url; req_data := [];
                 req_timeout := None |} []
       (on_slot_page [ Fails RequestException ])).
Proof.
  apply (proj1 (maintain_session_cases (on_slot_page [ Fails RequestException ]))
           RequestException []).
  reflexivity.
Defined.

(** X13.  On every fifth request of an initialized session the fetch
    starts with the maintenance GET.  If that GET fails at transport
    level the fetch returns [None] after this one request: the main
    request is not made and no recovery is attempted.  If it is answered
    without a sign of expiry, the main request follows. *)
Theorem fifth_request_maintains s :
  session_initialized s = true ->
  ((request_counter s + 1) mod 5 =? 0)%Z = true ->
  (forall e rest, network s = Fails e :: rest ->
     get_page_content s
     = (Ok None, answered (maintenance_request (counted s)) rest (counted s)))
  /\ (forall r rest, network s = Reply r :: rest -> expired (url r) = false ->
        at_main_request s (answered (maintenance_request (counted s)) rest (counted s))).
Proof.
  intros Hi Hc.
  assert (Hpre : forall b s1, maintain_session (counted s) = (Ok b, s1) ->
                 fetch_preamble (counted s) = (Ok b, s1)).
  { intros b s1 Hm. unfold fetch_preamble.
    run_gets. cbn [session_initialized set_request_counter counted]. rewrite Hi.
    erewrite bind_ok by reflexivity. cbn [negb].
    run_gets. cbn [request_counter set_request_counter counted]. by rewrite Hc. }
  split.
  - intros e rest Hn.
    pose proof (maintain_session_fails (counted s) e rest Hn) as Hm.
    unfold get_page_content.
    erewrite bind_ok by (unfold modify; reflexivity).
    erewrite try_except_ok; [reflexivity |].
    erewrite bind_ok by exact (Hpre _ _ Hm). reflexivity.
  - intros r rest Hn He.
    exact (Hpre _ _ (maintain_session_alive (counted s) r rest Hn He)).
Qed.

Lemma fifth_request_maintains_witness :
  get_page_content (fifth_request [ Fails RequestException ])
  = (Ok None,
     answered (maintenance_request (counted (fifth_request [ Fails RequestException ]))) []
       (counted (fifth_request [ Fails RequestException ]))).
Proof.
  apply (proj1 (fifth_request_maintains (fifth_request [ Fails RequestException ])
                  eq_refl eq_refl) RequestException []).
  reflexivity.
Defined.

(** *** The first run *)

(** X14.  While the session is not initialized a fetch first runs
    [initialize_session].  If that returns [False] the fetch returns
    [None] without a main request and the session stays uninitialized, so
    the next fetch initializes again; if it returns [True] the session is
    initialized and, away from every fifth request, the main request
    follows. *)
Theorem first_fetch_initializes s b s1 :
  session_initialized s = false ->
  initialize_session (counted s) = (Ok b, s1) ->
  if b then
    session_initialized s1 = true
    /\ (((request_counter s + 1) mod 5 =? 0)%Z = false -> at_main_request s s1)
  else
    get_page_content s = (Ok None, s1) /\ session_initialized s1 = false.
Proof.
  intros Hs Hi.
  assert (Hflag : session_initialized s1 = b).
  { destruct (returns_login_to_system (entered (counted s))) as [b' Hb'].
    destruct (login_to_system (entered (counted s))) as [res s1'] eqn:Hl.
    simpl in Hb'. subst res.
    pose proof (initialize_session_by_login _ _ _ Hl) as H.
    destruct b'.
    - destruct H as (s' & H & Hf). rewrite Hi in H. by injection H as -> ->.
    - destruct H as [H Hf]. rewrite Hi in H. injection H as -> ->.
      by rewrite Hf. }
  assert (Hpre : fetch_preamble (counted s)
                 = (if b then
                      (counter <- gets request_counter ;;
                       if (counter mod 5 =? 0)%Z then maintain_session else ret true) s1
                    else (Ok false, s1))).
  { unfold fetch_preamble.
    run_gets. cbn [session_initialized set_request_counter counted]. rewrite Hs.
    erewrite bind_ok by exact Hi. by destruct b. }
  destruct b.
  - split; [exact Hflag |]. intros Hc.
    unfold at_main_request. fold (counted s). rewrite Hpre.
    run_gets.
    assert (Hcnt : request_counter s1 = (request_counter s + 1)%Z).
    { pose proof (inner_steps_initialize_session (counted s)) as H.
      rewrite Hi in H. by destruct (inner_steps_frame _ _ H). }
    by rewrite Hcnt, Hc.
  - split; [| exact Hflag].
    unfold get_page_content.
    erewrite bind_ok by (unfold modify; reflexivity).
    erewrite try_except_ok; [reflexivity |].
    fold (counted s). erewrite bind_ok by exact Hpre. reflexivity.
Qed.

Lemma first_fetch_initializes_witness :
  exists s1, get_page_content site_down = (Ok None, s1)
             /\ session_initialized s1 = false.
Proof.
  eexists.
  apply (first_fetch_initializes site_down false).
  - reflexivity.
  - vm_compute. reflexivity.
Defined.

(** *** Country selection *)

(** X15.  [select_country] returns [True] on each of its paths.  With a
    country dropdown inside a form and an option for India, it submits
    the dropdown's name with that option's value, together with the
    hidden fields of the form, and a 200 answer sets [country_selected]
    without any link being followed.  Without a dropdown and without a
    link naming India it makes its one request and selects nothing.  When
    the entry page cannot be fetched it selects nothing either. *)
Theorem select_country_paths s :
  (forall r1 r2 rest sel ancestors form opt,
      network s = Reply r1 :: Reply r2 :: rest ->
      find_located (html_soup (body r1)) "select" (attr_lower_contains "name" "country")
      = Some (sel, ancestors) ->
      find_parent ancestors "form" = Some form ->
      find (tag_contents sel) "option" (string_search "India") = Some opt ->
      status_code r2 = 200%Z ->
      select_country s
      = (Ok true,
         set_country_selected true
           (answered (country_request s form sel opt) rest
              (answered (entry_request s) (Reply r2 :: rest) s))))
  /\ (forall r1 rest,
         network s = Reply r1 :: rest ->
         find_located (html_soup (body r1)) "select" (attr_lower_contains "name" "country")
         = None ->
         find_all (html_soup (body r1)) "a" (string_search "India") = [] ->
         select_country s = (Ok true, answered (entry_request s) rest s))
  /\ (forall e rest,
         network s = Fails e :: rest ->
         select_country s = (Ok true, answered (entry_request s) rest s)).
Proof.
  split; [| split].
  - intros r1 r2 rest sel ancestors form opt Hn Hsel Hform Hopt Hst.
    assert (Hd : select_by_dropdown (html_soup (body r1))
                   (answered (entry_request s) (Reply r2 :: rest) s)
                 = (Ok true,
                    set_country_selected true
                      (answered (country_request s form sel opt) rest
                         (answered (entry_request s) (Reply r2 :: rest) s)))).
    { unfold select_by_dropdown. rewrite Hsel, Hform. run_gets. rewrite Hopt.
      unfold session_post. erewrite bind_ok by (by apply http_reply).
      rewrite Hst. reflexivity. }
    unfold select_country.
    erewrite bind_ok; cycle 1.
    { erewrite try_except_ok; [reflexivity |].
      run_gets. unfold session_get. erewrite bind_ok by (by apply http_reply).
      cbv zeta. erewrite bind_ok by exact Hd. reflexivity. }
    reflexivity.
  - intros r1 rest Hn Hsel Hlinks.
    unfold select_country.
    erewrite bind_ok; cycle 1.
    { erewrite try_except_ok; [reflexivity |].
      run_gets. unfold session_get. erewrite bind_ok by (by apply http_reply).
      cbv zeta.
      erewrite bind_ok by (unfold select_by_dropdown; rewrite Hsel; reflexivity).
      cbv beta iota. rewrite Hlinks. reflexivity. }
    reflexivity.
  - intros e rest Hn. unfold select_country.
    erewrite bind_ok; cycle 1.
    { erewrite try_except_exc; cycle 1.
      { run_gets. unfold session_get. erewrite bind_exc; [reflexivity |].
        by apply http_fails. }
      reflexivity. }
    reflexivity.
Qed.

Lemma select_country_paths_witness :
  exists s', select_country
               (fresh_monitor None None
                  [ replies 200 entry country_page; replies 200 entry plain_page ])
             = (Ok true, s')
             /\ country_selected s' = true
             /\ trace s'
                = [ EvRequest (get_request entry);
                    EvRequest {| req_method := POST;
                                 req_url := "https://www.nta.ac.in/select";
                                 req_data := [("countryCode", Some "IN"); ("step", Some "2")];
                                 req_timeout := None |} ].
Proof.
  eexists. split.
  - apply (proj1 (select_country_paths _)
             {| status_code := 200; url := entry; body := country_page |}
             {| status_code := 200; url := entry; body := plain_page |}
             [] country_select [country_form] country_form india_option);
      reflexivity.
  - split; reflexivity.
Defined.

(** *** Navigation *)

Lemma find_all_spec l name p x :
  x ∈ find_all l name p -> x ∈ descendants l /\ tag_name x = name.
Proof.
  unfold find_all, find_all_located, descendants. intros H.
  apply list_elem_of_fmap in H as ([y anc] & -> & H).
  apply list_elem_of_In, filter_In in H as [H Hp].
  apply andb_true_iff in Hp as [Hn _]. apply String.eqb_eq in Hn.
  split; [| exact Hn].
  apply list_elem_of_fmap. exists (y, anc). split; [reflexivity |].
  by apply list_elem_of_In.
Qed.

Lemma try_links_found imat links s u s' :
  try_links imat links s = (Ok (Some u), s') ->
  slot_booking_url s' = Some u
  /\ (exists link href, link ∈ links /\ get_str link "href" = Some href
                        /\ u = absolute imat href)
  /\ (exists tr, trace s' = tr ++ [EvRequest (get_request u)]).
Proof.
  revert s. induction links as [| link rest IH]; intros s; cbn [try_links];
    [discriminate |].
  assert (Hrest : try_links imat rest s = (Ok (Some u), s') ->
                  slot_booking_url s' = Some u
                  /\ (exists link0 href, link0 ∈ link :: rest
                                         /\ get_str link0 "href" = Some href
                                         /\ u = absolute imat href)
                  /\ (exists tr, trace s' = tr ++ [EvRequest (get_request u)])).
  { intros H. destruct (IH s H) as (H1 & (l0 & h0 & Hl & Hh & Hu) & H3).
    split; [exact H1 |]. split; [| exact H3].
    exists l0, h0. split; [by right | by split]. }
  destruct (get_str link "href") as [href |] eqn:Eh; [| exact Hrest].
  destruct (Py.truthy href); [| exact Hrest].
  cbv zeta. unfold session_get, bind at 1.
  pose proof (http_trace (get_request (absolute imat href)) s) as Ht.
  unfold get_request in Ht.
  destruct (http _ s) as [[resp | e] s1]; [| discriminate].
  destruct (status_code resp =? 200)%Z.
  - unfold bind, modify, ret. intros [= <- <-]. simpl in *.
    split; [reflexivity |]. split.
    + exists link, href. split; [left | by split].
    + by exists (trace s).
  - intros H. destruct (IH s1 H) as (H1 & (l0 & h0 & Hl & Hh & Hu) & H3).
    split; [exact H1 |]. split; [| exact H3].
    exists l0, h0. split; [by right | by split].
Qed.

Lemma try_keywords_found imat sp keywords s u s' :
  try_keywords imat sp keywords s = (Ok (Some u), s') ->
  slot_booking_url s' = Some u
  /\ (exists link href, link ∈ descendants sp /\ tag_name link = "a"
                        /\ get_str link "href" = Some href
                        /\ u = absolute imat href)
  /\ (exists tr, trace s' = tr ++ [EvRequest (get_request u)]).
Proof.
  revert s. induction keywords as [| keyword rest IH]; intros s; cbn [try_keywords];
    [discriminate |].
  cbv zeta. unfold bind at 1.
  match goal with |- context [try_links imat ?links s] =>
    assert (Hsub : forall x, x ∈ links -> x ∈ descendants sp /\ tag_name x = "a");
    [| destruct (try_links imat links s) as [[[h |] | e] s1] eqn:Hl;
       [| apply IH | discriminate]]
  end.
  { intros x. destruct (find_all sp "a" _) eqn:E; [| rewrite <- E];
      apply find_all_spec. }
  unfold ret. intros [= <- <-].
  destruct (try_links_found _ _ _ _ _ Hl) as (H1 & (l0 & h0 & Hin & Hh & Hu) & H3).
  split; [exact H1 |]. split; [| exact H3].
  exists l0, h0. destruct (Hsub _ Hin). by repeat split.
Qed.

(** X16.  [navigate_to_slot_page] never raises and never makes up a
    URL: what it returns is the entry URL, or the resolved [href] of a
    link of the entry page it has just fetched; in the second case that
    URL is stored in [slot_booking_url] and its GET was the last request
    made. *)
Theorem navigate_result s :
  exists u s',
    navigate_to_slot_page s = (Ok u, s')
    /\ (u = imat_url s
        \/ (slot_booking_url s' = Some u
            /\ (exists r rest link href,
                   network s = Reply r :: rest
                   /\ link ∈ descendants (html_soup (body r))
                   /\ tag_name link = "a"
                   /\ get_str link "href" = Some href
                   /\ u = absolute (imat_url s) href)
            /\ (exists tr, trace s' = tr ++ [EvRequest (get_request u)]))).
Proof.
  unfold navigate_to_slot_page.
  destruct (network s) as [| [r | e] rest] eqn:Hn.
  - eexists _, _. split.
    + erewrite try_except_exc; cycle 1.
      { run_gets. unfold session_get. erewrite bind_exc; [reflexivity |].
        unfold http. erewrite bind_ok by (unfold emit, modify; reflexivity).
        cbn [network set_trace]. rewrite Hn. reflexivity. }
      reflexivity.
    + by left.
  - set (s1 := answered (entry_request s) rest s).
    destruct (try_keywords (imat_url s) (html_soup (body r)) slot_keywords s1)
      as [[[h |] | e] s2] eqn:Hk.
    + exists h, s2. split.
      * erewrite try_except_ok; [reflexivity |].
        run_gets. unfold session_get. erewrite bind_ok by (by apply http_reply).
        fold (entry_request s). fold s1. erewrite bind_ok by exact Hk. reflexivity.
      * right. destruct (try_keywords_found _ _ _ _ _ _ Hk) as (H1 & (l0 & h0 & Hin & Ha & Hh & Hu) & H3).
        split; [exact H1 |]. split; [| exact H3].
        exists r, rest, l0, h0. by repeat split.
    + exists (imat_url s), s2. split; [| by left].
      erewrite try_except_ok; [reflexivity |].
      run_gets. unfold session_get. erewrite bind_ok by (by apply http_reply).
      fold (entry_request s). fold s1. erewrite bind_ok by exact Hk. reflexivity.
    + exists (imat_url s), s2. split; [| by left].
      erewrite try_except_exc; cycle 1.
      { run_gets. unfold session_get. erewrite bind_ok by (by apply http_reply).
        fold (entry_request s). fold s1. erewrite bind_exc by exact Hk. reflexivity. }
      unfold gets. f_equal. f_equal.
      pose proof (sub_steps_try_keywords (imat_url s) (html_soup (body r)) slot_keywords s1) as H.
      rewrite Hk in H. by destruct (sub_steps_frame _ _ H).
  - eexists _, _. split.
    + erewrite try_except_exc; cycle 1.
      { run_gets. unfold session_get. erewrite bind_exc; [reflexivity |].
        by apply http_fails. }
      reflexivity.
    + by left.
Qed.

(** The slot link of the entry page is adopted once its GET is answered
    with 200. *)
Example navigate_adopts_slot_link :
  exists s', navigate_to_slot_page
               (fresh_monitor None None
                  [ replies 200 entry slots_page; replies 200 entry plain_page ])
             = (Ok "https://www.nta.ac.in/exam/slots", s')
             /\ slot_booking_url s' = Some "https://www.nta.ac.in/exam/slots".
Proof. eexists. split; reflexivity. Qed.

(** *** Login answered with 200 *)

(** X21.  When the credential submission is answered with status 200,
    login succeeds exactly if the final URL contains "dashboard" or the
    page contains "welcome" (case-insensitively): then [is_logged_in] is
    set and [True] returned; otherwise [False] is returned,
    [is_logged_in] is left alone and initialization is aborted. *)
Theorem login_200_by_markers s r1 r2 rest form :
  configured s ->
  network s = Reply r1 :: Reply r2 :: rest ->
  find_login_form (html_soup (body r1)) = Some form ->
  status_code r2 = 200%Z ->
  let marked :=
    Py.contains "dashboard" (Py.lower (url r2)) ||
    Py.contains "welcome" (Py.lower (html_text (body r2))) in
  let submitted :=
    answered (login_request s form) rest
      (answered (entry_request s) (Reply r2 :: rest) s) in
  login_to_system s
  = (Ok marked, if marked then set_is_logged_in true submitted else submitted)
  /\ (marked = false ->
      exists s', initialize_session s = (Ok false, s')
                 /\ session_initialized s' = session_initialized s).
Proof.
  intros Hc Hn Hf Hs marked submitted.
  assert (Hlogin : forall s0, configured s0 -> network s0 = Reply r1 :: Reply r2 :: rest ->
            login_to_system s0
            = (Ok marked,
               if marked
               then set_is_logged_in true
                      (answered (login_request s0 form) rest
                         (answered (entry_request s0) (Reply r2 :: rest) s0))
               else answered (login_request s0 form) rest
                      (answered (entry_request s0) (Reply r2 :: rest) s0))).
  { intros s0 Hc0 Hn0. rewrite (login_configured _ Hc0).
    pose proof (login_attempt_submits _ _ _ _ Hn0 Hf) as Ha.
    erewrite bind_ok in Ha by (by apply http_reply).
    rewrite Hs in Ha. cbn [Z.eqb Pos.eqb] in Ha. fold marked in Ha.
    destruct marked.
    - erewrite bind_ok by (erewrite try_except_ok by exact Ha; reflexivity).
      reflexivity.
    - erewrite bind_ok by (erewrite try_except_ok by exact Ha; reflexivity).
      reflexivity. }
  split; [by apply Hlogin |].
  intros Hm. eexists.
  apply (initialize_session_by_login s false).
  rewrite (Hlogin (entered s) Hc Hn). by rewrite Hm.
Qed.

Lemma login_200_by_markers_witness :
  exists s', initialize_session login_unconfirmed = (Ok false, s')
             /\ session_initialized s' = session_initialized login_unconfirmed.
Proof.
  apply (proj2 (login_200_by_markers login_unconfirmed
                  {| status_code := 200; url := entry; body := login_page |}
                  {| status_code := 200; url := "https://www.nta.ac.in/login";
                     body := login_page |} [] login_form
                  (conj eq_refl eq_refl) eq_refl eq_refl eq_refl)).
  reflexivity.
Defined.

End SessionMore.

(* ===================================================================== *)
(** ** More on the monitor loop *)
(* ===================================================================== *)

Module LoopMore.
Import Soup Extractor Session Loop Spec Examples.
Import ChangeDetectorFacts SessionFacts SessionMore LoopFacts.
Local Open Scope session_scope.
Local Open Scope Z_scope.

(** What a fetch leaves for the rest of the cycle *)
Lemma fetch_leaves s h s1 :
  get_page_content s = (Ok h, s1) ->
  cities s1 = cities s /\ previous_state s1 = previous_state s
  /\ request_counter s1 = request_counter s + 1
  /\ telegrams (trace s1) = telegrams (trace s).
Proof.
  intros Hg.
  destruct (get_page_content_inner _ _ _ Hg) as [? ? ? ? ? ? ? ? ? (evs & Ht & Hq)].
  simpl in *. repeat split; try assumption.
  by rewrite Ht, telegrams_app, (telegrams_quiet _ Hq), app_nil_r.
Qed.

Lemma telegrams_sleep tr n : telegrams (tr ++ [EvSleep n]) = telegrams tr.
Proof. rewrite telegrams_app. apply app_nil_r. Qed.

Lemma telegrams_one tr m : telegrams (tr ++ [EvTelegram m]) = telegrams tr ++ [m].
Proof. by rewrite telegrams_app. Qed.

(** The success branch, with the message it sends *)
Lemma after_fetch_success_effect current_time html_content ls s :
  html_truthy html_content = true ->
  exists s',
    after_fetch current_time html_content ls s
    = (Ok {| consecutive_failures := 0; last_successful_check := current_time |}, s')
    /\ previous_state s' = analyze_slot_status (cities s) html_content
    /\ request_counter s' = request_counter s
    /\ telegrams (trace s')
       = telegrams (trace s)
         ++ slot_alert (check_for_changes (previous_state s)
                          (analyze_slot_status (cities s) html_content)).
Proof.
  intros H. unfold after_fetch. rewrite H. do 2 run_gets.
  destruct (check_for_changes _ _) as [| chg changes].
  - eexists. split; [reflexivity |]. repeat split. simpl. by rewrite app_nil_r.
  - eexists. split; [reflexivity |]. repeat split. simpl. apply telegrams_one.
Qed.



(** X18.  No alert goes out in a successful cycle when there is no
    previous snapshot yet (the first cycle after start) or when the page
    analyses to the snapshot already held. *)
Theorem no_alert_without_change current_time current_hour ls s h s1 :
  get_page_content s = (Ok h, s1) ->
  html_truthy h = true ->
  previous_state s = ∅ \/ analyze_slot_status (cities s) h = previous_state s ->
  exists ls2 s2,
    iteration current_time current_hour ls s = (Ok ls2, s2)
    /\ telegrams (trace s2) = telegrams (trace s).
Proof.
  intros Hg Hh Hsame.
  destruct (fetch_leaves _ _ _ Hg) as (Hc & Hp & _ & Ht).
  destruct (after_fetch_success_effect current_time h ls s1 Hh) as (s2 & Ha & _ & _ & Ht2).
  eexists _, _. split; [exact (iteration_run _ current_hour _ _ _ _ _ _ Hg Ha) |].
  simpl. rewrite telegrams_sleep, Ht2, Hc, Hp, Ht.
  assert (Hnone : check_for_changes (previous_state s)
                    (analyze_slot_status (cities s) h) = []).
  { destruct Hsame as [He | He].
    - destruct (check_for_changes (previous_state s) (analyze_slot_status (cities s) h))
        as [| [c p v] l] eqn:E; [reflexivity |].
      assert (Hin : {| city := c; previous := p; current := v |}
                      ∈ check_for_changes (previous_state s)
                          (analyze_slot_status (cities s) h)) by (rewrite E; left).
      apply elem_of_check_for_changes in Hin as (_ & Hprev & _).
      rewrite He, lookup_empty in Hprev. discriminate.
    - rewrite He. apply check_for_changes_self. }
  rewrite Hnone. apply app_nil_r.
Qed.

Lemma no_alert_without_change_witness :
  exists ls2 s2,
    iteration 7 10 loop_start healthy = (Ok ls2, s2)
    /\ telegrams (trace s2) = telegrams (trace healthy).
Proof.
  apply (no_alert_without_change 7 10 loop_start healthy (Some delhi_page)
           (snd (get_page_content healthy))).
  - vm_compute. reflexivity.
  - reflexivity.
  - left. reflexivity.
Defined.

(** X19.  A cycle whose fetch fails keeps the previous snapshot and the
    time of the last success, so that a red seen before an outage still
    counts as the baseline after it; with the counter in its range it
    sends the failure alert, reporting 3 failures and that time, exactly
    when this is the third failure in a row, and nothing otherwise. *)
Theorem failed_cycle_effect current_time current_hour ls s :
  fetch_fails s ->
  counter_in_range ls ->
  exists ls1 s1,
    iteration current_time current_hour ls s = (Ok ls1, s1)
    /\ previous_state s1 = previous_state s
    /\ last_successful_check ls1 = last_successful_check ls
    /\ consecutive_failures ls1 = (consecutive_failures ls + 1) mod 3
    /\ telegrams (trace s1)
       = telegrams (trace s)
         ++ (if consecutive_failures ls =? 2
             then [FailureAlert 3 (last_successful_check ls)] else []).
Proof.
  intros (h & sa & Hg & Hf) Hr. unfold counter_in_range in Hr.
  destruct (fetch_leaves _ _ _ Hg) as (_ & Hp & _ & Ht).
  pose proof (after_fetch_failure current_time h ls sa Hf) as Ha.
  destruct (Z.eqb_spec (consecutive_failures ls) 2) as [E2 | E2].
  - rewrite E2 in Ha. simpl in Ha.
    eexists _, _. split; [exact (iteration_run _ current_hour _ _ _ _ _ _ Hg Ha) |].
    simpl. rewrite E2. repeat split; try assumption.
    by rewrite telegrams_sleep, telegrams_one, Ht.
  - destruct (Z.leb_spec 3 (consecutive_failures ls + 1)); [lia |].
    eexists _, _. split; [exact (iteration_run _ current_hour _ _ _ _ _ _ Hg Ha) |].
    simpl. repeat split; try assumption.
    + rewrite Z.mod_small; lia.
    + by rewrite telegrams_sleep, Ht, app_nil_r.
Qed.

Lemma failed_cycle_effect_witness :
  exists ls1 s1,
    iteration 7 10 {| consecutive_failures := 2; last_successful_check := 5 |} unreachable
    = (Ok ls1, s1)
    /\ consecutive_failures ls1 = 0
    /\ telegrams (trace s1) = [FailureAlert 3 5].
Proof.
  destruct (failed_cycle_effect 7 10
              {| consecutive_failures := 2; last_successful_check := 5 |} unreachable)
    as (ls1 & s1 & Hi & _ & _ & Hc & Ht).
  - eexists _, _. split; vm_compute; reflexivity.
  - unfold counter_in_range. simpl. lia.
  - exists ls1, s1. split; [exact Hi |]. split; [exact Hc | exact Ht].
Defined.

(** One cycle, whatever its fetch brings *)
Lemma cycle_step current_time current_hour ls s :
  counter_in_range ls ->
  exists ls1 s1 ms,
    iteration current_time current_hour ls s = (Ok ls1, s1)
    /\ counter_in_range ls1
    /\ request_counter s1 = request_counter s + 1
    /\ telegrams (trace s1) = telegrams (trace s) ++ ms
    /\ forallb cycle_message ms = true
    /\ (length ms <= 1)%nat.
Proof.
  intros Hr. unfold counter_in_range in *.
  destruct (returns_get_page_content s) as [h Hh].
  destruct (get_page_content s) as [r sa] eqn:Hg. simpl in Hh. subst r.
  destruct (fetch_leaves _ _ _ Hg) as (_ & _ & Hcnt & Ht).
  destruct (html_truthy h) eqn:Hf.
  - destruct (after_fetch_success_effect current_time h ls sa Hf)
      as (s2 & Ha & _ & Hc2 & Ht2).
    eexists _, _, _. split; [exact (iteration_run _ current_hour _ _ _ _ _ _ Hg Ha) |].
    simpl. split; [lia |]. split; [by rewrite Hc2 |].
    split; [by rewrite telegrams_sleep, Ht2, Ht |].
    destruct (check_for_changes _ _); simpl; split; (reflexivity || lia).
  - pose proof (after_fetch_failure current_time h ls sa Hf) as Ha.
    destruct (Z.leb_spec 3 (consecutive_failures ls + 1)).
    + exists {| consecutive_failures := 0;
                last_successful_check := last_successful_check ls |}.
      eexists _, [FailureAlert 3 (last_successful_check ls)].
      split; [exact (iteration_run _ current_hour _ _ _ _ _ _ Hg Ha) |].
      simpl. split; [lia |]. split; [exact Hcnt |].
      split; [| split; [reflexivity | lia]].
      rewrite telegrams_sleep, telegrams_one, Ht.
      by replace (consecutive_failures ls + 1) with 3 by lia.
    + eexists _, _, []. split; [exact (iteration_run _ current_hour _ _ _ _ _ _ Hg Ha) |].
      simpl. split; [lia |]. split; [exact Hcnt |].
      split; [by rewrite telegrams_sleep, Ht, app_nil_r |]. split; [reflexivity | lia].
Qed.

(** *** Cycles with a parser that may refuse the page *)

Lemma after_fetch_parsing_cases accepts current_time html_content ls s :
  after_fetch_parsing accepts current_time html_content ls s
  = if refused accepts html_content then (Exc OtherException, s)
    else after_fetch current_time html_content ls s.
Proof.
  unfold after_fetch_parsing, refused, analyze_markup, html_truthy.
  destruct html_content as [h |]; [| reflexivity].
  destruct (Py.truthy (html_text h)); [| reflexivity].
  run_gets. by destruct (accepts (html_text h)).
Qed.

(** With a page the parser accepts, or no page, the cycle is the one of
    [iteration]. *)
Lemma iteration_parsing_accepted accepts current_time current_hour ls s h s1 :
  get_page_content s = (Ok h, s1) ->
  refused accepts h = false ->
  iteration_parsing accepts current_time current_hour ls s
  = iteration current_time current_hour ls s.
Proof.
  intros Hg Hr.
  pose proof (after_fetch_parsing_cases accepts current_time h ls s1) as Ha.
  rewrite Hr in Ha.
  unfold iteration_parsing, iteration, iteration_body, try_except.
  rewrite !(bind_ok _ _ _ _ _ Hg).
  unfold bind. by rewrite Ha.
Qed.

(** With a page the parser refuses, the cycle ends in the handler of
    the loop: the error message goes out, the loop cools down for two
    minutes, and the local variables and the previous snapshot are as
    they were. *)
Lemma iteration_parsing_refused accepts current_time current_hour ls s h s1 :
  get_page_content s = (Ok h, s1) ->
  refused accepts h = true ->
  exists s2,
    iteration_parsing accepts current_time current_hour ls s = (Ok ls, s2)
    /\ previous_state s2 = previous_state s
    /\ request_counter s2 = request_counter s + 1
    /\ telegrams (trace s2) = telegrams (trace s) ++ [ErrorMsg]
    /\ last (trace s2) = Some (EvSleep 120).
Proof.
  intros Hg Hr.
  destruct (fetch_leaves _ _ _ Hg) as (_ & Hp & Hc & Ht).
  pose proof (after_fetch_parsing_cases accepts current_time h ls s1) as Ha.
  rewrite Hr in Ha.
  eexists. split.
  - unfold iteration_parsing.
    erewrite try_except_exc; cycle 1.
    { erewrite bind_ok by exact Hg. erewrite bind_exc by exact Ha. reflexivity. }
    unfold send_telegram_message, sleep, emit, modify, bind, ret. reflexivity.
  - simpl. split; [exact Hp |]. split; [exact Hc |]. split.
    + by rewrite telegrams_sleep, telegrams_one, Ht.
    + apply last_snoc.
Qed.

Lemma cycles_parsing_lenient accepts clock ls s :
  (forall text, accepts text = true) ->
  cycles_parsing accepts clock ls s = cycles clock ls s.
Proof.
  intros Hall. revert ls s.
  induction clock as [| [t hr] later IH]; intros ls s; [reflexivity |].
  cbn [cycles_parsing cycles].
  destruct (returns_get_page_content s) as [h Hh].
  destruct (get_page_content s) as [r sa] eqn:Hg. simpl in Hh. subst r.
  assert (Hr : refused accepts h = false).
  { unfold refused. destruct h as [p |]; [| reflexivity].
    by rewrite Hall, andb_false_r. }
  unfold bind. rewrite (iteration_parsing_accepted _ t hr ls _ _ _ Hg Hr).
  destruct (iteration t hr ls s) as [[ls1 | e] s1]; [apply IH | reflexivity].
Qed.

(** One cycle, whatever its fetch brings and whatever the parser makes
    of it *)
Lemma cycle_step_parsing accepts current_time current_hour ls s :
  counter_in_range ls ->
  exists ls1 s1 ms,
    iteration_parsing accepts current_time current_hour ls s = (Ok ls1, s1)
    /\ counter_in_range ls1
    /\ request_counter s1 = request_counter s + 1
    /\ telegrams (trace s1) = telegrams (trace s) ++ ms
    /\ (length ms <= 1)%nat
    /\ (forallb cycle_message ms = true
        \/ (ms = [ErrorMsg] /\ exists text, accepts text = false)).
Proof.
  intros Hrange.
  destruct (returns_get_page_content s) as [h Hh].
  destruct (get_page_content s) as [r sa] eqn:Hg. simpl in Hh. subst r.
  destruct (refused accepts h) eqn:Hr.
  - destruct (iteration_parsing_refused accepts current_time current_hour ls _ _ _ Hg Hr)
      as (s2 & Hi & _ & Hc & Ht & _).
    exists ls, s2, [ErrorMsg]. split; [exact Hi |]. split; [exact Hrange |].
    split; [exact Hc |]. split; [exact Ht |]. split; [cbn [length]; lia |].
    right. split; [reflexivity |].
    unfold refused in Hr. destruct h as [p |]; [| discriminate].
    exists (html_text p). apply andb_true_iff in Hr as [_ Hr].
    by apply negb_true_iff in Hr.
  - rewrite (iteration_parsing_accepted _ _ _ _ _ _ _ Hg Hr).
    destruct (cycle_step current_time current_hour ls s Hrange)
      as (ls1 & s1 & ms & Hi & Hr1 & Hc & Ht & Hm & Hl).
    exists ls1, s1, ms. repeat (split; [assumption |]). by left.
Qed.

(** X20.  Over any number of cycles started with the failure counter in
    0..2, whatever the site answers and whichever pages the parser
    refuses: every cycle runs to its end; the counter stays in 0..2;
    [request_counter] grows by one per cycle; at most one Telegram
    message goes out per cycle, each an alert for at least one
    transition, a failure alert that reports exactly 3 failures, or the
    error message of the loop; and with a parser that accepts every page
    the error message never goes out. *)
Theorem cycles_invariant accepts clock ls s :
  counter_in_range ls ->
  exists ls' s' ms,
    cycles_parsing accepts clock ls s = (Ok ls', s')
    /\ counter_in_range ls'
    /\ request_counter s' = request_counter s + Z.of_nat (length clock)
    /\ telegrams (trace s') = telegrams (trace s) ++ ms
    /\ (length ms <= length clock)%nat
    /\ forallb (fun m => cycle_message m || is_error_message m) ms = true
    /\ ((forall text, accepts text = true) -> forallb cycle_message ms = true).
Proof.
  revert ls s. induction clock as [| [t hr] later IH]; intros ls s Hr.
  - exists ls, s, []. split; [reflexivity |]. split; [exact Hr |].
    split; [cbn [length]; lia |]. split; [symmetry; apply app_nil_r |].
    split; [cbn [length]; lia |]. split; [reflexivity | reflexivity].
  - destruct (cycle_step_parsing accepts t hr ls s Hr)
      as (ls1 & s1 & ms1 & Hi & Hr1 & Hc1 & Ht1 & Hl1 & Hm1).
    destruct (IH ls1 s1 Hr1) as (ls' & s' & ms & Hcy & Hr' & Hc' & Ht' & Hl' & Hm' & Ha').
    exists ls', s', (ms1 ++ ms). split.
    { cbn [cycles_parsing]. erewrite bind_ok by exact Hi. exact Hcy. }
    split; [exact Hr' |]. split; [rewrite Hc', Hc1; cbn [length]; lia |].
    split; [by rewrite Ht', Ht1, app_assoc |].
    split; [rewrite length_app; cbn [length]; lia |].
    split.
    + rewrite forallb_app, Hm', andb_true_r.
      destruct Hm1 as [Hm1 | [-> _]]; [| reflexivity].
      apply forallb_forall. intros m Hin.
      rewrite forallb_forall in Hm1. by rewrite (Hm1 m Hin).
    + intros Hall. rewrite forallb_app, (Ha' Hall), andb_true_r.
      destruct Hm1 as [Hm1 | [_ [text Htext]]]; [exact Hm1 |].
      rewrite Hall in Htext. discriminate.
Qed.

(** Four cycles against a site that never answers; one cycle whose page
    the strict parser refuses. *)
Lemma cycles_invariant_witness :
  (exists ls' s' ms,
     cycles_parsing lenient_parser [(1, 10); (2, 10); (3, 10); (4, 10)]
       loop_start unreachable = (Ok ls', s')
     /\ counter_in_range ls'
     /\ request_counter s' = request_counter unreachable + 4
     /\ telegrams (trace s') = telegrams (trace unreachable) ++ ms
     /\ (length ms <= 4)%nat
     /\ forallb (fun m => cycle_message m || is_error_message m) ms = true
     /\ ((forall text, lenient_parser text = true) -> forallb cycle_message ms = true))
  /\ telegrams (trace (snd (cycles_parsing strict_parser [(1, 10)] loop_start garbled)))
     = [ErrorMsg].
Proof.
  split.
  - apply (cycles_invariant lenient_parser [(1, 10); (2, 10); (3, 10); (4, 10)]
             loop_start unreachable).
    unfold counter_in_range. simpl. lia.
  - vm_compute. reflexivity.
Defined.

End LoopMore.
